(** * nano_sipyco: the codec, the dispatcher and the connection handler

    A shallow embedding of [src/nano_sipyco.py] and the properties its
    specification states about it.

    Conventions of the embedding.
    - Python [str] is a Rocq [string]; a character is a code point in
      0..255.  [bytes] is a Rocq [string] of octets.
    - Python [int] is [Z].  Floats are not part of the embedding.
    - A raised exception is a value of [exn]; a computation that may raise
      returns [result].  Stateful code threads a [world] (the process's
      standard output and the state of the served application).
    - [repr] and [eval] are the interpreter's, not the program's.  [repr]
      is written out for the values modelled.  [eval] is written out for a
      grammar of expressions (literals, the name [line], calls of
      [print]); the parser accepts a text only when it is sure of its
      reading, and every other text is left to the runtime.
    - What the interpreter does and the source does not determine (the
      wording of its own error messages, the iteration order of a set, the
      value of an expression outside the modelled grammar) is a field of
      [runtime], so that every statement below holds for each choice.
    - The interpreter's resource limits (recursion and nesting depth, the
      optional cap on the digits of an integer conversion, memory) are not
      modelled. *)

From Stdlib Require Import ZArith NArith List String Ascii Lia Bool Permutation.
From stdpp Require Import base option list strings sorting gmap.
Import ListNotations.
Open Scope string_scope.

(* ------------------------------------------------------------------ *)
(** ** Exceptions and results *)

Inductive exn_class : Type :=
| AttributeError | TypeError | KeyError | ValueError | NameError
| SyntaxError | UnicodeDecodeError
| ConnectionResetError | ConnectionAbortedError | BrokenPipeError
| OtherException (name : string)
| SystemExit | KeyboardInterrupt
| OtherBaseException (name : string).

(** [issubclass(c, Exception)]: what an [except Exception] clause catches. *)
Definition is_Exception (c : exn_class) : bool :=
  match c with
  | SystemExit | KeyboardInterrupt | OtherBaseException _ => false
  | _ => true
  end.

(** The classes named by the handler's transport clause
    [except (ConnectionResetError, ConnectionAbortedError, BrokenPipeError)]. *)
Definition is_transport_error (c : exn_class) : bool :=
  match c with
  | ConnectionResetError | ConnectionAbortedError | BrokenPipeError => true
  | _ => false
  end.

(** An exception instance: its class and the text [str(err)] gives. *)
Record exn : Type := Exn { exn_cls : exn_class; exn_str : string }.

Inductive result (A : Type) : Type :=
| Ok (a : A)
| Raise (e : exn).
Arguments Ok {A} a.
Arguments Raise {A} e.

Definition rbind {A B : Type} (r : result A) (k : A -> result B) : result B :=
  match r with
  | Ok a => k a
  | Raise e => Raise e
  end.

#[global] Instance result_ret : MRet result := fun A a => Ok a.
#[global] Instance result_bind : MBind result := fun A B k r => rbind r k.

(* ------------------------------------------------------------------ *)
(** ** Characters and text *)

Definition squote : ascii := ascii_of_N 39.
Definition dquote : ascii := ascii_of_N 34.
Definition backslash : ascii := ascii_of_N 92.
Definition newline : ascii := ascii_of_N 10.
Definition char_tab : ascii := ascii_of_N 9.
Definition char_cr : ascii := ascii_of_N 13.

Definition str1 (c : ascii) : string := String c EmptyString.

Fixpoint str_contains (c : ascii) (s : string) : bool :=
  match s with
  | EmptyString => false
  | String d r => if Ascii.eqb c d then true else str_contains c r
  end.

(** [s.startswith(p)] *)
Fixpoint startswith (p s : string) : bool :=
  match p, s with
  | EmptyString, _ => true
  | String a p', String b s' => if Ascii.eqb a b then startswith p' s' else false
  | String _ _, EmptyString => false
  end.

(** [sep.join(l)] *)
Fixpoint join (sep : string) (l : list string) : string :=
  match l with
  | [] => EmptyString
  | [x] => x
  | x :: r => x ++ sep ++ join sep r
  end.

(** [s[1:]] *)
Definition drop_first (s : string) : string :=
  match s with
  | EmptyString => EmptyString
  | String _ r => r
  end.

(** [s[:-1]] *)
Fixpoint drop_last (s : string) : string :=
  match s with
  | EmptyString => EmptyString
  | String c EmptyString => EmptyString
  | String c r => String c (drop_last r)
  end.

(** [str.isprintable] on one code point below 256, as [repr] uses it. *)
Definition is_printable (c : ascii) : bool :=
  let n := N_of_ascii c in
  ((32 <=? n) && (n <=? 126) || (161 <=? n) && negb (n =? 173))%N.

Definition hex_digit (n : N) : ascii :=
  if (n <? 10)%N then ascii_of_N (48 + n) else ascii_of_N (87 + n).

(** The two-digit escape [\xNN]. *)
Definition hex_escape (c : ascii) : string :=
  let n := N_of_ascii c in
  String backslash (String "x" (String (hex_digit (n / 16)) (str1 (hex_digit (n mod 16))))).

(** One character of [repr(s)] inside the quote [q]. *)
Definition repr_char (q c : ascii) : string :=
  if Ascii.eqb c q || Ascii.eqb c backslash then String backslash (str1 c)
  else if Ascii.eqb c char_tab then String backslash "t"
  else if Ascii.eqb c newline then String backslash "n"
  else if Ascii.eqb c char_cr then String backslash "r"
  else if is_printable c then str1 c
  else hex_escape c.

Fixpoint repr_chars (q : ascii) (s : string) : string :=
  match s with
  | EmptyString => EmptyString
  | String c r => repr_char q c ++ repr_chars q r
  end.

(** [repr] picks the double quote only when the text holds a single quote
    and no double quote. *)
Definition repr_quote (s : string) : ascii :=
  if str_contains squote s && negb (str_contains dquote s) then dquote else squote.

Definition repr_str (s : string) : string :=
  let q := repr_quote s in
  String q (repr_chars q s ++ str1 q).

(* ------------------------------------------------------------------ *)
(** ** Integers in decimal *)

Definition digit_char (n : N) : ascii := ascii_of_N (48 + n).

Fixpoint digits_fuel (fuel : nat) (n : N) (acc : string) : string :=
  match fuel with
  | O => acc
  | S f =>
      let acc' := String (digit_char (n mod 10)) acc in
      if (n <? 10)%N then acc' else digits_fuel f (n / 10) acc'
  end.

Definition repr_N (n : N) : string :=
  digits_fuel (S (N.to_nat (N.log2 n))) n EmptyString.

Definition repr_Z (z : Z) : string :=
  if (z <? 0)%Z then String "-" (repr_N (Z.abs_N z)) else repr_N (Z.abs_N z).

(* ------------------------------------------------------------------ *)
(** ** Values *)

(** The objects the program handles.  [VObj] is an object outside the
    literal domain (a class, a device handle, ...): all the codec ever
    does with one is call its [__repr__], which returns a text or raises. *)
#[local] Set Warnings "-register-all".
Inductive value : Type :=
| VNone
| VBool (b : bool)
| VInt (z : Z)
| VStr (s : string)
| VList (l : list value)
| VTuple (l : list value)
| VSet (l : list value)
| VDict (kvs : list (value * value))
| VObj (name : string) (r : result string).

(** A set lists its elements in iteration order, a dict its items in
    insertion order. *)

Section value_induction.
Variable P : value -> Prop.
Hypothesis HNone : P VNone.
Hypothesis HBool : forall b, P (VBool b).
Hypothesis HInt : forall z, P (VInt z).
Hypothesis HStr : forall s, P (VStr s).
Hypothesis HList : forall l, Forall P l -> P (VList l).
Hypothesis HTuple : forall l, Forall P l -> P (VTuple l).
Hypothesis HSet : forall l, Forall P l -> P (VSet l).
Hypothesis HDict : forall kvs,
      Forall (fun kv => P (fst kv) /\ P (snd kv)) kvs -> P (VDict kvs).
Hypothesis HObj : forall n r, P (VObj n r).

Fixpoint value_nested_ind (v : value) : P v :=
    match v with
    | VNone => HNone
    | VBool b => HBool b
    | VInt z => HInt z
    | VStr s => HStr s
    | VList l =>
        HList l ((fix go (l : list value) : Forall P l :=
                    match l with
                    | [] => @List.Forall_nil _ P
                    | x :: r => @List.Forall_cons _ P x r (value_nested_ind x) (go r)
                    end) l)
    | VTuple l =>
        HTuple l ((fix go (l : list value) : Forall P l :=
                     match l with
                     | [] => @List.Forall_nil _ P
                     | x :: r => @List.Forall_cons _ P x r (value_nested_ind x) (go r)
                     end) l)
    | VSet l =>
        HSet l ((fix go (l : list value) : Forall P l :=
                   match l with
                   | [] => @List.Forall_nil _ P
                   | x :: r => @List.Forall_cons _ P x r (value_nested_ind x) (go r)
                   end) l)
    | VDict kvs =>
        HDict kvs
          ((fix go (l : list (value * value))
              : Forall (fun kv => P (fst kv) /\ P (snd kv)) l :=
              match l with
              | [] => @List.Forall_nil _ _
              | (k, x) :: r =>
                  @List.Forall_cons _ _ (k, x) r
                    (conj (value_nested_ind k) (value_nested_ind x)) (go r)
              end) kvs)
    | VObj n r => HObj n r
    end.
End value_induction.

(** *** [repr] *)

(** [repr] of the items of a sequence, left to right; the first item whose
    [__repr__] raises ends the conversion. *)
Fixpoint repr (v : value) : result string :=
  match v with
  | VNone => Ok "None"
  | VBool true => Ok "True"
  | VBool false => Ok "False"
  | VInt z => Ok (repr_Z z)
  | VStr s => Ok (repr_str s)
  | VList l =>
      match (fix items (l : list value) : result (list string) :=
               match l with
               | [] => Ok []
               | x :: r =>
                   match repr x with
                   | Ok s => match items r with Ok ss => Ok (s :: ss) | Raise e => Raise e end
                   | Raise e => Raise e
                   end
               end) l with
      | Ok ss => Ok ("[" ++ join ", " ss ++ "]")
      | Raise e => Raise e
      end
  | VTuple l =>
      match (fix items (l : list value) : result (list string) :=
               match l with
               | [] => Ok []
               | x :: r =>
                   match repr x with
                   | Ok s => match items r with Ok ss => Ok (s :: ss) | Raise e => Raise e end
                   | Raise e => Raise e
                   end
               end) l with
      | Ok [s] => Ok ("(" ++ s ++ ",)")
      | Ok ss => Ok ("(" ++ join ", " ss ++ ")")
      | Raise e => Raise e
      end
  | VSet l =>
      match (fix items (l : list value) : result (list string) :=
               match l with
               | [] => Ok []
               | x :: r =>
                   match repr x with
                   | Ok s => match items r with Ok ss => Ok (s :: ss) | Raise e => Raise e end
                   | Raise e => Raise e
                   end
               end) l with
      | Ok [] => Ok "set()"
      | Ok ss => Ok ("{" ++ join ", " ss ++ "}")
      | Raise e => Raise e
      end
  | VDict kvs =>
      match (fix items (l : list (value * value)) : result (list string) :=
               match l with
               | [] => Ok []
               | (k, x) :: r =>
                   match repr k with
                   | Ok sk =>
                       match repr x with
                       | Ok sx =>
                           match items r with
                           | Ok ss => Ok ((sk ++ ": " ++ sx) :: ss)
                           | Raise e => Raise e
                           end
                       | Raise e => Raise e
                       end
                   | Raise e => Raise e
                   end
               end) kvs with
      | Ok ss => Ok ("{" ++ join ", " ss ++ "}")
      | Raise e => Raise e
      end
  | VObj _ r => r
  end.

(** [str(v)]: the text itself for a [str], [repr] for everything else
    modelled here. *)
Definition py_str (v : value) : result string :=
  match v with
  | VStr s => Ok s
  | _ => repr v
  end.

(* ------------------------------------------------------------------ *)
(** ** The world and the interpreter's share *)

(** What the process writes on its standard output.  The handler's
    diagnostic lines are recorded by what they report, not by their
    formatted text. *)
Inductive out_event : Type :=
| Printed (text : string)
| DebugReceived (linecnt : nat) (line : string)
| DebugSendingMsg (msg : string)
| DebugSending (reply : string)
| ErrorReport (err : exn).

Record world : Type := World {
  w_stdout : list out_event;
  w_state : value
}.

Definition emit (ev : out_event) (w : world) : world :=
  World (w_stdout w ++ [ev]) (w_state w).

(** Errors the interpreter itself raises on behalf of the program. *)
Inductive interp_error : Type :=
| ErrUnhashable (v : value)
| ErrSubscript (container key : value)
| ErrNoAttribute (cls name : string)
| ErrAttrName (name : value)
| ErrNotCallable (callee : value)
| ErrUnsupportedCallable
| ErrStarArgs (v : value)
| ErrStarStarArgs (v : value)
| ErrBinding (callee : string)
| ErrOperand (op : string) (a b : value)
| ErrBytesPrefix
| ErrUtf8 (b : string).

Definition interp_class (e : interp_error) : exn_class :=
  match e with
  | ErrNoAttribute _ _ => AttributeError
  | ErrUtf8 _ => UnicodeDecodeError
  | _ => TypeError
  end.

Record runtime : Type := Runtime {
  (** the wording of an interpreter error *)
  rt_message : interp_error -> string;
  (** the order in which a freshly built set iterates, given its elements
      in insertion order *)
  rt_set_order : list value -> list value;
  rt_set_order_perm : forall l, Permutation (rt_set_order l) l;
  (** [eval] of a text outside the modelled grammar, in [decode]'s frame *)
  rt_eval_other : string -> world -> result value * world
}.

Definition interp_raise {A : Type} (rt : runtime) (e : interp_error) : result A :=
  Raise (Exn (interp_class e) (rt_message rt e)).

(** *** Hashing and key equality *)

Fixpoint hashable (v : value) : bool :=
  match v with
  | VNone | VBool _ | VInt _ | VStr _ | VObj _ _ => true
  | VTuple l => forallb hashable l
  | VList _ | VSet _ | VDict _ => false
  end.

Definition as_int (v : value) : option Z :=
  match v with
  | VBool true => Some 1%Z
  | VBool false => Some 0%Z
  | VInt z => Some z
  | _ => None
  end.

(** [a == b] for two hashable values ([True == 1], tuples item by item; an
    object outside the literal domain equals itself only, and its name
    stands for its identity). *)
Fixpoint key_eq (a b : value) : bool :=
  match a, b with
  | VNone, VNone => true
  | (VBool _ | VInt _), (VBool _ | VInt _) =>
      match as_int a, as_int b with
      | Some x, Some y => (x =? y)%Z
      | _, _ => false
      end
  | VStr s, VStr t => String.eqb s t
  | VTuple l1, VTuple l2 =>
      (fix go (l1 l2 : list value) : bool :=
         match l1, l2 with
         | [], [] => true
         | x :: r1, y :: r2 => key_eq x y && go r1 r2
         | _, _ => false
         end) l1 l2
  | VObj n _, VObj m _ => String.eqb n m
  | _, _ => false
  end.

(** Adding to a set keeps the element already there. *)
Definition set_add (acc : list value) (x : value) : list value :=
  if existsb (key_eq x) acc then acc else acc ++ [x].

(** Storing under a key keeps the key already there and its position, and
    replaces the value. *)
Fixpoint dict_set (acc : list (value * value)) (k x : value) : list (value * value) :=
  match acc with
  | [] => [(k, x)]
  | (k', x') :: r => if key_eq k k' then (k', x) :: r else (k', x') :: dict_set r k x
  end.

Definition first_unhashable (l : list value) : option value :=
  List.find (fun v => negb (hashable v)) l.

(** A set display or comprehension over the items [l]. *)
Definition build_set (rt : runtime) (l : list value) : result value :=
  match first_unhashable l with
  | Some v => interp_raise rt (ErrUnhashable v)
  | None => Ok (VSet (rt_set_order rt (fold_left set_add l [])))
  end.

(** A dict display over the items [kvs]. *)
Definition build_dict (rt : runtime) (kvs : list (value * value)) : result value :=
  match first_unhashable (map fst kvs) with
  | Some v => interp_raise rt (ErrUnhashable v)
  | None => Ok (VDict (fold_left (fun acc kv => dict_set acc (fst kv) (snd kv)) kvs []))
  end.

(** [d[k]] on a dict. *)
Fixpoint dict_lookup (kvs : list (value * value)) (k : value) : option value :=
  match kvs with
  | [] => None
  | (k', x) :: r => if key_eq k k' then Some x else dict_lookup r k
  end.

(* ------------------------------------------------------------------ *)
(** ** The expressions [eval] is modelled on *)

(** [decode] hands the received text to [eval].  The model evaluates the
    expressions of the grammar below itself: the literals of the value
    domain (the empty set is written [set()]), the local name [line] of
    [decode]'s frame, and calls of the built-in [print] with positional
    arguments.  Every other text is left
    to [rt_eval_other]. *)
Inductive expr : Type :=
| ENone
| EBool (b : bool)
| EInt (z : Z)
| EStr (s : string)
| ELine
| EList (l : list expr)
| ETuple (l : list expr)
| ESet (l : list expr)
| EDict (kvs : list (expr * expr))
| EPrint (args : list expr).

Definition is_digit (c : ascii) : bool :=
  let n := N_of_ascii c in ((48 <=? n) && (n <=? 57))%N.

Definition is_ident_char (c : ascii) : bool :=
  let n := N_of_ascii c in
  (is_digit c || (65 <=? n) && (n <=? 90) || (97 <=? n) && (n <=? 122)
   || (n =? 95) || (128 <=? n))%N.

Fixpoint skip_spaces (s : string) : string :=
  match s with
  | String c r => if Ascii.eqb c " " then skip_spaces r else s
  | EmptyString => s
  end.

(** The longest prefix of characters satisfying [p], and what follows. *)
Fixpoint scan (p : ascii -> bool) (s : string) : string * string :=
  match s with
  | String c r =>
      if p c then let '(a, b) := scan p r in (String c a, b) else (EmptyString, s)
  | EmptyString => (EmptyString, EmptyString)
  end.

Fixpoint N_of_digits (s : string) (acc : N) : N :=
  match s with
  | String c r => N_of_digits r (10 * acc + (N_of_ascii c - 48))%N
  | EmptyString => acc
  end.

(** A decimal integer literal: no leading zero unless it is the digit 0
    alone. *)
Definition int_literal (ds : string) : option N :=
  match ds with
  | EmptyString => None
  | String "0" (String _ _) => None
  | _ => Some (N_of_digits ds 0)
  end.

Definition hex_value (c : ascii) : option N :=
  let n := N_of_ascii c in
  if is_digit c then Some (n - 48)%N
  else if ((97 <=? n) && (n <=? 102))%N then Some (n - 87)%N
  else None.

(** The body of a string literal opened with the quote [q], up to and
    including the closing quote. *)
Fixpoint parse_str_body (q : ascii) (s : string) : option (string * string) :=
  match s with
  | EmptyString => None
  | String c r =>
      if Ascii.eqb c q then Some (EmptyString, r)
      else if Ascii.eqb c backslash then
        match r with
        | EmptyString => None
        | String e r' =>
            if Ascii.eqb e backslash || Ascii.eqb e squote || Ascii.eqb e dquote then
              match parse_str_body q r' with
              | Some (t, rest) => Some (String e t, rest)
              | None => None
              end
            else if Ascii.eqb e "n" then
              match parse_str_body q r' with
              | Some (t, rest) => Some (String newline t, rest)
              | None => None
              end
            else if Ascii.eqb e "r" then
              match parse_str_body q r' with
              | Some (t, rest) => Some (String char_cr t, rest)
              | None => None
              end
            else if Ascii.eqb e "t" then
              match parse_str_body q r' with
              | Some (t, rest) => Some (String char_tab t, rest)
              | None => None
              end
            else if Ascii.eqb e "x" then
              match r' with
              | String h1 (String h2 r'') =>
                  match hex_value h1, hex_value h2, parse_str_body q r'' with
                  | Some a, Some b, Some (t, rest) =>
                      Some (String (ascii_of_N (16 * a + b)) t, rest)
                  | _, _, _ => None
                  end
              | _ => None
              end
            else None
        end
      else if is_printable c then
        match parse_str_body q r with
        | Some (t, rest) => Some (String c t, rest)
        | None => None
        end
      else None
  end.

(** A string literal; a text opening with three quotes is not in the
    grammar. *)
Definition parse_str (q : ascii) (s : string) : option (string * string) :=
  match s with
  | String c1 (String c2 r) =>
      if Ascii.eqb c1 q && Ascii.eqb c2 q then None else parse_str_body q s
  | _ => parse_str_body q s
  end.

(** The parser proper.  Each function returns what it read and the rest of
    the text; [None] means the text is not in the modelled grammar.
    [parse_items] reads comma-separated expressions up to [closer] (a comma
    may precede the closer) and reports whether it met a comma;
    [parse_pairs] does the same for [key: value] pairs up to the closing
    brace.  Both expect leading spaces to be skipped already. *)
Fixpoint parse_expr (fuel : nat) (s : string) : option (expr * string) :=
  match fuel with
  | O => None
  | S f =>
      match s with
      | EmptyString => None
      | String c r =>
          if Ascii.eqb c "[" then
            match parse_items f "]" (skip_spaces r) with
            | Some (es, _, rest) => Some (EList es, rest)
            | None => None
            end
          else if Ascii.eqb c "(" then
            match parse_items f ")" (skip_spaces r) with
            | Some ([e], false, rest) => Some (e, rest)
            | Some (es, _, rest) => Some (ETuple es, rest)
            | None => None
            end
          else if Ascii.eqb c "{" then
            let s' := skip_spaces r in
            if startswith "}" s' then Some (EDict [], drop_first s')
            else
              match parse_expr f s' with
              | Some (_, s1) =>
                  if startswith ":" (skip_spaces s1) then
                    match parse_pairs f s' with
                    | Some (kvs, rest) => Some (EDict kvs, rest)
                    | None => None
                    end
                  else
                    match parse_items f "}" s' with
                    | Some (es, _, rest) => Some (ESet es, rest)
                    | None => None
                    end
              | None => None
              end
          else if Ascii.eqb c squote || Ascii.eqb c dquote then
            match parse_str c r with
            | Some (t, rest) => Some (EStr t, rest)
            | None => None
            end
          else if Ascii.eqb c "-" then
            let '(ds, rest) := scan is_digit r in
            match int_literal ds with
            | Some n => Some (EInt (- Z.of_N n), rest)
            | None => None
            end
          else if is_digit c then
            let '(ds, rest) := scan is_digit s in
            match int_literal ds with
            | Some n => Some (EInt (Z.of_N n), rest)
            | None => None
            end
          else
            let '(name, rest) := scan is_ident_char s in
            if String.eqb name "None" then Some (ENone, rest)
            else if String.eqb name "True" then Some (EBool true, rest)
            else if String.eqb name "False" then Some (EBool false, rest)
            else if String.eqb name "line" then Some (ELine, rest)
            else if String.eqb name "set" then
              match rest with
              | String "(" (String ")" rest') => Some (ESet [], rest')
              | _ => None
              end
            else if String.eqb name "print" then
              match rest with
              | String "(" r' =>
                  match parse_items f ")" (skip_spaces r') with
                  | Some (es, _, rest') => Some (EPrint es, rest')
                  | None => None
                  end
              | _ => None
              end
            else None
      end
  end
with parse_items (fuel : nat) (closer : ascii) (s : string)
  : option (list expr * bool * string) :=
  match fuel with
  | O => None
  | S f =>
      match s with
      | EmptyString => None
      | String c r =>
          if Ascii.eqb c closer then Some ([], false, r)
          else
            match parse_expr f s with
            | Some (e, s1) =>
                match skip_spaces s1 with
                | String d r1 =>
                    if Ascii.eqb d closer then Some ([e], false, r1)
                    else if Ascii.eqb d "," then
                      match parse_items f closer (skip_spaces r1) with
                      | Some (es, _, rest) => Some (e :: es, true, rest)
                      | None => None
                      end
                    else None
                | EmptyString => None
                end
            | None => None
            end
      end
  end
with parse_pairs (fuel : nat) (s : string) : option (list (expr * expr) * string) :=
  match fuel with
  | O => None
  | S f =>
      match s with
      | EmptyString => None
      | String c r =>
          if Ascii.eqb c "}" then Some ([], r)
          else
            match parse_expr f s with
            | Some (k, s1) =>
                match skip_spaces s1 with
                | String ":" r1 =>
                    match parse_expr f (skip_spaces r1) with
                    | Some (x, s2) =>
                        match skip_spaces s2 with
                        | String d r2 =>
                            if Ascii.eqb d "}" then Some ([(k, x)], r2)
                            else if Ascii.eqb d "," then
                              match parse_pairs f (skip_spaces r2) with
                              | Some (kvs, rest) => Some ((k, x) :: kvs, rest)
                              | None => None
                              end
                            else None
                        | EmptyString => None
                        end
                    | None => None
                    end
                | _ => None
                end
            | None => None
            end
      end
  end.

(** What may follow the expression: spaces, then at most one newline. *)
Definition trailing_ok (s : string) : bool :=
  match skip_spaces s with
  | EmptyString => true
  | String c EmptyString => Ascii.eqb c newline
  | _ => false
  end.

Definition parse_fuel (s : string) : nat := 2 * String.length s + 2.

Definition parse_top (s : string) : option expr :=
  match parse_expr (parse_fuel s) s with
  | Some (e, rest) => if trailing_ok rest then Some e else None
  | None => None
  end.

(** *** Evaluation *)

Section evaluation.
Variable rt : runtime.
  (** the value of the local name [line] *)
Variable line : string.

  (** Items are evaluated left to right; a display is built once all its
      items are evaluated. *)
Fixpoint eval_expr (e : expr) (w : world) : result value * world :=
    match e with
    | ENone => (Ok VNone, w)
    | EBool b => (Ok (VBool b), w)
    | EInt z => (Ok (VInt z), w)
    | EStr s => (Ok (VStr s), w)
    | ELine => (Ok (VStr line), w)
    | EList l =>
        match (fix items (l : list expr) (w : world) : result (list value) * world :=
                 match l with
                 | [] => (Ok [], w)
                 | x :: r =>
                     match eval_expr x w with
                     | (Ok v, w1) =>
                         match items r w1 with
                         | (Ok vs, w2) => (Ok (v :: vs), w2)
                         | (Raise err, w2) => (Raise err, w2)
                         end
                     | (Raise err, w1) => (Raise err, w1)
                     end
                 end) l w with
        | (Ok vs, w') => (Ok (VList vs), w')
        | (Raise err, w') => (Raise err, w')
        end
    | ETuple l =>
        match (fix items (l : list expr) (w : world) : result (list value) * world :=
                 match l with
                 | [] => (Ok [], w)
                 | x :: r =>
                     match eval_expr x w with
                     | (Ok v, w1) =>
                         match items r w1 with
                         | (Ok vs, w2) => (Ok (v :: vs), w2)
                         | (Raise err, w2) => (Raise err, w2)
                         end
                     | (Raise err, w1) => (Raise err, w1)
                     end
                 end) l w with
        | (Ok vs, w') => (Ok (VTuple vs), w')
        | (Raise err, w') => (Raise err, w')
        end
    | ESet l =>
        match (fix items (l : list expr) (w : world) : result (list value) * world :=
                 match l with
                 | [] => (Ok [], w)
                 | x :: r =>
                     match eval_expr x w with
                     | (Ok v, w1) =>
                         match items r w1 with
                         | (Ok vs, w2) => (Ok (v :: vs), w2)
                         | (Raise err, w2) => (Raise err, w2)
                         end
                     | (Raise err, w1) => (Raise err, w1)
                     end
                 end) l w with
        | (Ok vs, w') => (build_set rt vs, w')
        | (Raise err, w') => (Raise err, w')
        end
    | EDict kvs =>
        match (fix items (l : list (expr * expr)) (w : world)
                 : result (list (value * value)) * world :=
                 match l with
                 | [] => (Ok [], w)
                 | (k, x) :: r =>
                     match eval_expr k w with
                     | (Ok vk, w1) =>
                         match eval_expr x w1 with
                         | (Ok vx, w2) =>
                             match items r w2 with
                             | (Ok vs, w3) => (Ok ((vk, vx) :: vs), w3)
                             | (Raise err, w3) => (Raise err, w3)
                             end
                         | (Raise err, w2) => (Raise err, w2)
                         end
                     | (Raise err, w1) => (Raise err, w1)
                     end
                 end) kvs w with
        | (Ok vs, w') => (build_dict rt vs, w')
        | (Raise err, w') => (Raise err, w')
        end
    | EPrint args =>
        match (fix items (l : list expr) (w : world) : result (list value) * world :=
                 match l with
                 | [] => (Ok [], w)
                 | x :: r =>
                     match eval_expr x w with
                     | (Ok v, w1) =>
                         match items r w1 with
                         | (Ok vs, w2) => (Ok (v :: vs), w2)
                         | (Raise err, w2) => (Raise err, w2)
                         end
                     | (Raise err, w1) => (Raise err, w1)
                     end
                 end) args w with
        | (Ok vs, w') =>
            match mapM py_str vs with
            | Ok texts => (Ok VNone, emit (Printed (join " " texts ++ str1 newline)) w')
            | Raise err => (Raise err, w')
            end
        | (Raise err, w') => (Raise err, w')
        end
    end.

  (** [eval(line)] as [decode] calls it. *)
Definition py_eval (w : world) : result value * world :=
    match parse_top line with
    | Some e => eval_expr e w
    | None => rt_eval_other rt line w
    end.
End evaluation.

(* ------------------------------------------------------------------ *)
(** ** UTF-8 *)

(** [text.encode()] *)
Fixpoint utf8_encode (s : string) : string :=
  match s with
  | EmptyString => EmptyString
  | String c r =>
      let n := N_of_ascii c in
      if (n <? 128)%N then String c (utf8_encode r)
      else String (ascii_of_N (192 + n / 64))
             (String (ascii_of_N (128 + n mod 64)) (utf8_encode r))
  end.

(** [data.decode()].  The text domain stops at code point 255, so the only
    two-octet sequences with a counterpart in it are those led by 0xC2 and
    0xC3; a well-formed encoding of a higher code point has none, and the
    model classes it with the malformed sequences. *)
Fixpoint utf8_decode_chars (b : string) : option string :=
  match b with
  | EmptyString => Some EmptyString
  | String c r =>
      let n := N_of_ascii c in
      if (n <? 128)%N then
        match utf8_decode_chars r with
        | Some t => Some (String c t)
        | None => None
        end
      else if ((n =? 194) || (n =? 195))%N then
        match r with
        | String d r' =>
            let m := N_of_ascii d in
            if ((128 <=? m) && (m <? 192))%N then
              match utf8_decode_chars r' with
              | Some t => Some (String (ascii_of_N ((n - 192) * 64 + (m - 128))) t)
              | None => None
              end
            else None
        | EmptyString => None
        end
      else None
  end.

Definition utf8_decode (rt : runtime) (b : string) : result string :=
  match utf8_decode_chars b with
  | Some t => Ok t
  | None => interp_raise rt (ErrUtf8 b)
  end.

(* ------------------------------------------------------------------ *)
(** ** The codec: class [MyPyon] *)

(** What [decode] may be handed: a [str] or a [bytes] object. *)
Inductive pyline : Type :=
| StrLine (s : string)
| BytesLine (b : string).

Module MyPyon.

Definition encode (obj : value) : result string := repr obj.

  (** The first [try] leaves [obj = line]: a [str] has no [decode] method
      (AttributeError, caught).  On a [bytes] object the [startswith] test
      with a [str] prefix raises TypeError outside any [try]. *)
Definition decode (rt : runtime) (line : pyline) (w : world) : result value * world :=
    match line with
    | BytesLine _ => (interp_raise rt ErrBytesPrefix, w)
    | StrLine s =>
        let obj := VStr s in
        if startswith "{" s || startswith "[" s then
          match py_eval rt s w with
          | (Ok v, w') => (Ok v, w')
          | (Raise err, w') =>
              if is_Exception (exn_cls err) then (Ok obj, w') else (Raise err, w')
          end
        else (Ok obj, w)
    end.

End MyPyon.

(* ------------------------------------------------------------------ *)
(** ** Targets: objects, their members and their methods *)

(** [inspect.getfullargspec(f)] *)
Record fullargspec : Type := FullArgSpec {
  fa_args : list string;
  fa_varargs : option string;
  fa_varkw : option string;
  fa_defaults : option (list value);
  fa_kwonlyargs : list string;
  fa_kwonlydefaults : option (list (string * value));
  fa_annotations : list (string * value)
}.

(** A callable: its signature, its documentation ([inspect.getdoc]) and
    what a call with positional and keyword arguments does. *)
Record pyfunction : Type := PyFunction {
  fn_spec : fullargspec;
  fn_doc : option string;
  fn_call : list value -> list (string * value) -> world -> result value * world
}.

(** A member of an object: a bound method (the members [inspect.ismethod]
    selects), any other callable, or a plain datum. *)
Inductive attr : Type :=
| AMethod (f : pyfunction)
| ACallable (f : pyfunction)
| AData (v : value).

(** An object: its class name, its documentation and the attributes
    [getattr] finds on it. *)
Record pyobject : Type := PyObject {
  o_class : string;
  o_doc : option string;
  o_attrs : gmap string attr
}.

(** A registry entry: an instance, or a callable that makes one. *)
Inductive entry : Type :=
| Instance (o : pyobject)
| Factory (make : world -> result pyobject * world).

Definition opt_str (o : option string) : value :=
  match o with
  | Some s => VStr s
  | None => VNone
  end.

Definition is_method (a : attr) : bool :=
  match a with
  | AMethod _ => true
  | _ => false
  end.

Definition by_name (a b : string * attr) : Prop := String.le (fst a) (fst b).

#[global] Instance by_name_dec : RelDecision by_name.
Proof. intros a b. unfold by_name. apply _. Defined.

(** [inspect.getmembers(target, inspect.ismethod)]: the members that are
    bound methods, sorted by name. *)
Definition getmembers_ismethod (target : pyobject) : list (string * attr) :=
  merge_sort by_name (filter (fun p => is_method (snd p) = true) (map_to_list (o_attrs target))).

(** [getattr(target, name)] *)
Definition getattr (rt : runtime) (target : pyobject) (name : value) : result attr :=
  match name with
  | VStr n =>
      match o_attrs target !! n with
      | Some a => Ok a
      | None => interp_raise rt (ErrNoAttribute (o_class target) n)
      end
  | _ => interp_raise rt (ErrAttrName name)
  end.

(** [obj[key]] for a text key. *)
Definition subscript (rt : runtime) (obj : value) (key : string) : result value :=
  match obj with
  | VDict kvs =>
      match dict_lookup kvs (VStr key) with
      | Some v => Ok v
      | None => Raise (Exn KeyError (repr_str key))
      end
  | _ => interp_raise rt (ErrSubscript obj (VStr key))
  end.

(** The items [*v] spreads as positional arguments. *)
Definition star_args (rt : runtime) (v : value) : result (list value) :=
  match v with
  | VList l | VTuple l | VSet l => Ok l
  | VDict kvs => Ok (map fst kvs)
  | VStr s => Ok (map (fun c => VStr (str1 c)) (list_ascii_of_string s))
  | _ => interp_raise rt (ErrStarArgs v)
  end.

Definition kw_item (kv : value * value) : option (string * value) :=
  match fst kv with
  | VStr k => Some (k, snd kv)
  | _ => None
  end.

(** The keyword arguments [**v] spreads: [v] is a mapping with text keys. *)
Definition star_star_args (rt : runtime) (v : value) : result (list (string * value)) :=
  match v with
  | VDict kvs =>
      match mapM kw_item kvs with
      | Some kws => Ok kws
      | None => interp_raise rt (ErrStarStarArgs v)
      end
  | _ => interp_raise rt (ErrStarStarArgs v)
  end.

(** Calling an attribute. *)
Definition call_attr (rt : runtime) (name : value) (a : attr)
    (args : list value) (kwargs : list (string * value)) (w : world)
  : result value * world :=
  match a with
  | AMethod f | ACallable f => fn_call f args kwargs w
  | AData _ => (interp_raise rt (ErrNotCallable name), w)
  end.

(* ------------------------------------------------------------------ *)
(** ** The connection: reader and writer *)

(** What the next [readline] on the connection gives: the bytes of a line
    (empty at end of stream) or a transport error.  Past the end of the
    script the stream is at its end. *)
Inductive read_event : Type :=
| RLine (data : string)
| RError (err : exn).

(** The writing side: the chunks written so far, the outcome of the writes
    to come ([Some err]: that write raises [err]; past the end of the
    script every write succeeds) and whether it is closed. *)
Record writer : Type := Writer {
  wr_sent : list string;
  wr_script : list (option exn);
  wr_closed : bool
}.

Definition readline (ins : list read_event) : result string * list read_event :=
  match ins with
  | [] => (Ok EmptyString, [])
  | RLine data :: rest => (Ok data, rest)
  | RError err :: rest => (Raise err, rest)
  end.

Definition write (data : string) (wr : writer) : result unit * writer :=
  match wr_script wr with
  | Some err :: script => (Raise err, Writer (wr_sent wr) script (wr_closed wr))
  | None :: script => (Ok tt, Writer (wr_sent wr ++ [data]) script (wr_closed wr))
  | [] => (Ok tt, Writer (wr_sent wr ++ [data]) [] (wr_closed wr))
  end.

Definition close (wr : writer) : writer :=
  Writer (wr_sent wr) (wr_script wr) true.

(** The server object a handler reads: its registry and description. *)
Record server : Type := Server {
  targets : gmap string entry;
  description : value
}.

(** Where a run of the handler leaves the connection and the process. *)
Record session : Type := Session {
  s_in : list read_event;
  s_out : writer;
  s_world : world
}.

Definition VERBOSE_DEBUG : bool := true.

Definition debug (ev : out_event) (w : world) : world :=
  if VERBOSE_DEBUG then emit ev w else w.

(* ------------------------------------------------------------------ *)
(** ** The dispatcher, the envelope and [handle]: class [NanoNDSPHandler] *)

Definition value_is_str (v : value) (s : string) : bool :=
  match v with
  | VStr t => String.eqb t s
  | _ => false
  end.

Module NanoNDSPHandler.

Definition _init_string : string := "ARTIQ pc_rpc" ++ str1 newline.

  (** [dict(inspect.getfullargspec(function)._asdict())] *)
Definition argspec_dict (fa : fullargspec) : list (value * value) :=
    [ (VStr "args", VList (map VStr (fa_args fa)));
      (VStr "varargs", opt_str (fa_varargs fa));
      (VStr "varkw", opt_str (fa_varkw fa));
      (VStr "defaults", from_option VTuple VNone (fa_defaults fa));
      (VStr "kwonlyargs", VList (map VStr (fa_kwonlyargs fa)));
      (VStr "kwonlydefaults",
        from_option (fun d => VDict (map (fun p => (VStr (fst p), snd p)) d)) VNone
          (fa_kwonlydefaults fa));
      (VStr "annotations",
        VDict (map (fun p => (VStr (fst p), snd p)) (fa_annotations fa))) ].

  (** [any(d)] over a dict with text keys: some key is a non-empty text. *)
Definition any_key (kvs : list (value * value)) : bool :=
    existsb (fun kv => match fst kv with VStr EmptyString => false | _ => true end) kvs.

Definition _document_function (rt : runtime) (function : attr) : result value :=
    match function with
    | AData _ => interp_raise rt ErrUnsupportedCallable
    | AMethod f | ACallable f =>
        let d := argspec_dict (fn_spec f) in
        match from_option id (VDict []) (dict_lookup d (VStr "annotations")) with
        | VDict ann =>
            if any_key ann then
              match py_str (VDict ann) with
              | Ok text =>
                  Ok (VTuple [VDict (dict_set d (VStr "annotations") (VStr text));
                              opt_str (fn_doc f)])
              | Raise err => Raise err
              end
            else Ok (VTuple [VDict d; opt_str (fn_doc f)])
        | _ => Ok (VTuple [VDict d; opt_str (fn_doc f)])
        end
    end.

  (** The loop of the [get_rpc_method_list] branch over the members. *)
Fixpoint document_members (rt : runtime) (target : pyobject)
      (members : list (string * attr)) (methods : list (value * value))
    : result (list (value * value)) :=
    match members with
    | [] => Ok methods
    | (name, _) :: rest =>
        if startswith "_" name then document_members rt target rest methods
        else
          match getattr rt target (VStr name) with
          | Ok method =>
              match _document_function rt method with
              | Ok descr =>
                  document_members rt target rest (dict_set methods (VStr name) descr)
              | Raise err => Raise err
              end
          | Raise err => Raise err
          end
    end.

  (** [_process_action(target, obj)].  In the [call] branch both subscripts
      are evaluated before the arguments are spread. *)
Definition _process_action (rt : runtime) (target : pyobject) (obj : value) (w : world)
    : result value * world :=
    match subscript rt obj "action" with
    | Raise err => (Raise err, w)
    | Ok action =>
        if value_is_str action "get_rpc_method_list" then
          let members := getmembers_ismethod target in
          match document_members rt target members [] with
          | Ok methods =>
              (Ok (VDict [(VStr "docstring", opt_str (o_doc target));
                          (VStr "methods", VDict methods)]), w)
          | Raise err => (Raise err, w)
          end
        else if value_is_str action "call" then
          match py_str obj with
          | Raise err => (Raise err, w)
          | Ok _ =>
              match subscript rt obj "name" with
              | Raise err => (Raise err, w)
              | Ok name =>
                  match getattr rt target name with
                  | Raise err => (Raise err, w)
                  | Ok method =>
                      match subscript rt obj "args", subscript rt obj "kwargs" with
                      | Raise err, _ => (Raise err, w)
                      | Ok _, Raise err => (Raise err, w)
                      | Ok a, Ok k =>
                          match star_star_args rt k, star_args rt a with
                          | Raise err, _ => (Raise err, w)
                          | Ok _, Raise err => (Raise err, w)
                          | Ok kwargs, Ok args => call_attr rt name method args kwargs w
                          end
                      end
                  end
              end
          end
        else
          match py_str action with
          | Ok text => (Raise (Exn ValueError ("Unknown action: " ++ text)), w)
          | Raise err => (Raise err, w)
          end
    end.

  (** [_process_and_pyonize(target, obj)]: the encoding of the Ok envelope
      sits inside the [try], so an Exception it raises is handled like one
      raised by the action. *)
Definition failed_envelope (err : exn) : value :=
    VDict [(VStr "status", VStr "failed"); (VStr "exception", VStr (exn_str err))].

Definition ok_envelope (ret : value) : value :=
    VDict [(VStr "status", VStr "ok"); (VStr "ret", ret)].

Definition on_exception (err : exn) (w : world) : result string * world :=
    if is_Exception (exn_cls err) then
      (MyPyon.encode (failed_envelope err), emit (ErrorReport err) w)
    else (Raise err, w).

Definition _process_and_pyonize (rt : runtime) (target : pyobject) (obj : value) (w : world)
    : result string * world :=
    match _process_action rt target obj w with
    | (Ok ret, w1) =>
        match MyPyon.encode (ok_envelope ret) with
        | Ok text => (Ok text, w1)
        | Raise err => on_exception err w1
        end
    | (Raise err, w1) => on_exception err w1
    end.

  (** The serving loop.  Each round takes the next [readline] from the
      script, so the loop is a recursion on what is left of it. *)
Fixpoint serve_loop (rt : runtime) (target : pyobject) (linecnt : nat)
      (ins : list read_event) (wr : writer) (w : world) : result unit * session :=
    match ins with
    | [] => (Ok tt, Session [] wr (debug (DebugReceived (S linecnt) EmptyString) w))
    | RError err :: rest => (Raise err, Session rest wr w)
    | RLine line :: rest =>
        let linecnt := S linecnt in
        let w := debug (DebugReceived linecnt line) w in
        match line with
        | EmptyString => (Ok tt, Session rest wr w)
        | _ =>
            match utf8_decode rt line with
            | Raise err => (Raise err, Session rest wr w)
            | Ok text =>
                match MyPyon.decode rt (StrLine text) w with
                | (Raise err, w) => (Raise err, Session rest wr w)
                | (Ok obj, w) =>
                    match _process_and_pyonize rt target obj w with
                    | (Raise err, w) => (Raise err, Session rest wr w)
                    | (Ok reply, w) =>
                        let w := debug (DebugSending reply) w in
                        match write (utf8_encode (reply ++ str1 newline)) wr with
                        | (Raise err, wr) => (Raise err, Session rest wr w)
                        | (Ok _, wr) => serve_loop rt target linecnt rest wr w
                        end
                    end
                end
            end
        end
    end.

  (** The catalog sent after the magic line. *)
Definition catalog (srv : server) : value :=
    VDict [(VStr "targets",
             VList (map VStr (merge_sort String.le (map fst (map_to_list (targets srv))))));
           (VStr "description", description srv)].

  (** The body of [handle]'s [try]. *)
Definition handle_body (rt : runtime) (srv : server)
      (ins : list read_event) (wr : writer) (w : world) : result unit * session :=
    match readline ins with
    | (Raise err, ins) => (Raise err, Session ins wr w)
    | (Ok line, ins) =>
        if negb (String.eqb line _init_string) then (Ok tt, Session ins wr w)
        else
          let w := debug (DebugReceived 1 line) w in
          match MyPyon.encode (catalog srv) with
          | Raise err => (Raise err, Session ins wr w)
          | Ok text =>
              match write (utf8_encode (text ++ str1 newline)) wr with
              | (Raise err, wr) => (Raise err, Session ins wr w)
              | (Ok _, wr) =>
                  match readline ins with
                  | (Raise err, ins) => (Raise err, Session ins wr w)
                  | (Ok EmptyString, ins) => (Ok tt, Session ins wr w)
                  | (Ok line, ins) =>
                      let w := debug (DebugReceived 2 line) w in
                      match utf8_decode rt line with
                      | Raise err => (Raise err, Session ins wr w)
                      | Ok text =>
                          let target_name := drop_last text in
                          match targets srv !! target_name with
                          | None => (Ok tt, Session ins wr w)
                          | Some e =>
                              match (match e with
                                     | Instance o => (Ok o, w)
                                     | Factory make => make w
                                     end) with
                              | (Raise err, w) => (Raise err, Session ins wr w)
                              | (Ok target, w) =>
                                  let valid_methods := getmembers_ismethod target in
                                  match
                                    names ← build_set rt (map (fun m => VStr (fst m)) valid_methods);
                                    MyPyon.encode names
                                  with
                                  | Raise err => (Raise err, Session ins wr w)
                                  | Ok text =>
                                      let msg := utf8_encode (text ++ str1 newline) in
                                      let w := debug (DebugSendingMsg msg) w in
                                      match write msg wr with
                                      | (Raise err, wr) => (Raise err, Session ins wr w)
                                      | (Ok _, wr) => serve_loop rt target 2 ins wr w
                                      end
                                  end
                              end
                          end
                      end
                  end
              end
          end
    end.

  (** [handle]: the transport errors are swallowed, every other exception
      leaves the handler, and the writer is closed in all cases. *)
Definition handle (rt : runtime) (srv : server)
      (ins : list read_event) (wr : writer) (w : world) : result unit * session :=
    let '(r, s) := handle_body rt srv ins wr w in
    let r' :=
      match r with
      | Raise err => if is_transport_error (exn_cls err) then Ok tt else Raise err
      | Ok _ => Ok tt
      end in
    (r', Session (s_in s) (close (s_out s)) (s_world s)).

End NanoNDSPHandler.

(* ------------------------------------------------------------------ *)
(** ** The example target of [example_main]: class [ExampleAdder] *)

(** Binding positional and keyword arguments to plain parameters (no
    defaults, no variadics): the positional ones fill the first
    parameters, every other parameter is given by keyword, and no keyword
    names anything else. *)
Definition bind_params (params : list string) (args : list value)
    (kwargs : list (string * value)) : option (list value) :=
  let named := drop (length args) params in
  if (length args <=? length params)%nat
     && forallb (fun kw => existsb (String.eqb (fst kw)) named) kwargs
  then
    match mapM (fun p => snd <$> List.find (fun kw => String.eqb (fst kw) p) kwargs) named with
    | Some vs => Some (args ++ vs)%list
    | None => None
    end
  else None.

(** [a + b] *)
Definition py_add (rt : runtime) (a b : value) : result value :=
  match as_int a, as_int b with
  | Some x, Some y => Ok (VInt (x + y))
  | _, _ =>
      match a, b with
      | VStr s, VStr t => Ok (VStr (s ++ t))
      | VList l, VList m => Ok (VList (l ++ m)%list)
      | VTuple l, VTuple m => Ok (VTuple (l ++ m)%list)
      | _, _ => interp_raise rt (ErrOperand "+" a b)
      end
  end.

Definition plain_spec (params : list string) : fullargspec :=
  FullArgSpec params None None None [] None [].

Module ExampleAdder.

(** [def __init__(self): print("ExampleAdder initialized")] *)
Definition __init__ (rt : runtime) : pyfunction :=
  PyFunction (plain_spec ["self"])
    (Some "Initialize self.  See help(type(self)) for accurate signature.")
    (fun args kwargs w =>
       match bind_params [] args kwargs with
       | Some _ => (Ok VNone, emit (Printed ("ExampleAdder initialized" ++ str1 newline)) w)
       | None => (interp_raise rt (ErrBinding "__init__"), w)
       end).

(** [def add(self, a, b): return a+b] *)
Definition add (rt : runtime) : pyfunction :=
  PyFunction (plain_spec ["self"; "a"; "b"])
    (Some "Add two numbers and return result")
    (fun args kwargs w =>
       match bind_params ["a"; "b"] args kwargs with
       | Some [a; b] => (py_add rt a b, w)
       | _ => (interp_raise rt (ErrBinding "add"), w)
       end).

(** [def print(self, msg): print(msg)] *)
Definition print (rt : runtime) : pyfunction :=
  PyFunction (plain_spec ["self"; "msg"])
    (Some "Print message")
    (fun args kwargs w =>
       match bind_params ["msg"] args kwargs with
       | Some [msg] =>
           match py_str msg with
           | Ok text => (Ok VNone, emit (Printed (text ++ str1 newline)) w)
           | Raise err => (Raise err, w)
           end
       | _ => (interp_raise rt (ErrBinding "print"), w)
       end).

(** An instance.  Only the members the class body defines are listed; the
    members every object inherits from [object] are left out. *)
Definition instance (rt : runtime) : pyobject :=
  PyObject "ExampleAdder" None
    (list_to_map [("__init__", AMethod (__init__ rt));
                  ("add", AMethod (add rt));
                  ("print", AMethod (print rt))]).

End ExampleAdder.

(* ------------------------------------------------------------------ *)
(** ** Fixtures: a runtime, an idle process, a fresh connection *)

(** A runtime to compute with: one wording for every interpreter error,
    sets iterating in insertion order, and SyntaxError for every text
    outside the modelled grammar. *)
Definition plain_runtime : runtime :=
  Runtime (fun _ => "interpreter error") (fun l => l) (fun l => Permutation_refl l)
    (fun _ w => (Raise (Exn SyntaxError "invalid syntax"), w)).

Definition idle_world : world := World [] VNone.

Definition fresh_writer : writer := Writer [] [] false.

(** The registry of the call scenario: one target, an [ExampleAdder]. *)
Definition adder_server (rt : runtime) : server :=
  Server {[ "adder" := Instance (ExampleAdder.instance rt) ]} (VStr EmptyString).

Definition quoted (s : string) : string := str1 dquote ++ s ++ str1 dquote.

(** The request [{"action":"call","name":"add","args":[4,9],"kwargs":{}}]
    as one line. *)
Definition add_request : string :=
  "{" ++ quoted "action" ++ ":" ++ quoted "call" ++ ","
      ++ quoted "name" ++ ":" ++ quoted "add" ++ ","
      ++ quoted "args" ++ ":[4,9],"
      ++ quoted "kwargs" ++ ":{}}" ++ str1 newline.

(** A target whose one method returns an object with a failing
    [__repr__]. *)
Definition unprintable : value :=
  VObj "handle" (Raise (Exn (OtherException "RuntimeError") "no repr")).

Definition opaque_target : pyobject :=
  PyObject "Device" None
    {[ "open" := AMethod (PyFunction (plain_spec ["self"]) None
                            (fun _ _ w => (Ok unprintable, w))) ]}.

(** A request [{'action': 'call', 'name': name, 'args': args, 'kwargs': {}}]. *)
Definition call_request (name : string) (args : list value) : value :=
  VDict [(VStr "action", VStr "call"); (VStr "name", VStr name);
         (VStr "args", VList args); (VStr "kwargs", VDict [])].

(** A line that is not UTF-8: the octet 0xFF, then a newline. *)
Definition bad_utf8_line : string := String (ascii_of_N 255) (str1 newline).

(** ** The envelope the specification describes *)

(** The envelope for a dispatcher outcome: Ok around a result, Failed
    around the text of an error. *)
Definition envelope_of (r : result value) : value :=
  match r with
  | Ok ret => NanoNDSPHandler.ok_envelope ret
  | Raise err => NanoNDSPHandler.failed_envelope err
  end.

(** The outcomes the envelope layer reports as such: a result the codec
    encodes, or an error of class [Exception]. *)
Definition reportable (r : result value) : bool :=
  match r with
  | Ok ret => match MyPyon.encode ret with Ok _ => true | Raise _ => false end
  | Raise err => is_Exception (exn_cls err)
  end.

(** ** The literal domain *)

(** No element is equal, as a key, to one before it. *)
Fixpoint distinct_keys (l : list value) : bool :=
  match l with
  | [] => true
  | x :: r => forallb (fun y => negb (key_eq y x)) r && distinct_keys r
  end.

(** [repr] of the items of a sequence, as the local loops of [repr]
    compute it: left to right, up to the first error. *)
Fixpoint repr_all (l : list value) : result (list string) :=
  match l with
  | [] => Ok []
  | x :: r =>
      match repr x with
      | Ok s => match repr_all r with Ok ss => Ok (s :: ss) | Raise e => Raise e end
      | Raise e => Raise e
      end
  end.

Fixpoint repr_pairs (l : list (value * value)) : result (list string) :=
  match l with
  | [] => Ok []
  | (k, x) :: r =>
      match repr k with
      | Ok sk =>
          match repr x with
          | Ok sx =>
              match repr_pairs r with
              | Ok ss => Ok ((sk ++ ": " ++ sx) :: ss)
              | Raise e => Raise e
              end
          | Raise e => Raise e
          end
      | Raise e => Raise e
      end
  end.

(** The values of the literal domain: built from [None], booleans,
    integers and texts with lists, tuples, sets and dicts, where the
    elements of a set and the keys of a dict are hashable and pairwise
    different.  (Any set or dict the interpreter builds is of this kind.) *)
Fixpoint in_domain (v : value) : bool :=
  match v with
  | VNone | VBool _ | VInt _ | VStr _ => true
  | VList l | VTuple l => forallb in_domain l
  | VSet l => forallb in_domain l && forallb hashable l && distinct_keys l
  | VDict kvs =>
      (fix go (kvs : list (value * value)) : bool :=
         match kvs with
         | [] => true
         | (k, x) :: r => in_domain k && in_domain x && go r
         end) kvs
      && forallb hashable (map fst kvs) && distinct_keys (map fst kvs)
  | VObj _ _ => false
  end.

(** The values whose encoding opens with a bracket or a brace. *)
Definition bracketed (v : value) : bool :=
  match v with
  | VList _ | VDict _ | VSet (_ :: _) => true
  | _ => false
  end.

(** The expression a value's encoding reads as. *)
Fixpoint expr_of (v : value) : expr :=
  match v with
  | VNone => ENone
  | VBool b => EBool b
  | VInt z => EInt z
  | VStr s => EStr s
  | VList l => EList (map expr_of l)
  | VTuple l => ETuple (map expr_of l)
  | VSet l => ESet (map expr_of l)
  | VDict kvs =>
      EDict ((fix go (kvs : list (value * value)) : list (expr * expr) :=
                match kvs with
                | [] => []
                | (k, x) :: r => (expr_of k, expr_of x) :: go r
                end) kvs)
  | VObj _ _ => ENone
  end.

(** Observable equivalence of two values: the same structure and the same
    scalars, lists, tuples and dicts item by item in order, sets up to the
    order in which they iterate. *)
Inductive value_equiv : value -> value -> Prop :=
| ve_none : value_equiv VNone VNone
| ve_bool (b : bool) : value_equiv (VBool b) (VBool b)
| ve_int (z : Z) : value_equiv (VInt z) (VInt z)
| ve_str (s : string) : value_equiv (VStr s) (VStr s)
| ve_list (l l' : list value) :
    Forall2 value_equiv l l' -> value_equiv (VList l) (VList l')
| ve_tuple (l l' : list value) :
    Forall2 value_equiv l l' -> value_equiv (VTuple l) (VTuple l')
| ve_set (l m l' : list value) :
    l ≡ₚ m -> Forall2 value_equiv m l' -> value_equiv (VSet l) (VSet l')
| ve_dict (kvs kvs' : list (value * value)) :
    Forall2 (fun a b => value_equiv (fst a) (fst b) /\ value_equiv (snd a) (snd b))
      kvs kvs' ->
    value_equiv (VDict kvs) (VDict kvs').

(** ** Reading an encoding back *)

(** Every character of a text satisfies [p]. *)
Fixpoint all_chars (p : ascii -> bool) (s : string) : bool :=
  match s with
  | EmptyString => true
  | String c r => p c && all_chars p r
  end.

(** The first character of a text, if any, satisfies [p]. *)
Definition head_is (p : ascii -> bool) (s : string) : bool :=
  match s with
  | EmptyString => false
  | String c _ => p c
  end.

Definition is_quote (c : ascii) : bool := Ascii.eqb c squote || Ascii.eqb c dquote.

(** What may follow an expression inside a display: nothing, a comma, a
    colon or a closing bracket. *)
Definition delim_start (s : string) : bool :=
  match s with
  | EmptyString => true
  | String c _ =>
      Ascii.eqb c "," || Ascii.eqb c ":" || Ascii.eqb c "]" || Ascii.eqb c ")"
      || Ascii.eqb c "}"
  end.

Definition is_closer (c : ascii) : bool :=
  Ascii.eqb c "]" || Ascii.eqb c ")" || Ascii.eqb c "}".

(** The characters an encoding never opens with. *)
Definition not_opening (c : ascii) : bool :=
  Ascii.eqb c " " || is_closer c.

(** The parser reads the encoding of [v] back as [expr_of v], whatever
    delimiter follows, given fuel for twice its length. *)
Definition reads_back (v : value) : Prop :=
  forall t,
    in_domain v = true ->
    repr v = Ok t ->
    forall fuel rest,
      (2 * String.length t <= fuel)%nat ->
      delim_start rest = true ->
      parse_expr fuel (t ++ rest) = Some (expr_of v, rest).
(** ** Evaluating the items of a display *)

(** The items of a display, evaluated left to right up to the first error,
    as the local loops of [eval_expr] do. *)
Fixpoint eval_all (rt : runtime) (line : string) (l : list expr) (w : world)
  : result (list value) * world :=
  match l with
  | [] => (Ok [], w)
  | x :: r =>
      match eval_expr rt line x w with
      | (Ok v, w1) =>
          match eval_all rt line r w1 with
          | (Ok vs, w2) => (Ok (v :: vs), w2)
          | (Raise err, w2) => (Raise err, w2)
          end
      | (Raise err, w1) => (Raise err, w1)
      end
  end.

Fixpoint eval_pairs (rt : runtime) (line : string) (l : list (expr * expr)) (w : world)
  : result (list (value * value)) * world :=
  match l with
  | [] => (Ok [], w)
  | (k, x) :: r =>
      match eval_expr rt line k w with
      | (Ok vk, w1) =>
          match eval_expr rt line x w1 with
          | (Ok vx, w2) =>
              match eval_pairs rt line r w2 with
              | (Ok vs, w3) => (Ok ((vk, vx) :: vs), w3)
              | (Raise err, w3) => (Raise err, w3)
              end
          | (Raise err, w2) => (Raise err, w2)
          end
      | (Raise err, w1) => (Raise err, w1)
      end
  end.

(** The literal expressions: no name, no call. *)
Fixpoint is_literal (e : expr) : bool :=
  match e with
  | ENone | EBool _ | EInt _ | EStr _ => true
  | ELine | EPrint _ => false
  | EList l | ETuple l | ESet l => forallb is_literal l
  | EDict kvs =>
      (fix go (kvs : list (expr * expr)) : bool :=
         match kvs with
         | [] => true
         | (k, x) :: r => is_literal k && is_literal x && go r
         end) kvs
  end.

Definition begins_structured (s : string) : bool :=
  startswith "{" s || startswith "[" s.

Section expr_induction.
Variable P : expr -> Prop.
Hypothesis HENone : P ENone.
Hypothesis HEBool : forall b, P (EBool b).
Hypothesis HEInt : forall z, P (EInt z).
Hypothesis HEStr : forall s, P (EStr s).
Hypothesis HELine : P ELine.
Hypothesis HEList : forall l, Forall P l -> P (EList l).
Hypothesis HETuple : forall l, Forall P l -> P (ETuple l).
Hypothesis HESet : forall l, Forall P l -> P (ESet l).
Hypothesis HEDict : forall kvs,
  Forall (fun kv => P (fst kv) /\ P (snd kv)) kvs -> P (EDict kvs).
Hypothesis HEPrint : forall l, Forall P l -> P (EPrint l).

Fixpoint expr_nested_ind (e : expr) : P e :=
  let fix go (l : list expr) : Forall P l :=
    match l with
    | [] => @List.Forall_nil _ P
    | x :: r => @List.Forall_cons _ P x r (expr_nested_ind x) (go r)
    end in
  match e with
  | ENone => HENone
  | EBool b => HEBool b
  | EInt z => HEInt z
  | EStr s => HEStr s
  | ELine => HELine
  | EList l => HEList l (go l)
  | ETuple l => HETuple l (go l)
  | ESet l => HESet l (go l)
  | EDict kvs =>
      HEDict kvs
        ((fix gop (l : list (expr * expr))
            : Forall (fun kv => P (fst kv) /\ P (snd kv)) l :=
            match l with
            | [] => @List.Forall_nil _ _
            | (k, x) :: r =>
                @List.Forall_cons _ _ (k, x) r
                  (conj (expr_nested_ind k) (expr_nested_ind x)) (gop r)
            end) kvs)
  | EPrint l => HEPrint l (go l)
  end.
End expr_induction.

(** The lines on which [decode] evaluates nothing, or a literal only. *)
Definition effect_free_line (s : string) : Prop :=
  begins_structured s = false
  \/ exists e, parse_top s = Some e /\ is_literal e = true.

(** A nested value of the literal domain. *)
Definition sample_value : value :=
  VDict [(VStr "a", VList [VInt (-12); VNone; VTuple [VBool true]]);
         (VInt 0, VSet [VStr "it's"; VStr (String newline "x")])].

(** ** More fixtures *)

(** A registry whose entry is the class itself: selecting it constructs an
    [ExampleAdder], whose [__init__] prints. *)
Definition class_server (rt : runtime) : server :=
  Server {[ "adder" := Factory (fun w =>
              (Ok (ExampleAdder.instance rt),
               emit (Printed ("ExampleAdder initialized" ++ str1 newline)) w)) ]}
         (VStr EmptyString).

(** The last octet of a chunk is a newline. *)
Fixpoint ends_with_newline (s : string) : bool :=
  match s with
  | EmptyString => false
  | String c EmptyString => Ascii.eqb c newline
  | String _ r => ends_with_newline r
  end.

(** What a run leaves: the writer as open or closed as it was, holding
    what it held followed by newline-terminated chunks, at most one for
    each line read. *)
Definition run_keeps (ins : list read_event) (wr : writer) (s : session) : Prop :=
  wr_closed (s_out s) = wr_closed wr
  /\ exists consumed new,
       ins = (consumed ++ s_in s)%list
       /\ wr_sent (s_out s) = (wr_sent wr ++ new)%list
       /\ Forall (fun chunk => ends_with_newline chunk = true) new
       /\ (List.length new <= List.length consumed)%nat.


(** A line the codec hands on as text: not empty, and opening with neither
    a brace nor a bracket. *)
Definition raw_text (t : string) : bool :=
  match t with
  | EmptyString => false
  | _ => negb (begins_structured t)
  end.

(** The reply to a request that is a text: the Failed envelope of the
    TypeError its subscript raises. *)
Definition text_refusal (rt : runtime) (t : string) : string :=
  "{'status': 'failed', 'exception': "
  ++ repr_str (rt_message rt (ErrSubscript (VStr t) (VStr "action"))) ++ "}".

(** A text without a newline character. *)
Definition one_line (s : string) : bool := negb (str_contains newline s).

(** The request [add(a, b)] as the codec encodes it. *)
Definition add_call_text (a b : Z) : string :=
  "{'action': 'call', 'name': 'add', 'args': ["
  ++ repr_Z a ++ ", " ++ repr_Z b ++ "], 'kwargs': {}}".

(** The encoding of the Ok envelope around a result whose encoding is
    [text]. *)
Definition ok_reply (text : string) : string :=
  "{'status': 'ok', 'ret': " ++ text ++ "}".

(* ================================================================== *)
(** * Properties *)

(* ------------------------------------------------------------------ *)
(** ** The handshake *)

Lemma close_keeps_sent (wr : writer) : wr_sent (close wr) = wr_sent wr.
Proof. reflexivity. Qed.

(** C3.  When the first line read on a connection is anything but the
    magic bytes, [handle] returns having written nothing: the writer holds
    the chunks it held before, and is closed.  The same holds when the
    stream ends before any line. *)
Theorem C3_bad_magic_writes_nothing
    (rt : runtime) (srv : server) (line : string) (rest : list read_event)
    (wr : writer) (w : world) :
  line <> NanoNDSPHandler._init_string ->
  NanoNDSPHandler.handle rt srv (RLine line :: rest) wr w
    = (Ok tt, Session rest (close wr) w)
  /\ NanoNDSPHandler.handle rt srv [] wr w = (Ok tt, Session [] (close wr) w)
  /\ wr_sent (close wr) = wr_sent wr
  /\ wr_closed (close wr) = true.
Proof.
  intros Hline.
  apply String.eqb_neq in Hline.
  unfold NanoNDSPHandler.handle, NanoNDSPHandler.handle_body, readline.
  rewrite Hline. simpl. repeat split; reflexivity.
Qed.

Lemma C3_bad_magic_witness :
  NanoNDSPHandler.handle plain_runtime (adder_server plain_runtime)
    [RLine ("ARTIQ pc_rpc"); RLine ("adder" ++ str1 newline)] fresh_writer idle_world
  = (Ok tt, Session [RLine ("adder" ++ str1 newline)] (close fresh_writer) idle_world).
Proof.
  apply (C3_bad_magic_writes_nothing plain_runtime (adder_server plain_runtime)
           "ARTIQ pc_rpc" [RLine ("adder" ++ str1 newline)] fresh_writer idle_world).
  vm_compute. discriminate.
Defined.

Lemma write_ok_sent (data : string) (wr wr' : writer) :
  write data wr = (Ok tt, wr') ->
  wr_sent wr' = (wr_sent wr ++ [data])%list /\ wr_closed wr' = wr_closed wr.
Proof.
  unfold write. destruct (wr_script wr) as [|[err|] script]; intros H;
    inversion H; subst; simpl; auto.
Qed.



(* ------------------------------------------------------------------ *)
(** ** The envelope layer *)

Lemma encode_ok_envelope (ret : value) :
  MyPyon.encode (NanoNDSPHandler.ok_envelope ret)
  = match MyPyon.encode ret with
    | Ok text => Ok ("{'status': 'ok', 'ret': " ++ text ++ "}")
    | Raise err => Raise err
    end.
Proof.
  unfold MyPyon.encode, NanoNDSPHandler.ok_envelope. cbn.
  destruct (repr ret); reflexivity.
Qed.

Lemma encode_failed_envelope (err : exn) :
  MyPyon.encode (NanoNDSPHandler.failed_envelope err)
  = Ok ("{'status': 'failed', 'exception': " ++ repr_str (exn_str err) ++ "}").
Proof. reflexivity. Qed.

(** The envelope for a reportable outcome always has an encoding. *)
Lemma reportable_envelope_encodes (r : result value) :
  reportable r = true -> exists reply, MyPyon.encode (envelope_of r) = Ok reply.
Proof.
  destruct r as [ret|err]; unfold envelope_of, reportable; intros H.
  - rewrite encode_ok_envelope. destruct (MyPyon.encode ret); [eauto|discriminate].
  - rewrite encode_failed_envelope. eauto.
Qed.

(** What [_process_and_pyonize] returns on a reportable outcome of the
    dispatcher: the encoded envelope, with the error reported on the
    standard output when there is one. *)
Lemma pyonize_reportable (rt : runtime) (target : pyobject) (obj : value)
    (w w1 : world) (r : result value) (reply : string) :
  NanoNDSPHandler._process_action rt target obj w = (r, w1) ->
  reportable r = true ->
  MyPyon.encode (envelope_of r) = Ok reply ->
  NanoNDSPHandler._process_and_pyonize rt target obj w
  = (Ok reply, match r with Ok _ => w1 | Raise err => emit (ErrorReport err) w1 end).
Proof.
  intros Hact Hrep Henc.
  unfold NanoNDSPHandler._process_and_pyonize. rewrite Hact.
  destruct r as [ret|err]; unfold envelope_of, reportable in *.
  - rewrite Henc. reflexivity.
  - unfold NanoNDSPHandler.on_exception. rewrite Hrep, <- Henc. reflexivity.
Qed.

(** C9 (as amended).  When the dispatcher returns a value whose encoding
    raises, the error is raised inside the [try] of
    [_process_and_pyonize]: if it is of class [Exception] the envelope
    layer catches it and returns the Failed envelope carrying its text;
    only an error outside [Exception] leaves the envelope layer. *)
Theorem C9_encoding_failure_is_caught
    (rt : runtime) (target : pyobject) (obj ret : value) (w w1 : world) (err : exn) :
  NanoNDSPHandler._process_action rt target obj w = (Ok ret, w1) ->
  MyPyon.encode ret = Raise err ->
  NanoNDSPHandler._process_and_pyonize rt target obj w
  = if is_Exception (exn_cls err)
    then (Ok ("{'status': 'failed', 'exception': " ++ repr_str (exn_str err) ++ "}"),
          emit (ErrorReport err) w1)
    else (Raise err, w1).
Proof.
  intros Hact Henc.
  unfold NanoNDSPHandler._process_and_pyonize. rewrite Hact.
  rewrite encode_ok_envelope, Henc.
  unfold NanoNDSPHandler.on_exception.
  destruct (is_Exception (exn_cls err)); [rewrite encode_failed_envelope|]; reflexivity.
Qed.

Lemma C9_encoding_failure_witness :
  NanoNDSPHandler._process_and_pyonize plain_runtime opaque_target
    (call_request "open" []) idle_world
  = (Ok "{'status': 'failed', 'exception': 'no repr'}",
     emit (ErrorReport (Exn (OtherException "RuntimeError") "no repr")) idle_world).
Proof.
  apply (C9_encoding_failure_is_caught plain_runtime opaque_target
           (call_request "open" []) unprintable idle_world idle_world
           (Exn (OtherException "RuntimeError") "no repr")).
  - vm_compute. reflexivity.
  - reflexivity.
Defined.

(** C9 (as stated) fails: a method returns an object whose [__repr__]
    raises RuntimeError, so the return value has no encoding; the envelope
    layer catches the error and answers with a Failed envelope. *)
Lemma C9_counterexample :
  NanoNDSPHandler._process_action plain_runtime opaque_target
    (call_request "open" []) idle_world = (Ok unprintable, idle_world)
  /\ MyPyon.encode unprintable = Raise (Exn (OtherException "RuntimeError") "no repr")
  /\ fst (NanoNDSPHandler._process_and_pyonize plain_runtime opaque_target
            (call_request "open" []) idle_world)
     = Ok "{'status': 'failed', 'exception': 'no repr'}".
Proof. vm_compute. repeat split; reflexivity. Qed.

(* ------------------------------------------------------------------ *)
(** ** The serving loop *)

Lemma write_next_ok (data : string) (wr : writer) :
  hd None (wr_script wr) = None ->
  write data wr
  = (Ok tt, Writer (wr_sent wr ++ [data]) (tl (wr_script wr)) (wr_closed wr)).
Proof.
  unfold write. destruct (wr_script wr) as [|[err|] script]; simpl; intros H;
    [reflexivity|discriminate|reflexivity].
Qed.

(** One round of the serving loop: for a request line
    that is well-formed UTF-8, that [decode] turns into a request, and on
    which the dispatcher's outcome is reportable (a result the codec
    encodes, or an error of class [Exception]), the loop writes exactly one
    chunk, the encoded envelope and a newline (Ok around the result, Failed
    around the error's text), leaves the writer open as it was, and goes on
    serving the lines that follow. *)
Lemma serve_loop_round
    (rt : runtime) (target : pyobject) (linecnt : nat) (line text : string)
    (rest : list read_event) (wr : writer) (w w1 w2 : world)
    (obj : value) (r : result value) :
  line <> EmptyString ->
  utf8_decode rt line = Ok text ->
  MyPyon.decode rt (StrLine text) (debug (DebugReceived (S linecnt) line) w) = (Ok obj, w1) ->
  NanoNDSPHandler._process_action rt target obj w1 = (r, w2) ->
  reportable r = true ->
  hd None (wr_script wr) = None ->
  exists reply w3,
    MyPyon.encode (envelope_of r) = Ok reply
    /\ NanoNDSPHandler.serve_loop rt target linecnt (RLine line :: rest) wr w
       = NanoNDSPHandler.serve_loop rt target (S linecnt) rest
           (Writer (wr_sent wr ++ [utf8_encode (reply ++ str1 newline)])
                   (tl (wr_script wr)) (wr_closed wr))
           w3.
Proof.
  intros Hline Hutf Hdec Hact Hrep Hwr.
  destruct (reportable_envelope_encodes r Hrep) as [reply Henc].
  exists reply. eexists. split; [exact Henc|].
  destruct line as [|c line']; [congruence|].
  cbn [NanoNDSPHandler.serve_loop]. cbv beta iota zeta.
  rewrite Hutf, Hdec.
  rewrite (pyonize_reportable rt target obj w1 w2 r reply Hact Hrep Henc).
  rewrite (write_next_ok _ _ Hwr). reflexivity.
Qed.




(* ------------------------------------------------------------------ *)
(** ** Sets and dicts with text keys *)

Lemma key_eq_str_l (s : string) (b : value) :
  key_eq (VStr s) b = true -> b = VStr s.
Proof.
  destruct b; simpl; try discriminate.
  intros H. apply String.eqb_eq in H. congruence.
Qed.

Lemma key_eq_str (s t : string) : key_eq (VStr s) (VStr t) = String.eqb s t.
Proof. reflexivity. Qed.

Lemma dict_lookup_set_str (acc : list (value * value)) (k k' : string) (x : value) :
  dict_lookup (dict_set acc (VStr k) x) (VStr k')
  = if String.eqb k' k then Some x else dict_lookup acc (VStr k').
Proof.
  induction acc as [|[k0 x0] acc IH].
  - cbn [dict_set dict_lookup]. rewrite key_eq_str. reflexivity.
  - cbn [dict_set]. destruct (key_eq (VStr k) k0) eqn:Hk.
    + apply key_eq_str_l in Hk. subst k0. cbn [dict_lookup]. rewrite key_eq_str.
      destruct (String.eqb k' k); reflexivity.
    + cbn [dict_lookup]. destruct (key_eq (VStr k') k0) eqn:Hk'.
      * apply key_eq_str_l in Hk'. subst k0. rewrite key_eq_str in Hk.
        destruct (String.eqb k' k) eqn:E; [|reflexivity].
        apply String.eqb_eq in E. subst k'. rewrite String.eqb_refl in Hk. discriminate.
      * exact IH.
Qed.

(** Adding elements none of which equals an earlier one appends them. *)
Lemma fold_set_add_distinct (l acc : list value) :
  Forall (fun y => existsb (key_eq y) acc = false) l ->
  distinct_keys l = true ->
  fold_left set_add l acc = (acc ++ l)%list.
Proof.
  revert acc. induction l as [|x r IH]; intros acc Hacc Hd; simpl.
  - symmetry. apply app_nil_r.
  - inversion Hacc as [|? ? Hx Hr]; subst.
    simpl in Hd. apply andb_true_iff in Hd. destruct Hd as [Hxr Hd].
    unfold set_add at 2. rewrite Hx.
    rewrite IH; [rewrite <- app_assoc; reflexivity| |exact Hd].
    rewrite forallb_forall in Hxr.
    rewrite Forall_forall in Hr |- *. intros y Hy.
    rewrite existsb_app, (Hr y Hy). simpl.
    apply list_elem_of_In in Hy.
    specialize (Hxr y Hy). destruct (key_eq y x); [discriminate|reflexivity].
Qed.

Lemma distinct_keys_str (names : list string) :
  NoDup names -> distinct_keys (map VStr names) = true.
Proof.
  induction 1 as [|x r Hx Hnd IH]; simpl; [reflexivity|].
  rewrite IH, andb_true_r. apply forallb_forall. intros y Hy.
  apply in_map_iff in Hy. destruct Hy as [n [<- Hn]]. simpl.
  destruct (String.eqb n x) eqn:E; [|reflexivity].
  apply String.eqb_eq in E. subst n. apply list_elem_of_In in Hn. contradiction.
Qed.

Lemma first_unhashable_str (names : list string) :
  first_unhashable (map VStr names) = None.
Proof. induction names; simpl; auto. Qed.

(** A set built from pairwise different texts holds exactly those texts. *)
Lemma build_set_str (rt : runtime) (names : list string) :
  NoDup names ->
  build_set rt (map VStr names) = Ok (VSet (rt_set_order rt (map VStr names))).
Proof.
  intros Hnd. unfold build_set. rewrite first_unhashable_str.
  rewrite fold_set_add_distinct; [reflexivity| |apply distinct_keys_str, Hnd].
  apply Forall_forall. reflexivity.
Qed.

(* ------------------------------------------------------------------ *)
(** ** The two enumerations of a target's methods *)

Lemma getmembers_spec (target : pyobject) (name : string) (a : attr) :
  (name, a) ∈ getmembers_ismethod target
  <-> o_attrs target !! name = Some a /\ is_method a = true.
Proof.
  unfold getmembers_ismethod.
  rewrite merge_sort_Permutation, list_elem_of_filter, elem_of_map_to_list.
  simpl. tauto.
Qed.

Lemma getmembers_NoDup (target : pyobject) :
  NoDup (map fst (getmembers_ismethod target)).
Proof.
  unfold getmembers_ismethod.
  change (NoDup ((merge_sort by_name
            (filter (fun p => is_method (snd p) = true) (map_to_list (o_attrs target)))).*1)).
  rewrite merge_sort_Permutation.
  apply (sublist_NoDup _ ((map_to_list (o_attrs target)).*1));
    [apply NoDup_fst_map_to_list|].
  apply fmap_sublist. apply sublist_filter.
Qed.

Lemma getmembers_names (target : pyobject) (name : string) :
  name ∈ map fst (getmembers_ismethod target)
  <-> exists f, o_attrs target !! name = Some (AMethod f).
Proof.
  change (map fst (getmembers_ismethod target)) with ((getmembers_ismethod target).*1).
  rewrite list_elem_of_fmap. split.
  - intros [[n a] [-> Hin]]. apply getmembers_spec in Hin. destruct Hin as [Hl Hm].
    destruct a; try discriminate. eauto.
  - intros [f Hf]. exists (name, AMethod f). split; [reflexivity|].
    apply getmembers_spec. auto.
Qed.

(** The loop of [get_rpc_method_list]: a name is a key of the result when
    it was one already or when it is the name of one of the members, does
    not start with an underscore, and its descriptor was generated. *)
Lemma document_members_spec (rt : runtime) (target : pyobject)
    (members : list (string * attr)) :
  NoDup (map fst members) ->
  (forall n a, (n, a) ∈ members -> o_attrs target !! n = Some a) ->
  forall acc ms,
    (forall n, n ∈ map fst members -> dict_lookup acc (VStr n) = None) ->
    NanoNDSPHandler.document_members rt target members acc = Ok ms ->
    forall name d,
      dict_lookup ms (VStr name) = Some d
      <-> dict_lookup acc (VStr name) = Some d
          \/ (startswith "_" name = false
              /\ exists a, (name, a) ∈ members
                           /\ NanoNDSPHandler._document_function rt a = Ok d).
Proof.
  induction members as [|[n a] members IH]; intros Hnd Hattrs acc ms Hfresh Hdoc name d.
  - simpl in Hdoc. inversion Hdoc; subst. split; [auto|].
    intros [H|[_ [a [Hin _]]]]; [exact H|]. inversion Hin.
  - cbn [map fst] in Hnd. apply NoDup_cons in Hnd. destruct Hnd as [Hn Hnd].
    assert (Hattrs' : forall n0 a0, (n0, a0) ∈ members -> o_attrs target !! n0 = Some a0)
      by (intros; apply Hattrs; right; assumption).
    cbn [NanoNDSPHandler.document_members] in Hdoc.
    destruct (startswith "_" n) eqn:Hunder.
    + rewrite (IH Hnd Hattrs' acc ms) by
        (try assumption; intros; apply Hfresh; cbn [map fst]; right; assumption).
      split.
      * intros [H|[Hu [a0 [Hin Hd]]]]; [auto|]. right. split; [exact Hu|].
        exists a0. split; [right; exact Hin|exact Hd].
      * intros [H|[Hu [a0 [Hin Hd]]]]; [auto|]. right. split; [exact Hu|].
        exists a0. split; [|exact Hd].
        apply elem_of_cons in Hin. destruct Hin as [Heq|Hin]; [|exact Hin].
        inversion Heq; subst. congruence.
    + unfold getattr in Hdoc. rewrite (Hattrs n a) in Hdoc by left.
      destruct (NanoNDSPHandler._document_function rt a) as [descr|err] eqn:Hdescr;
        [|discriminate].
      rewrite (IH Hnd Hattrs' (dict_set acc (VStr n) descr) ms); try assumption.
      * rewrite dict_lookup_set_str.
        destruct (String.eqb name n) eqn:E.
        -- apply String.eqb_eq in E. subst name. split.
           ++ intros [H|[Hu [a0 [Hin Hd]]]].
              ** inversion H; subst. right. split; [exact Hunder|].
                 exists a. split; [left|exact Hdescr].
              ** exfalso. apply Hn.
                 change (n ∈ (members.*1)). apply list_elem_of_fmap.
                 exists (n, a0). auto.
           ++ intros [H|[Hu [a0 [Hin Hd]]]].
              ** rewrite Hfresh in H by (cbn [map fst]; left). discriminate.
              ** apply elem_of_cons in Hin. destruct Hin as [Heq|Hin].
                 --- inversion Heq; subst. left. congruence.
                 --- exfalso. apply Hn.
                     change (n ∈ (members.*1)). apply list_elem_of_fmap.
                     exists (n, a0). auto.
        -- split.
           ++ intros [H|[Hu [a0 [Hin Hd]]]]; [auto|]. right. split; [exact Hu|].
              exists a0. split; [right; exact Hin|exact Hd].
           ++ intros [H|[Hu [a0 [Hin Hd]]]]; [auto|]. right. split; [exact Hu|].
              exists a0. split; [|exact Hd].
              apply elem_of_cons in Hin. destruct Hin as [Heq|Hin]; [|exact Hin].
              inversion Heq; subst. rewrite String.eqb_refl in E. discriminate.
      * intros n0 Hn0. rewrite dict_lookup_set_str.
        destruct (String.eqb n0 n) eqn:E.
        -- apply String.eqb_eq in E. subst n0. contradiction.
        -- apply Hfresh. cbn [map fst]. right. exact Hn0.
Qed.

Lemma document_members_total (rt : runtime) (target : pyobject)
    (members : list (string * attr)) :
  (forall n a, (n, a) ∈ members -> startswith "_" n = false ->
     o_attrs target !! n = Some a
     /\ exists d, NanoNDSPHandler._document_function rt a = Ok d) ->
  forall acc, exists ms, NanoNDSPHandler.document_members rt target members acc = Ok ms.
Proof.
  induction members as [|[n a] members IH]; intros Hall acc.
  - eexists. reflexivity.
  - cbn [NanoNDSPHandler.document_members].
    assert (Hall' : forall n0 a0, (n0, a0) ∈ members -> startswith "_" n0 = false ->
               o_attrs target !! n0 = Some a0
               /\ exists d, NanoNDSPHandler._document_function rt a0 = Ok d)
      by (intros; apply Hall; [right|]; assumption).
    destruct (startswith "_" n) eqn:Hunder; [apply IH, Hall'|].
    destruct (Hall n a) as [Hattr [d Hd]]; [left|exact Hunder|].
    unfold getattr. rewrite Hattr, Hd. apply IH, Hall'.
Qed.

(** The set of names sent after the selection of a target: the names of
    all its bound methods. *)
Lemma member_names_set (rt : runtime) (target : pyobject) :
  exists l,
    build_set rt (map (fun m => VStr (fst m)) (getmembers_ismethod target)) = Ok (VSet l)
    /\ l ≡ₚ map VStr (map fst (getmembers_ismethod target))
    /\ forall name, VStr name ∈ l <-> exists f, o_attrs target !! name = Some (AMethod f).
Proof.
  exists (rt_set_order rt (map VStr (map fst (getmembers_ismethod target)))).
  rewrite <- (map_map fst VStr).
  split; [apply build_set_str, getmembers_NoDup|].
  split; [apply rt_set_order_perm|].
  intros name. rewrite rt_set_order_perm, <- getmembers_names.
  change (map VStr (map fst (getmembers_ismethod target)))
    with (VStr <$> map fst (getmembers_ismethod target)).
  rewrite list_elem_of_fmap. split.
  - intros [n [Heq Hin]]. inversion Heq; subst. exact Hin.
  - intros Hin. eauto.
Qed.

(** What the [get_rpc_method_list] action returns. *)
Lemma rpc_method_list_spec (rt : runtime) (target : pyobject) (obj ret : value)
    (w w' : world) :
  subscript rt obj "action" = Ok (VStr "get_rpc_method_list") ->
  NanoNDSPHandler._process_action rt target obj w = (Ok ret, w') ->
  exists ms,
    ret = VDict [(VStr "docstring", opt_str (o_doc target)); (VStr "methods", VDict ms)]
    /\ w' = w
    /\ forall name d,
         dict_lookup ms (VStr name) = Some d
         <-> startswith "_" name = false
             /\ exists f, o_attrs target !! name = Some (AMethod f)
                          /\ NanoNDSPHandler._document_function rt (AMethod f) = Ok d.
Proof.
  intros Hact Hrun. unfold NanoNDSPHandler._process_action in Hrun.
  rewrite Hact in Hrun. cbn [value_is_str] in Hrun.
  rewrite String.eqb_refl in Hrun.
  destruct (NanoNDSPHandler.document_members rt target (getmembers_ismethod target) [])
    as [ms|err] eqn:Hdoc; [|discriminate].
  inversion Hrun; subst. exists ms. split; [reflexivity|]. split; [reflexivity|].
  intros name d.
  rewrite (document_members_spec rt target (getmembers_ismethod target)
             (getmembers_NoDup target)
             (fun n a H => proj1 (proj1 (getmembers_spec target n a) H))
             [] ms (fun _ _ => eq_refl) Hdoc name d).
  cbn [dict_lookup]. split.
  - intros [H|[Hu [a [Hin Hd]]]]; [discriminate|].
    apply getmembers_spec in Hin. destruct Hin as [Hl Hm].
    destruct a; try discriminate. eauto.
  - intros [Hu [f [Hf Hd]]]. right. split; [exact Hu|].
    exists (AMethod f). split; [|exact Hd]. apply getmembers_spec. auto.
Qed.

(* ------------------------------------------------------------------ *)
(** ** Unfolding [repr] *)

(** The conversion of a sequence runs a local loop over its items; this
    names the loop: it is [repr_all]. *)
Ltac name_repr_loop l :=
  match goal with
  | |- match ?F l with _ => _ end = _ =>
      let H := fresh "Hloop" in
      assert (H : forall l', F l' = repr_all l')
        by (let x := fresh "x" in
            let r := fresh "r" in
            let IH := fresh "IH" in
            let l0 := fresh "l" in
            intros l0; induction l0 as [|x r IH]; cbn [repr_all]; [reflexivity|];
            destruct (repr x); [rewrite IH|]; reflexivity);
      rewrite H; clear H
  end.

Lemma repr_list (l : list value) :
  repr (VList l)
  = match repr_all l with
    | Ok ss => Ok ("[" ++ join ", " ss ++ "]")
    | Raise e => Raise e
    end.
Proof.
  cbn [repr]. name_repr_loop l. reflexivity.
Qed.

Lemma repr_tuple (l : list value) :
  repr (VTuple l)
  = match repr_all l with
    | Ok [s] => Ok ("(" ++ s ++ ",)")
    | Ok ss => Ok ("(" ++ join ", " ss ++ ")")
    | Raise e => Raise e
    end.
Proof.
  cbn [repr]. name_repr_loop l. reflexivity.
Qed.

Lemma repr_set (l : list value) :
  repr (VSet l)
  = match repr_all l with
    | Ok [] => Ok "set()"
    | Ok ss => Ok ("{" ++ join ", " ss ++ "}")
    | Raise e => Raise e
    end.
Proof.
  cbn [repr]. name_repr_loop l. reflexivity.
Qed.

Lemma repr_dict (kvs : list (value * value)) :
  repr (VDict kvs)
  = match repr_pairs kvs with
    | Ok ss => Ok ("{" ++ join ", " ss ++ "}")
    | Raise e => Raise e
    end.
Proof.
  cbn [repr].
  match goal with
  | |- match ?F kvs with _ => _ end = _ =>
      assert (H : forall l', F l' = repr_pairs l')
        by (induction l' as [|[k x] r IH]; cbn [repr_pairs]; [reflexivity|];
            destruct (repr k); [destruct (repr x); [rewrite IH|]|]; reflexivity)
  end.
  rewrite H. reflexivity.
Qed.

Lemma repr_all_str (names : list string) :
  repr_all (map VStr names) = Ok (map repr_str names).
Proof.
  induction names as [|n r IH]; cbn [map repr_all repr]; [reflexivity|].
  rewrite IH. reflexivity.
Qed.

Lemma permutation_of_texts (l : list value) (names : list string) :
  l ≡ₚ map VStr names -> exists names', l = map VStr names'.
Proof.
  intros Hp.
  assert (Hall : Forall (fun v => exists s, v = VStr s) l).
  { rewrite Hp. apply Forall_forall. intros v Hv.
    apply list_elem_of_In, in_map_iff in Hv. destruct Hv as [s [<- _]]. eauto. }
  clear Hp. induction Hall as [|v l [s ->] _ [names' ->]].
  - exists []. reflexivity.
  - exists (s :: names'). reflexivity.
Qed.

(** The handshake up to the serving loop: after the magic line and the
    name of a registered instance, [handle] has written the catalog and
    then the set of the target's method names, and serves. *)
Lemma handshake_reaches_serving (rt : runtime) (srv : server) (target : pyobject)
    (line text ctext : string) (rest : list read_event) (wr : writer) (w : world) :
  MyPyon.encode (NanoNDSPHandler.catalog srv) = Ok ctext ->
  wr_script wr = [] ->
  line <> EmptyString ->
  utf8_decode rt line = Ok text ->
  targets srv !! drop_last text = Some (Instance target) ->
  exists l ntext,
    build_set rt (map (fun m => VStr (fst m)) (getmembers_ismethod target)) = Ok (VSet l)
    /\ MyPyon.encode (VSet l) = Ok ntext
    /\ NanoNDSPHandler.handle_body rt srv
         (RLine NanoNDSPHandler._init_string :: RLine line :: rest) wr w
       = NanoNDSPHandler.serve_loop rt target 2 rest
           (Writer (wr_sent wr ++ [utf8_encode (ctext ++ str1 newline);
                                   utf8_encode (ntext ++ str1 newline)]) [] (wr_closed wr))
           (debug (DebugSendingMsg (utf8_encode (ntext ++ str1 newline)))
              (debug (DebugReceived 2 line)
                 (debug (DebugReceived 1 NanoNDSPHandler._init_string) w))).
Proof.
  intros Hcat Hwr Hline Hutf Htarget.
  destruct (member_names_set rt target) as [l [Hset [Hperm _]]].
  destruct (permutation_of_texts l _ Hperm) as [names' ->].
  exists (map VStr names').
  assert (Henc : exists ntext, MyPyon.encode (VSet (map VStr names')) = Ok ntext).
  { unfold MyPyon.encode. rewrite repr_set, repr_all_str.
    destruct (map repr_str names'); eauto. }
  destruct Henc as [ntext Henc]. exists ntext.
  split; [exact Hset|]. split; [exact Henc|].
  unfold NanoNDSPHandler.handle_body. simpl readline.
  replace (String.eqb NanoNDSPHandler._init_string NanoNDSPHandler._init_string)
    with true by (symmetry; apply String.eqb_refl).
  cbn [negb]. rewrite Hcat.
  unfold write at 1. rewrite Hwr.
  destruct line as [|c line']; [congruence|].
  cbn [readline]. cbv beta iota zeta. rewrite Hutf, Htarget, Hset.
  cbn [mbind result_bind rbind]. rewrite Henc.
  unfold write. cbn [wr_script wr_sent wr_closed].
  rewrite <- app_assoc. reflexivity.
Qed.

Lemma document_function_shape (rt : runtime) (f : pyfunction) (d : value) :
  NanoNDSPHandler._document_function rt (AMethod f) = Ok d ->
  exists spec, d = VTuple [VDict spec; opt_str (fn_doc f)]
               /\ map fst spec = map fst (NanoNDSPHandler.argspec_dict (fn_spec f)).
Proof.
  unfold NanoNDSPHandler._document_function.
  cbn [NanoNDSPHandler.argspec_dict dict_lookup key_eq String.eqb Ascii.eqb Bool.eqb
       from_option id].
  destruct (NanoNDSPHandler.any_key _).
  - destruct (py_str _) as [text|err]; [|discriminate].
    intros H. inversion H; subst. eexists. split; reflexivity.
  - intros H. inversion H; subst. eexists. split; reflexivity.
Qed.



(* ------------------------------------------------------------------ *)
(** ** The [call] action *)

(** What the [call] branch does once the request's fields are read: it
    calls the attribute found under the requested name. *)
Lemma call_dispatch (rt : runtime) (target : pyobject) (obj av kv : value)
    (name text : string) (a : attr) (args : list value)
    (kwargs : list (string * value)) (w : world) :
  subscript rt obj "action" = Ok (VStr "call") ->
  py_str obj = Ok text ->
  subscript rt obj "name" = Ok (VStr name) ->
  o_attrs target !! name = Some a ->
  subscript rt obj "args" = Ok av ->
  subscript rt obj "kwargs" = Ok kv ->
  star_args rt av = Ok args ->
  star_star_args rt kv = Ok kwargs ->
  NanoNDSPHandler._process_action rt target obj w
  = call_attr rt (VStr name) a args kwargs w.
Proof.
  intros Hact Hstr Hname Hattr Hav Hkv Hargs Hkwargs.
  unfold NanoNDSPHandler._process_action.
  rewrite Hact. cbn [value_is_str].
  replace (String.eqb "call" "get_rpc_method_list") with false by reflexivity.
  rewrite String.eqb_refl, Hstr, Hname.
  unfold getattr. rewrite Hattr, Hav, Hkv, Hkwargs, Hargs. reflexivity.
Qed.

(** C10.  The [call] action looks the requested name up with [getattr] and
    nothing else: whatever callable attribute the target has under that
    name, bound method or not, underscore or not, is called with the
    request's positional and keyword arguments, and its outcome is the
    dispatcher's.  When the name starts with an underscore, the result of
    [get_rpc_method_list] on the same target has no entry for it. *)
Theorem C10_call_is_unfiltered
    (rt : runtime) (target : pyobject) (obj av kv : value) (name text : string)
    (a : attr) (f : pyfunction) (args : list value)
    (kwargs : list (string * value)) (w : world) :
  subscript rt obj "action" = Ok (VStr "call") ->
  py_str obj = Ok text ->
  subscript rt obj "name" = Ok (VStr name) ->
  o_attrs target !! name = Some a ->
  a = AMethod f \/ a = ACallable f ->
  subscript rt obj "args" = Ok av ->
  subscript rt obj "kwargs" = Ok kv ->
  star_args rt av = Ok args ->
  star_star_args rt kv = Ok kwargs ->
  NanoNDSPHandler._process_action rt target obj w = fn_call f args kwargs w
  /\ (startswith "_" name = true ->
      forall lobj w0 ret w',
        subscript rt lobj "action" = Ok (VStr "get_rpc_method_list") ->
        NanoNDSPHandler._process_action rt target lobj w0 = (Ok ret, w') ->
        exists ms,
          ret = VDict [(VStr "docstring", opt_str (o_doc target));
                       (VStr "methods", VDict ms)]
          /\ dict_lookup ms (VStr name) = None).
Proof.
  intros Hact Hstr Hname Hattr Hkind Hav Hkv Hargs Hkwargs. split.
  - rewrite (call_dispatch rt target obj av kv name text a args kwargs w); try assumption.
    destruct Hkind as [-> | ->]; reflexivity.
  - intros Hunder lobj w0 ret w' Hlact Hrun.
    destruct (rpc_method_list_spec rt target lobj ret w0 w' Hlact Hrun) as [ms [-> [_ Hms]]].
    exists ms. split; [reflexivity|].
    destruct (dict_lookup ms (VStr name)) as [d|] eqn:Hd; [|reflexivity].
    apply Hms in Hd. destruct Hd as [Hu _]. congruence.
Qed.

Lemma C10_call_is_unfiltered_witness :
  NanoNDSPHandler._process_action plain_runtime (ExampleAdder.instance plain_runtime)
    (call_request "__init__" []) idle_world
  = fn_call (ExampleAdder.__init__ plain_runtime) [] [] idle_world.
Proof.
  apply (C10_call_is_unfiltered plain_runtime (ExampleAdder.instance plain_runtime)
           (call_request "__init__" []) (VList []) (VDict []) "__init__"
           "{'action': 'call', 'name': '__init__', 'args': [], 'kwargs': {}}"
           (AMethod (ExampleAdder.__init__ plain_runtime))
           (ExampleAdder.__init__ plain_runtime) [] [] idle_world).
  - reflexivity.
  - reflexivity.
  - reflexivity.
  - vm_compute. reflexivity.
  - left. reflexivity.
  - reflexivity.
  - reflexivity.
  - reflexivity.
  - reflexivity.
Defined.

(* ------------------------------------------------------------------ *)
(** ** The call scenario *)

(** Serving the request [add(4, 9)] on an [ExampleAdder]: one chunk is
    written, the Ok envelope around 13, and the loop ends with the stream. *)
Lemma serve_add_request (rt : runtime) (linecnt : nat) (wr : writer) (w : world) :
  wr_script wr = [] ->
  NanoNDSPHandler.serve_loop rt (ExampleAdder.instance rt) linecnt [RLine add_request] wr w
  = (Ok tt,
     Session []
       (Writer (wr_sent wr ++ ["{'status': 'ok', 'ret': 13}" ++ str1 newline]) []
               (wr_closed wr))
       (emit (DebugReceived (S (S linecnt)) EmptyString)
          (emit (DebugSending "{'status': 'ok', 'ret': 13}")
             (emit (DebugReceived (S linecnt) add_request) w)))).
Proof.
  intros Hwr. destruct wr as [sent script closed]. destruct w as [out st].
  simpl in Hwr. subst script.
  vm_compute. reflexivity.
Qed.



(* ------------------------------------------------------------------ *)
(** ** Texts *)

Lemma sapp_cons (c : ascii) (s t : string) : String c s ++ t = String c (s ++ t).
Proof. reflexivity. Qed.

Lemma sapp_nil_l (t : string) : EmptyString ++ t = t.
Proof. reflexivity. Qed.

Lemma sapp_nil_r (s : string) : s ++ EmptyString = s.
Proof. induction s as [|c s IH]; [reflexivity|]. rewrite sapp_cons, IH. reflexivity. Qed.

Lemma sapp_assoc (s t u : string) : (s ++ t) ++ u = s ++ t ++ u.
Proof.
  induction s as [|c s IH]; [reflexivity|]. rewrite !sapp_cons, IH. reflexivity.
Qed.

Lemma slength_app (s t : string) :
  String.length (s ++ t) = (String.length s + String.length t)%nat.
Proof.
  induction s as [|c s IH]; [reflexivity|]. rewrite sapp_cons. simpl. rewrite IH. reflexivity.
Qed.

Lemma scan_app (p : ascii -> bool) (s rest : string) :
  all_chars p s = true -> head_is p rest = false ->
  scan p (s ++ rest) = (s, rest).
Proof.
  induction s as [|c s IH]; intros Hall Hrest.
  - rewrite sapp_nil_l. destruct rest as [|d rest]; [reflexivity|].
    simpl in *. rewrite Hrest. reflexivity.
  - simpl in Hall. apply andb_true_iff in Hall. destruct Hall as [Hc Hall].
    rewrite sapp_cons. cbn [scan]. rewrite Hc, (IH Hall Hrest). reflexivity.
Qed.

(* ------------------------------------------------------------------ *)
(** ** Decimal integers *)

Lemma N_of_digits_app (s t : string) (a : N) :
  N_of_digits (s ++ t) a = N_of_digits t (N_of_digits s a).
Proof.
  revert a. induction s as [|c s IH]; intros a; [reflexivity|].
  rewrite sapp_cons. cbn [N_of_digits]. apply IH.
Qed.

Lemma digit_char_spec (d : N) :
  (d < 10)%N ->
  is_digit (digit_char d) = true
  /\ (N_of_ascii (digit_char d) - 48)%N = d
  /\ (digit_char d = "0"%char -> d = 0%N).
Proof.
  intros Hd.
  assert (Hcases : (d = 0 \/ d = 1 \/ d = 2 \/ d = 3 \/ d = 4 \/ d = 5 \/ d = 6
                    \/ d = 7 \/ d = 8 \/ d = 9)%N) by lia.
  repeat destruct Hcases as [-> | Hcases]; try subst d;
    (split; [reflexivity|split; [reflexivity|]]); intros H;
    first [reflexivity | vm_compute in H; discriminate H].
Qed.

(** The digits [digits_fuel] puts before [acc]: a non-empty run of digits
    that reads back as [n] and opens with a zero only for [n = 0]. *)
Lemma digits_fuel_spec (f : nat) :
  forall (n : N) (acc : string),
    (n < 2 ^ N.of_nat f)%N -> f <> O ->
    exists c ds,
      digits_fuel f n acc = String c ds ++ acc
      /\ all_chars is_digit (String c ds) = true
      /\ N_of_digits (String c ds) 0 = n
      /\ (c = "0"%char -> ds = EmptyString /\ n = 0%N).
Proof.
  induction f as [|f IH]; intros n acc Hn Hf; [congruence|].
  cbn [digits_fuel].
  assert (Hmod : (n mod 10 < 10)%N) by (apply N.mod_lt; lia).
  destruct (digit_char_spec (n mod 10) Hmod) as [Hdig [Hval Hzero]].
  destruct (n <? 10)%N eqn:Hlt.
  - apply N.ltb_lt in Hlt. rewrite N.mod_small in * by exact Hlt.
    exists (digit_char n), EmptyString.
    split; [reflexivity|]. split; [|split].
    + simpl. rewrite Hdig. reflexivity.
    + cbn [N_of_digits]. lia.
    + intros Hc. split; [reflexivity|]. apply Hzero, Hc.
  - apply N.ltb_ge in Hlt.
    assert (Hf' : f <> O).
    { intros ->. simpl in Hn. lia. }
    assert (Hdiv : (n / 10 < 2 ^ N.of_nat f)%N).
    { rewrite Nat2N.inj_succ, N.pow_succ_r' in Hn.
      apply N.Div0.div_lt_upper_bound. lia. }
    destruct (IH (n / 10)%N (String (digit_char (n mod 10)) acc) Hdiv Hf')
      as [c [ds [Heq [Hall [Hnum Hlead]]]]].
    exists c, (ds ++ str1 (digit_char (n mod 10))).
    split; [|split; [|split]].
    + rewrite Heq, !sapp_cons, sapp_assoc. reflexivity.
    + simpl in Hall |- *. apply andb_true_iff in Hall. destruct Hall as [Hc Hall].
      rewrite Hc. simpl. clear - Hall Hdig.
      induction ds as [|d ds IHd]; simpl in *.
      * rewrite Hdig. reflexivity.
      * apply andb_true_iff in Hall. destruct Hall as [Hd Hall].
        rewrite Hd. simpl. apply IHd, Hall.
    + change (String c (ds ++ str1 (digit_char (n mod 10))))
        with (String c ds ++ str1 (digit_char (n mod 10))).
      rewrite N_of_digits_app, Hnum. cbn [N_of_digits str1].
      rewrite Hval. rewrite (N.div_mod n 10) at 3 by lia. lia.
    + intros Hc. destruct (Hlead Hc) as [_ Hz].
      exfalso. apply N.div_small_iff in Hz; lia.
Qed.

Lemma repr_N_spec (n : N) :
  exists c ds,
    repr_N n = String c ds
    /\ all_chars is_digit (String c ds) = true
    /\ int_literal (String c ds) = Some n.
Proof.
  destruct (digits_fuel_spec (S (N.to_nat (N.log2 n))) n EmptyString)
    as [c [ds [Heq [Hall [Hnum Hlead]]]]].
  - rewrite Nat2N.inj_succ, N2Nat.id.
    destruct n as [|p]; [reflexivity|]. apply N.log2_spec. lia.
  - discriminate.
  - exists c, ds. unfold repr_N. rewrite Heq, sapp_nil_r.
    split; [reflexivity|]. split; [exact Hall|].
    unfold int_literal.
    destruct (Ascii.eqb c "0") eqn:Hc.
    + apply Ascii.eqb_eq in Hc. destruct (Hlead Hc) as [-> ->]. subst c. reflexivity.
    + apply Ascii.eqb_neq in Hc. rewrite <- Hnum.
      destruct c as [[] [] [] [] [] [] [] []]; try reflexivity;
        destruct ds; try reflexivity; exfalso; apply Hc; reflexivity.
Qed.
(* ------------------------------------------------------------------ *)
(** ** String literals *)

Lemma repr_quote_cases (s : string) : repr_quote s = squote \/ repr_quote s = dquote.
Proof. unfold repr_quote. destruct (_ && _); auto. Qed.

(** Reading back one character of a [repr]. *)
Lemma parse_repr_char (q c : ascii) (tail : string) :
  q = squote \/ q = dquote ->
  parse_str_body q (repr_char q c ++ tail)
  = match parse_str_body q tail with
    | Some (t, rest) => Some (String c t, rest)
    | None => None
    end.
Proof.
  intros [-> | ->]; destruct c as [[] [] [] [] [] [] [] []]; reflexivity.
Qed.

Lemma repr_char_head (q c : ascii) (tail : string) :
  q = squote \/ q = dquote ->
  exists d r, repr_char q c ++ tail = String d r /\ Ascii.eqb d q = false.
Proof.
  intros [-> | ->]; destruct c as [[] [] [] [] [] [] [] []];
    eexists; eexists; (split; [reflexivity|reflexivity]).
Qed.

Lemma parse_repr_chars (q : ascii) (s rest : string) :
  q = squote \/ q = dquote ->
  parse_str_body q (repr_chars q s ++ String q rest) = Some (s, rest).
Proof.
  intros Hq. induction s as [|c s IH].
  - cbn [repr_chars]. rewrite sapp_nil_l. cbn [parse_str_body].
    rewrite Ascii.eqb_refl. reflexivity.
  - cbn [repr_chars]. rewrite sapp_assoc, (parse_repr_char q c _ Hq), IH. reflexivity.
Qed.

(** A text reads back from its [repr], whatever follows the closing quote
    short of another quote. *)
Lemma parse_repr_str (s rest : string) :
  head_is is_quote rest = false ->
  exists q body,
    repr_str s ++ rest = String q body
    /\ is_quote q = true
    /\ parse_str q body = Some (s, rest).
Proof.
  intros Hrest. unfold repr_str.
  destruct (repr_quote_cases s) as [Hq | Hq]; rewrite Hq;
    (eexists; eexists; split; [reflexivity|split; [reflexivity|]]).
  all: rewrite sapp_assoc; change (str1 ?q ++ rest) with (String q rest).
  all: destruct s as [|c s].
  all: try (cbn [repr_chars]; rewrite sapp_nil_l;
            destruct rest as [|d rest]; [reflexivity|];
            unfold parse_str; simpl in Hrest; unfold is_quote in Hrest;
            apply orb_false_iff in Hrest; destruct Hrest as [H1 H2];
            rewrite Ascii.eqb_refl; cbn [andb];
            first [rewrite H1 | rewrite H2];
            cbn [parse_str_body]; rewrite Ascii.eqb_refl; reflexivity).
  - assert (Hq' : squote = squote \/ squote = dquote) by auto.
    pose proof (parse_repr_chars squote (String c s) rest Hq') as Hbody.
    cbn [repr_chars] in Hbody |- *. rewrite sapp_assoc in Hbody |- *.
    destruct (repr_char_head squote c (repr_chars squote s ++ String squote rest) Hq')
      as [d [r [Hd Hne]]].
    rewrite Hd in Hbody |- *. unfold parse_str.
    destruct r; [exact Hbody|]. rewrite Hne. exact Hbody.
  - assert (Hq' : dquote = squote \/ dquote = dquote) by auto.
    pose proof (parse_repr_chars dquote (String c s) rest Hq') as Hbody.
    cbn [repr_chars] in Hbody |- *. rewrite sapp_assoc in Hbody |- *.
    destruct (repr_char_head dquote c (repr_chars dquote s ++ String dquote rest) Hq')
      as [d [r [Hd Hne]]].
    rewrite Hd in Hbody |- *. unfold parse_str.
    destruct r; [exact Hbody|]. rewrite Hne. exact Hbody.
Qed.
(* ------------------------------------------------------------------ *)
Lemma delim_start_heads (rest : string) :
  delim_start rest = true ->
  head_is is_digit rest = false
  /\ head_is is_ident_char rest = false
  /\ head_is is_quote rest = false
  /\ skip_spaces rest = rest.
Proof.
  destruct rest as [|c rest]; [auto|]. cbn [delim_start head_is skip_spaces].
  intros H. repeat (apply orb_true_iff in H; destruct H as [H|H]);
    apply Ascii.eqb_eq in H; subst c; auto.
Qed.

Lemma scan_stop (p : ascii -> bool) (rest : string) :
  head_is p rest = false -> scan p rest = (EmptyString, rest).
Proof.
  destruct rest as [|c rest]; [reflexivity|]. cbn [head_is scan]. intros ->. reflexivity.
Qed.

Lemma parse_None (f : nat) (rest : string) :
  delim_start rest = true -> parse_expr (S f) ("None" ++ rest) = Some (ENone, rest).
Proof.
  intros H. destruct (delim_start_heads rest H) as [_ [Hid _]].
  rewrite !sapp_cons, sapp_nil_l. simpl. rewrite (scan_stop _ _ Hid). reflexivity.
Qed.

Lemma parse_True (f : nat) (rest : string) :
  delim_start rest = true -> parse_expr (S f) ("True" ++ rest) = Some (EBool true, rest).
Proof.
  intros H. destruct (delim_start_heads rest H) as [_ [Hid _]].
  rewrite !sapp_cons, sapp_nil_l. simpl. rewrite (scan_stop _ _ Hid). reflexivity.
Qed.

Lemma parse_False (f : nat) (rest : string) :
  delim_start rest = true -> parse_expr (S f) ("False" ++ rest) = Some (EBool false, rest).
Proof.
  intros H. destruct (delim_start_heads rest H) as [_ [Hid _]].
  rewrite !sapp_cons, sapp_nil_l. simpl. rewrite (scan_stop _ _ Hid). reflexivity.
Qed.

Lemma parse_empty_set (f : nat) (rest : string) :
  parse_expr (S f) ("set()" ++ rest) = Some (ESet [], rest).
Proof. reflexivity. Qed.

(** A text opening with a digit is read as an integer literal. *)
Lemma parse_digit_start (f : nat) (c : ascii) (s : string) :
  is_digit c = true ->
  parse_expr (S f) (String c s)
  = let '(ds, rest) := scan is_digit (String c s) in
    match int_literal ds with
    | Some n => Some (EInt (Z.of_N n), rest)
    | None => None
    end.
Proof.
  intros Hc. destruct c as [[] [] [] [] [] [] [] []]; try discriminate Hc; reflexivity.
Qed.

Lemma parse_repr_Z (f : nat) (z : Z) (rest : string) :
  delim_start rest = true ->
  parse_expr (S f) (repr_Z z ++ rest) = Some (EInt z, rest).
Proof.
  intros H. destruct (delim_start_heads rest H) as [Hdig _].
  destruct (repr_N_spec (Z.abs_N z)) as [c [ds [Heq [Hall Hlit]]]].
  unfold repr_Z. rewrite Heq. destruct (z <? 0)%Z eqn:Hneg.
  - rewrite sapp_cons. cbn [parse_expr].
    replace (Ascii.eqb "-" "[") with false by reflexivity.
    replace (Ascii.eqb "-" "(") with false by reflexivity.
    replace (Ascii.eqb "-" "{") with false by reflexivity.
    replace (Ascii.eqb "-" squote || Ascii.eqb "-" dquote) with false by reflexivity.
    rewrite Ascii.eqb_refl.
    rewrite (scan_app is_digit (String c ds) rest Hall Hdig), Hlit.
    apply Z.ltb_lt in Hneg. do 2 f_equal. f_equal. lia.
  - rewrite sapp_cons, parse_digit_start
      by (simpl in Hall; apply andb_true_iff in Hall; tauto).
    change (String c (ds ++ rest)) with (String c ds ++ rest).
    rewrite (scan_app is_digit (String c ds) rest Hall Hdig), Hlit.
    apply Z.ltb_ge in Hneg. do 2 f_equal. f_equal. lia.
Qed.

Lemma parse_quote_start (f : nat) (q : ascii) (body : string) :
  is_quote q = true ->
  parse_expr (S f) (String q body)
  = match parse_str q body with
    | Some (t, rest) => Some (EStr t, rest)
    | None => None
    end.
Proof.
  unfold is_quote. intros H. apply orb_true_iff in H.
  destruct H as [H|H]; apply Ascii.eqb_eq in H; subst q; reflexivity.
Qed.

Lemma parse_repr_text (f : nat) (s rest : string) :
  delim_start rest = true ->
  parse_expr (S f) (repr_str s ++ rest) = Some (EStr s, rest).
Proof.
  intros H. destruct (delim_start_heads rest H) as [_ [_ [Hq _]]].
  destruct (parse_repr_str s rest Hq) as [q [body [Heq [Hquote Hparse]]]].
  rewrite Heq, (parse_quote_start f q body Hquote), Hparse. reflexivity.
Qed.
(* ------------------------------------------------------------------ *)
(** ** Reading displays back *)

Lemma digit_not_opening (c : ascii) : is_digit c = true -> not_opening c = false.
Proof.
  intros Hc. destruct c as [[] [] [] [] [] [] [] []]; try discriminate Hc; reflexivity.
Qed.

Lemma quote_not_opening (c : ascii) : is_quote c = true -> not_opening c = false.
Proof.
  unfold is_quote. intros H. apply orb_true_iff in H.
  destruct H as [H|H]; apply Ascii.eqb_eq in H; subst c; reflexivity.
Qed.

(** An encoding is not empty, and opens with neither a space nor a closing
    bracket. *)
Lemma repr_head (v : value) (t : string) :
  in_domain v = true ->
  repr v = Ok t -> exists c t', t = String c t' /\ not_opening c = false.
Proof.
  intros Hdom. destruct v as [|[]|z|s|l|l|l|kvs|n r].
  - intros H. inversion H. eexists. eexists. split; reflexivity.
  - intros H. inversion H. eexists. eexists. split; reflexivity.
  - intros H. inversion H. eexists. eexists. split; reflexivity.
  - intros H. cbn [repr] in H. inversion H. unfold repr_Z.
    destruct (repr_N_spec (Z.abs_N z)) as [c [ds [Heq [Hall _]]]]. rewrite Heq.
    destruct (z <? 0)%Z.
    + eexists. eexists. split; reflexivity.
    + exists c, ds. split; [reflexivity|]. apply digit_not_opening.
      simpl in Hall. apply andb_true_iff in Hall. tauto.
  - intros H. cbn [repr] in H. inversion H. unfold repr_str.
    eexists. eexists. split; [reflexivity|]. apply quote_not_opening.
    unfold is_quote. destruct (repr_quote_cases s) as [-> | ->]; reflexivity.
  - rewrite repr_list. destruct (repr_all l); [|discriminate].
    intros H. inversion H. eexists. eexists. split; reflexivity.
  - rewrite repr_tuple. destruct (repr_all l) as [[|s [|s' ss]]|]; [| | |discriminate];
      intros H; inversion H; eexists; eexists; split; reflexivity.
  - rewrite repr_set. destruct (repr_all l) as [[|s ss]|]; [| |discriminate];
      intros H; inversion H; eexists; eexists; split; reflexivity.
  - rewrite repr_dict. destruct (repr_pairs kvs); [|discriminate].
    intros H. inversion H. eexists. eexists. split; reflexivity.
  - discriminate Hdom.
Qed.

Lemma skip_spaces_head (c : ascii) (s : string) :
  not_opening c = false -> skip_spaces (String c s) = String c s.
Proof.
  unfold not_opening. intros H. apply orb_false_iff in H. destruct H as [H _].
  cbn [skip_spaces]. rewrite H. reflexivity.
Qed.

Lemma skip_spaces_space (s : string) : skip_spaces (String " " s) = skip_spaces s.
Proof. reflexivity. Qed.

Lemma closer_facts (closer : ascii) (rest : string) :
  is_closer closer = true ->
  delim_start (String closer rest) = true
  /\ skip_spaces (String closer rest) = String closer rest
  /\ Ascii.eqb "," closer = false
  /\ (forall c, not_opening c = false -> Ascii.eqb c closer = false).
Proof.
  unfold is_closer. intros H.
  repeat (apply orb_true_iff in H; destruct H as [H|H]);
    apply Ascii.eqb_eq in H; subst closer; repeat split; try reflexivity;
    intros c Hc; unfold not_opening, is_closer in Hc;
    apply orb_false_iff in Hc; destruct Hc as [_ Hc];
    apply orb_false_iff in Hc; destruct Hc as [Hc H3];
    apply orb_false_iff in Hc; destruct Hc as [H1 H2]; assumption.
Qed.

Lemma parse_items_cons (f : nat) (closer c : ascii) (tl : string) :
  Ascii.eqb c closer = false ->
  parse_items (S f) closer (String c tl)
  = match parse_expr f (String c tl) with
    | Some (e, s1) =>
        match skip_spaces s1 with
        | String d r1 =>
            if Ascii.eqb d closer then Some ([e], false, r1)
            else if Ascii.eqb d "," then
              match parse_items f closer (skip_spaces r1) with
              | Some (es, _, rest) => Some (e :: es, true, rest)
              | None => None
              end
            else None
        | EmptyString => None
        end
    | None => None
    end.
Proof. intros H. cbn [parse_items]. rewrite H. reflexivity. Qed.

(** The items of a display read back, given that each item does. *)
Lemma items_read_back (l : list value) :
  Forall reads_back l ->
  forallb in_domain l = true ->
  forall ss, repr_all l = Ok ss ->
  forall fuel closer rest,
    is_closer closer = true ->
    (2 * String.length (join ", " ss) + 1 <= fuel)%nat ->
    parse_items fuel closer (join ", " ss ++ String closer rest)
    = Some (map expr_of l, (1 <? List.length l)%nat, rest).
Proof.
  induction 1 as [|x r Hx Hr IH]; intros Hdom ss Hss fuel closer rest Hcl Hfuel.
  - cbn [repr_all] in Hss. inversion Hss; subst ss. cbn [join] in *.
    rewrite sapp_nil_l. destruct fuel as [|f]; [lia|].
    cbn [parse_items]. rewrite Ascii.eqb_refl. reflexivity.
  - cbn [forallb] in Hdom. apply andb_true_iff in Hdom. destruct Hdom as [Hdx Hdr].
    cbn [repr_all] in Hss.
    destruct (repr x) as [sx|] eqn:Hsx; [|discriminate].
    destruct (repr_all r) as [ss'|] eqn:Hss'; [|discriminate].
    inversion Hss; subst ss. clear Hss.
    destruct (repr_head x sx Hdx Hsx) as [c [sx' [Heq Hopen]]].
    destruct (closer_facts closer rest Hcl) as [Hdelim [Hskip [Hcomma Hne]]].
    destruct fuel as [|f]; [lia|].
    destruct r as [|y r'].
    + cbn [repr_all] in Hss'. inversion Hss'; subst ss'.
      cbn [join] in *.
      assert (Hs : sx ++ String closer rest = String c (sx' ++ String closer rest))
        by (rewrite Heq; reflexivity).
      rewrite Hs, (parse_items_cons f closer c _ (Hne c Hopen)), <- Hs.
      rewrite (Hx sx Hdx Hsx f (String closer rest)) by (assumption || lia).
      rewrite Hskip, Ascii.eqb_refl. reflexivity.
    + cbn [repr_all] in Hss'.
      destruct (repr y) as [sy|] eqn:Hsy; [|discriminate].
      destruct (repr_all r') as [ss''|] eqn:Hss''; [|discriminate].
      inversion Hss'; subst ss'. clear Hss'.
      change (join ", " (sx :: sy :: ss'')) with (sx ++ ", " ++ join ", " (sy :: ss'')) in *.
      rewrite !slength_app in Hfuel. cbn [String.length] in Hfuel.
      rewrite !sapp_assoc.
      assert (Hs : sx ++ ", " ++ join ", " (sy :: ss'') ++ String closer rest
                   = String c (sx' ++ ", " ++ join ", " (sy :: ss'') ++ String closer rest))
        by (rewrite Heq; reflexivity).
      rewrite Hs, (parse_items_cons f closer c _ (Hne c Hopen)), <- Hs.
      rewrite (Hx sx Hdx Hsx f (", " ++ join ", " (sy :: ss'') ++ String closer rest))
        by (reflexivity || lia).
      rewrite !sapp_cons, sapp_nil_l. cbn [skip_spaces].
      replace (Ascii.eqb "," " ") with false by reflexivity.
      replace (Ascii.eqb " " " ") with true by reflexivity.
      rewrite Hcomma, Ascii.eqb_refl.
      cbn [forallb] in Hdr. pose proof Hdr as Hdr'.
      apply andb_true_iff in Hdr'. destruct Hdr' as [Hdy _].
      destruct (repr_head y sy Hdy Hsy) as [cy [sy' [Heqy Hopeny]]].
      assert (Hj : exists tl, join ", " (sy :: ss'') ++ String closer rest = String cy tl).
      { destruct ss''; cbn [join]; rewrite Heqy, ?sapp_cons; eauto. }
      destruct Hj as [tl Hj].
      rewrite skip_spaces_space, Hj, (skip_spaces_head cy tl Hopeny), <- Hj.
      assert (Hf : (2 * String.length (join ", " (sy :: ss'')) + 1 <= f)%nat) by lia.
      rewrite (IH Hdr (sy :: ss'') eq_refl f closer rest Hcl Hf).
      reflexivity.
Qed.

Lemma in_domain_dict (kvs : list (value * value)) :
  in_domain (VDict kvs)
  = forallb (fun kv => in_domain (fst kv) && in_domain (snd kv)) kvs
    && forallb hashable (map fst kvs) && distinct_keys (map fst kvs).
Proof.
  cbn [in_domain]. do 2 f_equal.
  induction kvs as [|[k x] r IH]; [reflexivity|]. cbn [forallb fst snd]. rewrite <- IH.
  reflexivity.
Qed.

Lemma expr_of_dict (kvs : list (value * value)) :
  expr_of (VDict kvs) = EDict (map (fun kv => (expr_of (fst kv), expr_of (snd kv))) kvs).
Proof.
  cbn [expr_of]. f_equal.
  induction kvs as [|[k x] r IH]; [reflexivity|]. cbn [map fst snd]. rewrite <- IH.
  reflexivity.
Qed.

Lemma parse_pairs_cons (f : nat) (c : ascii) (tl : string) :
  Ascii.eqb c "}" = false ->
  parse_pairs (S f) (String c tl)
  = match parse_expr f (String c tl) with
    | Some (k, s1) =>
        match skip_spaces s1 with
        | String ":" r1 =>
            match parse_expr f (skip_spaces r1) with
            | Some (x, s2) =>
                match skip_spaces s2 with
                | String d r2 =>
                    if Ascii.eqb d "}" then Some ([(k, x)], r2)
                    else if Ascii.eqb d "," then
                      match parse_pairs f (skip_spaces r2) with
                      | Some (kvs, rest) => Some ((k, x) :: kvs, rest)
                      | None => None
                      end
                    else None
                | EmptyString => None
                end
            | None => None
            end
        | _ => None
        end
    | None => None
    end.
Proof. intros H. cbn [parse_pairs]. rewrite H. reflexivity. Qed.

Lemma comma_space (s : string) : ", " ++ s = String "," (String " " s).
Proof. reflexivity. Qed.

Lemma is_closer_brace : is_closer "}" = true.
Proof. reflexivity. Qed.

(** The pairs of a dict display read back, given that keys and values do. *)
Lemma pairs_read_back (kvs : list (value * value)) :
  Forall (fun kv => reads_back (fst kv) /\ reads_back (snd kv)) kvs ->
  forallb (fun kv => in_domain (fst kv) && in_domain (snd kv)) kvs = true ->
  forall ss, repr_pairs kvs = Ok ss ->
  forall fuel rest,
    (2 * String.length (join ", " ss) + 1 <= fuel)%nat ->
    parse_pairs fuel (join ", " ss ++ String "}" rest)
    = Some (map (fun kv => (expr_of (fst kv), expr_of (snd kv))) kvs, rest).
Proof.
  induction 1 as [|[k x] r [Hk Hx] Hr IH]; intros Hdom ss Hss fuel rest Hfuel.
  - cbn [repr_pairs] in Hss. inversion Hss; subst ss. cbn [join] in *.
    rewrite sapp_nil_l. destruct fuel as [|f]; [lia|]. reflexivity.
  - cbn [forallb fst snd] in Hdom. apply andb_true_iff in Hdom. destruct Hdom as [Hd Hdr].
    apply andb_true_iff in Hd. destruct Hd as [Hdk Hdx].
    cbn [fst snd] in Hk, Hx.
    cbn [repr_pairs] in Hss.
    destruct (repr k) as [sk|] eqn:Hsk; [|discriminate].
    destruct (repr x) as [sx|] eqn:Hsx; [|discriminate].
    destruct (repr_pairs r) as [ss'|] eqn:Hss'; [|discriminate].
    inversion Hss; subst ss. clear Hss.
    destruct (repr_head k sk Hdk Hsk) as [c [sk' [Heq Hopen]]].
    destruct (repr_head x sx Hdx Hsx) as [cx [sx' [Heqx Hopenx]]].
    destruct (closer_facts "}" rest is_closer_brace) as [Hdelim [Hskip [_ Hne]]].
    destruct fuel as [|f]; [lia|].
    assert (Hpair : forall X, (sk ++ ": " ++ sx) ++ X = sk ++ ": " ++ sx ++ X)
      by (intros; rewrite !sapp_assoc; reflexivity).
    assert (Hstep : forall X, delim_start X = true ->
              (2 * String.length (sk ++ ": " ++ sx) <= f)%nat ->
              parse_pairs (S f) ((sk ++ ": " ++ sx) ++ X)
              = match skip_spaces X with
                | String d r2 =>
                    if Ascii.eqb d "}" then Some ([(expr_of k, expr_of x)], r2)
                    else if Ascii.eqb d "," then
                      match parse_pairs f (skip_spaces r2) with
                      | Some (kvs, rest) => Some ((expr_of k, expr_of x) :: kvs, rest)
                      | None => None
                      end
                    else None
                | EmptyString => None
                end).
    { intros X HX HfX. rewrite !slength_app in HfX. cbn [String.length] in HfX.
      rewrite Hpair.
      assert (Hs : sk ++ ": " ++ sx ++ X = String c (sk' ++ ": " ++ sx ++ X))
        by (rewrite Heq; reflexivity).
      rewrite Hs, (parse_pairs_cons f c _ (Hne c Hopen)), <- Hs.
      rewrite (Hk sk Hdk Hsk f (": " ++ sx ++ X)) by (reflexivity || lia).
      rewrite !sapp_cons, sapp_nil_l. cbn [skip_spaces].
      replace (Ascii.eqb ":" " ") with false by reflexivity. cbv iota beta.
      rewrite skip_spaces_space.
      assert (Hsx' : sx ++ X = String cx (sx' ++ X)) by (rewrite Heqx; reflexivity).
      rewrite Hsx', (skip_spaces_head cx _ Hopenx), <- Hsx'.
      rewrite (Hx sx Hdx Hsx f X) by (assumption || lia).
      reflexivity. }
    destruct r as [|[k2 x2] r'].
    + cbn [repr_pairs] in Hss'. inversion Hss'; subst ss'. cbn [join] in *.
      rewrite (Hstep (String "}" rest) Hdelim) by lia.
      rewrite Hskip. reflexivity.
    + cbn [repr_pairs] in Hss'.
      destruct (repr k2) as [sk2|] eqn:Hsk2; [|discriminate].
      destruct (repr x2) as [sx2|] eqn:Hsx2; [|discriminate].
      destruct (repr_pairs r') as [ss''|] eqn:Hss''; [|discriminate].
      inversion Hss'; subst ss'. clear Hss'.
      change (join ", " ((sk ++ ": " ++ sx) :: (sk2 ++ ": " ++ sx2) :: ss''))
        with ((sk ++ ": " ++ sx) ++ ", " ++ join ", " ((sk2 ++ ": " ++ sx2) :: ss'')) in *.
      rewrite (slength_app (sk ++ ": " ++ sx)), (slength_app ", ") in Hfuel.
      cbn [String.length] in Hfuel.
      rewrite (sapp_assoc (sk ++ ": " ++ sx)), (sapp_assoc ", ").
      rewrite (Hstep (", " ++ join ", " ((sk2 ++ ": " ++ sx2) :: ss'') ++ String "}" rest))
        by (reflexivity || lia).
      rewrite comma_space. cbn [skip_spaces].
      replace (Ascii.eqb "," " ") with false by reflexivity.
      replace (Ascii.eqb "," "}") with false by reflexivity.
      rewrite Ascii.eqb_refl, skip_spaces_space.
      cbn [forallb fst snd] in Hdr. pose proof Hdr as Hdr'.
      apply andb_true_iff in Hdr'. destruct Hdr' as [Hd2 _].
      apply andb_true_iff in Hd2. destruct Hd2 as [Hdk2 _].
      destruct (repr_head k2 sk2 Hdk2 Hsk2) as [c2 [sk2' [Heq2 Hopen2]]].
      assert (Hj : exists tl, join ", " ((sk2 ++ ": " ++ sx2) :: ss'') ++ String "}" rest
                              = String c2 tl).
      { destruct ss''; cbn [join]; rewrite Heq2, ?sapp_cons; eauto. }
      destruct Hj as [tl Hj].
      rewrite Hj, (skip_spaces_head c2 tl Hopen2), <- Hj.
      assert (Hf : (2 * String.length (join ", " ((sk2 ++ ": " ++ sx2) :: ss'')) + 1 <= f)%nat)
        by lia.
      rewrite (IH Hdr _ eq_refl f rest Hf).
      reflexivity.
Qed.

(** The items of a display open with the first item, or with the closer. *)
Lemma join_first (x : value) (l : list value) (ss : list string) (X : string) :
  forallb in_domain (x :: l) = true ->
  repr_all (x :: l) = Ok ss ->
  exists c tl, join ", " ss ++ X = String c tl /\ not_opening c = false.
Proof.
  intros Hdom Hss. cbn [repr_all] in Hss.
  destruct (repr x) as [sx|] eqn:Hsx; [|discriminate].
  destruct (repr_all l) as [ss'|]; [|discriminate]. inversion Hss; subst ss.
  cbn [forallb] in Hdom. apply andb_true_iff in Hdom. destruct Hdom as [Hdx _].
  destruct (repr_head x sx Hdx Hsx) as [c [sx' [Heq Hopen]]]. subst sx.
  destruct ss'; cbn [join]; rewrite ?sapp_assoc, sapp_cons; eauto.
Qed.

Lemma join_skip (l : list value) (ss : list string) (closer : ascii) (rest : string) :
  forallb in_domain l = true ->
  repr_all l = Ok ss ->
  is_closer closer = true ->
  skip_spaces (join ", " ss ++ String closer rest) = join ", " ss ++ String closer rest.
Proof.
  intros Hdom Hss Hcl. destruct l as [|x l'].
  - cbn [repr_all] in Hss. inversion Hss. cbn [join]. rewrite sapp_nil_l.
    apply (closer_facts closer rest Hcl).
  - destruct (join_first x l' ss (String closer rest) Hdom Hss) as [c [tl [Heq Hopen]]].
    rewrite Heq. apply skip_spaces_head, Hopen.
Qed.

(** Reading the first item of a set display: what follows is no colon. *)
Lemma items_first_parse (x : value) (l : list value) (ss : list string)
    (f : nat) (closer : ascii) (rest : string) :
  Forall reads_back (x :: l) ->
  forallb in_domain (x :: l) = true ->
  repr_all (x :: l) = Ok ss ->
  is_closer closer = true ->
  (2 * String.length (join ", " ss) + 1 <= f)%nat ->
  exists tail,
    parse_expr f (join ", " ss ++ String closer rest) = Some (expr_of x, tail)
    /\ startswith ":" (skip_spaces tail) = false.
Proof.
  intros Hall Hdom Hss Hcl Hf. inversion Hall as [|? ? Hx _]; subst.
  cbn [repr_all] in Hss.
  destruct (repr x) as [sx|] eqn:Hsx; [|discriminate].
  destruct (repr_all l) as [ss'|]; [|discriminate]. inversion Hss; subst ss.
  cbn [forallb] in Hdom. apply andb_true_iff in Hdom. destruct Hdom as [Hdx _].
  destruct (closer_facts closer rest Hcl) as [Hdelim [Hskip _]].
  destruct ss' as [|sy ss''].
  - cbn [join] in *. exists (String closer rest). split.
    + apply (Hx sx Hdx Hsx); [lia|exact Hdelim].
    + rewrite Hskip. unfold is_closer in Hcl.
      repeat (apply orb_true_iff in Hcl; destruct Hcl as [Hcl|Hcl]);
        apply Ascii.eqb_eq in Hcl; subst closer; reflexivity.
  - change (join ", " (sx :: sy :: ss'')) with (sx ++ ", " ++ join ", " (sy :: ss'')) in *.
    rewrite slength_app in Hf. rewrite !sapp_assoc.
    exists (", " ++ join ", " (sy :: ss'') ++ String closer rest). split.
    + apply (Hx sx Hdx Hsx); [lia|reflexivity].
    + reflexivity.
Qed.

(** Reading the first key of a dict display: what follows is a colon. *)
Lemma pairs_first_parse (k x : value) (kvs : list (value * value)) (ss : list string)
    (f : nat) (rest : string) :
  reads_back k ->
  in_domain k = true ->
  repr_pairs ((k, x) :: kvs) = Ok ss ->
  (2 * String.length (join ", " ss) + 1 <= f)%nat ->
  exists tail,
    parse_expr f (join ", " ss ++ String "}" rest) = Some (expr_of k, tail)
    /\ startswith ":" (skip_spaces tail) = true.
Proof.
  intros Hk Hdk Hss Hf. cbn [repr_pairs] in Hss.
  destruct (repr k) as [sk|] eqn:Hsk; [|discriminate].
  destruct (repr x) as [sx|]; [|discriminate].
  destruct (repr_pairs kvs) as [ss'|]; [|discriminate]. inversion Hss; subst ss.
  assert (Hshape : exists X, join ", " ((sk ++ ": " ++ sx) :: ss') ++ String "}" rest
                             = sk ++ ": " ++ X
                   /\ (String.length sk
                       <= String.length (join ", " ((sk ++ ": " ++ sx) :: ss')))%nat).
  { destruct ss' as [|sy ss''].
    - cbn [join]. rewrite !sapp_assoc, !slength_app. eexists. split; [reflexivity|lia].
    - change (join ", " ((sk ++ ": " ++ sx) :: sy :: ss''))
        with ((sk ++ ": " ++ sx) ++ ", " ++ join ", " (sy :: ss'')).
      rewrite !sapp_assoc, !slength_app. eexists. split; [reflexivity|lia]. }
  destruct Hshape as [X [Heq Hlen]]. rewrite Heq.
  exists (": " ++ X). split.
  - apply (Hk sk Hdk Hsk); [lia|reflexivity].
  - reflexivity.
Qed.

Lemma startswith_head (c d : ascii) (tl : string) :
  Ascii.eqb d c = false -> startswith (str1 c) (String d tl) = false.
Proof.
  intros H. cbn [startswith str1]. rewrite Ascii.eqb_sym, H. reflexivity.
Qed.

(** Every value of the literal domain reads back from its encoding. *)
Lemma all_read_back (v : value) : reads_back v.
Proof.
  induction v as [| b | z | s | l Hl | l Hl | l Hl | kvs Hkvs | n r] using value_nested_ind;
    intros t Hdom Ht fuel rest Hfuel Hrest.
  - cbn [repr] in Ht. inversion Ht; subst t.
    destruct fuel as [|f]; [simpl in Hfuel; lia|]. apply parse_None, Hrest.
  - destruct b; cbn [repr] in Ht; inversion Ht; subst t;
      (destruct fuel as [|f]; [simpl in Hfuel; lia|]);
      [apply parse_True, Hrest|apply parse_False, Hrest].
  - cbn [repr] in Ht. inversion Ht; subst t.
    destruct (repr_head (VInt z) _ Hdom eq_refl) as [c [t' [Heq _]]]. cbn [repr] in Heq.
    rewrite Heq in Hfuel. destruct fuel as [|f]; [simpl in Hfuel; lia|].
    apply parse_repr_Z, Hrest.
  - cbn [repr] in Ht. inversion Ht; subst t.
    destruct fuel as [|f]; [unfold repr_str in Hfuel; simpl in Hfuel; lia|].
    apply parse_repr_text, Hrest.
  - (* lists *)
    rewrite repr_list in Ht. destruct (repr_all l) as [ss|] eqn:Hss; [|discriminate].
    inversion Ht; subst t. clear Ht. cbn [in_domain] in Hdom.
    rewrite !slength_app in Hfuel. cbn [String.length] in Hfuel.
    destruct fuel as [|f]; [lia|].
    rewrite !sapp_assoc, sapp_cons, sapp_nil_l.
    change ("]" ++ rest) with (String "]" rest).
    cbn [parse_expr]. rewrite Ascii.eqb_refl.
    rewrite (join_skip l ss "]" rest Hdom Hss eq_refl).
    rewrite (items_read_back l Hl Hdom ss Hss f "]" rest) by (reflexivity || lia).
    reflexivity.
  - (* tuples *)
    rewrite repr_tuple in Ht. cbn [in_domain] in Hdom.
    destruct l as [|x [|y l']].
    + cbn [repr_all] in Ht. inversion Ht; subst t.
      destruct fuel as [|[|f]]; try (simpl in Hfuel; lia). reflexivity.
    + cbn [repr_all] in Ht. destruct (repr x) as [sx|] eqn:Hsx; [|discriminate].
      inversion Ht; subst t. clear Ht.
      cbn [forallb] in Hdom. apply andb_true_iff in Hdom. destruct Hdom as [Hdx _].
      inversion Hl as [|? ? Hx _]; subst.
      destruct (repr_head x sx Hdx Hsx) as [c [sx' [Heq Hopen]]].
      rewrite !slength_app in Hfuel. cbn [String.length] in Hfuel.
      destruct fuel as [|[|[|f]]]; try lia.
      rewrite !sapp_assoc, sapp_cons, sapp_nil_l.
      cbn [parse_expr].
      replace (Ascii.eqb "(" "[") with false by reflexivity. rewrite Ascii.eqb_refl.
      assert (Hs : sx ++ ",)" ++ rest = String c (sx' ++ ",)" ++ rest))
        by (rewrite Heq; reflexivity).
      rewrite Hs, (skip_spaces_head c _ Hopen).
      rewrite parse_items_cons
        by (destruct (closer_facts ")" rest eq_refl) as [_ [_ [_ Hne]]]; apply Hne, Hopen).
      rewrite <- Hs.
      rewrite (Hx sx Hdx Hsx (S f) (",)" ++ rest)) by (reflexivity || lia).
      reflexivity.
    + destruct (repr_all (x :: y :: l')) as [ss|] eqn:Hss; [|discriminate].
      assert (Ht' : t = "(" ++ join ", " ss ++ ")").
      { assert (Hshape : exists s1 s2 ss', ss = s1 :: s2 :: ss').
        { cbn [repr_all] in Hss. destruct (repr x); [|discriminate].
          destruct (repr y); [|discriminate]. destruct (repr_all l'); [|discriminate].
          inversion Hss. eauto. }
        destruct Hshape as [s1 [s2 [ss' Hshape]]]. rewrite Hshape in Ht |- *.
        congruence. }
      subst t. clear Ht.
      rewrite !slength_app in Hfuel. cbn [String.length] in Hfuel.
      destruct fuel as [|f]; [lia|].
      rewrite (sapp_assoc "("), (sapp_assoc (join ", " ss)), sapp_cons, sapp_nil_l.
      change (")" ++ rest) with (String ")" rest).
      cbn [parse_expr].
      replace (Ascii.eqb "(" "[") with false by reflexivity. rewrite Ascii.eqb_refl.
      rewrite (join_skip _ ss ")" rest Hdom Hss eq_refl).
      rewrite (items_read_back _ Hl Hdom _ Hss f ")" rest) by (reflexivity || lia).
      reflexivity.
  - (* sets *)
    rewrite repr_set in Ht. cbn [in_domain] in Hdom.
    apply andb_true_iff in Hdom. destruct Hdom as [Hdom _].
    apply andb_true_iff in Hdom. destruct Hdom as [Hdom _].
    destruct l as [|x l'].
    + cbn [repr_all] in Ht. inversion Ht; subst t.
      destruct fuel as [|f]; [simpl in Hfuel; lia|]. apply parse_empty_set.
    + destruct (repr_all (x :: l')) as [ss|] eqn:Hss; [|discriminate].
      assert (Ht' : t = "{" ++ join ", " ss ++ "}").
      { assert (Hshape : exists s1 ss', ss = s1 :: ss').
        { cbn [repr_all] in Hss. destruct (repr x); [|discriminate].
          destruct (repr_all l'); [|discriminate]. inversion Hss. eauto. }
        destruct Hshape as [s1 [ss' Hshape]]. rewrite Hshape in Ht |- *. congruence. }
      subst t. clear Ht.
      rewrite !slength_app in Hfuel. cbn [String.length] in Hfuel.
      destruct fuel as [|f]; [lia|].
      rewrite (sapp_assoc "{"), (sapp_assoc (join ", " ss)), sapp_cons, sapp_nil_l.
      change ("}" ++ rest) with (String "}" rest).
      cbn [parse_expr].
      replace (Ascii.eqb "{" "[") with false by reflexivity.
      replace (Ascii.eqb "{" "(") with false by reflexivity.
      rewrite Ascii.eqb_refl. cbv zeta.
      rewrite (join_skip _ ss "}" rest Hdom Hss eq_refl).
      destruct (join_first x l' ss (String "}" rest) Hdom Hss) as [c [tl [Heq Hopen]]].
      destruct (closer_facts "}" rest eq_refl) as [_ [_ [_ Hne]]].
      rewrite Heq at 1.
      change "}" with (str1 "}") at 1. rewrite (startswith_head "}" c tl (Hne c Hopen)).
      destruct (items_first_parse x l' ss f "}" rest Hl Hdom Hss eq_refl) as [tail [Hp Hc]];
        [lia|].
      rewrite Hp, Hc.
      rewrite (items_read_back _ Hl Hdom _ Hss f "}" rest) by (reflexivity || lia).
      reflexivity.
  - (* dicts *)
    rewrite repr_dict in Ht. rewrite in_domain_dict in Hdom.
    apply andb_true_iff in Hdom. destruct Hdom as [Hdom _].
    apply andb_true_iff in Hdom. destruct Hdom as [Hdom _].
    rewrite expr_of_dict.
    destruct (repr_pairs kvs) as [ss|] eqn:Hss; [|discriminate].
    inversion Ht; subst t. clear Ht.
    rewrite !slength_app in Hfuel. cbn [String.length] in Hfuel.
    destruct fuel as [|f]; [lia|].
    rewrite (sapp_assoc "{"), (sapp_assoc (join ", " ss)), sapp_cons, sapp_nil_l.
    change ("}" ++ rest) with (String "}" rest).
    destruct kvs as [|[k x] kvs'].
    + cbn [repr_pairs] in Hss. inversion Hss; subst ss. reflexivity.
    + cbn [parse_expr].
      replace (Ascii.eqb "{" "[") with false by reflexivity.
      replace (Ascii.eqb "{" "(") with false by reflexivity.
      rewrite Ascii.eqb_refl. cbv zeta.
      inversion Hkvs as [|? ? [Hk Hx] _]; subst. cbn [fst snd] in Hk, Hx.
      pose proof Hdom as Hdom'. cbn [forallb fst snd] in Hdom'.
      apply andb_true_iff in Hdom'. destruct Hdom' as [Hd _].
      apply andb_true_iff in Hd. destruct Hd as [Hdk _].
      assert (Hhead : exists c tl, join ", " ss ++ String "}" rest = String c tl
                                   /\ not_opening c = false).
      { cbn [repr_pairs] in Hss.
        destruct (repr k) as [sk|] eqn:Hsk; [|discriminate].
        destruct (repr x) as [sx|]; [|discriminate].
        destruct (repr_pairs kvs') as [ss'|]; [|discriminate]. inversion Hss; subst ss.
        destruct (repr_head k sk Hdk Hsk) as [c [sk' [Heq Hopen]]]. subst sk.
        destruct ss'; cbn [join]; rewrite ?sapp_assoc, sapp_cons; eauto. }
      destruct Hhead as [c [tl [Heq Hopen]]].
      destruct (closer_facts "}" rest eq_refl) as [_ [_ [_ Hne]]].
      assert (Hskip : skip_spaces (join ", " ss ++ String "}" rest)
                      = join ", " ss ++ String "}" rest)
        by (rewrite Heq; apply skip_spaces_head, Hopen).
      rewrite Hskip. rewrite Heq at 1.
      change "}" with (str1 "}") at 1. rewrite (startswith_head "}" c tl (Hne c Hopen)).
      destruct (pairs_first_parse k x kvs' ss f rest Hk Hdk Hss) as [tail [Hp Hc]]; [lia|].
      rewrite Hp, Hc.
      rewrite (pairs_read_back _ Hkvs Hdom _ Hss f rest) by lia.
      reflexivity.
  - discriminate Hdom.
Qed.
(* ------------------------------------------------------------------ *)
(** ** Evaluating an encoding *)

Ltac name_eval_loop rt line l w :=
  match goal with
  | |- match ?F l w with _ => _ end = _ =>
      let H := fresh "Hloop" in
      assert (H : forall l' w', F l' w' = eval_all rt line l' w')
        by (let x := fresh "x" in
            let r := fresh "r" in
            let IH := fresh "IH" in
            let w0 := fresh "w" in
            let l0 := fresh "l" in
            intros l0; induction l0 as [|x r IH]; intros w0; cbn [eval_all];
            [reflexivity|];
            destruct (eval_expr rt line x w0) as [[?|?] ?]; [rewrite IH|]; reflexivity);
      rewrite H; clear H
  end.

Lemma eval_list (rt : runtime) (line : string) (l : list expr) (w : world) :
  eval_expr rt line (EList l) w
  = match eval_all rt line l w with
    | (Ok vs, w') => (Ok (VList vs), w')
    | (Raise err, w') => (Raise err, w')
    end.
Proof.
  cbn [eval_expr]. name_eval_loop rt line l w. reflexivity.
Qed.

Lemma eval_tuple (rt : runtime) (line : string) (l : list expr) (w : world) :
  eval_expr rt line (ETuple l) w
  = match eval_all rt line l w with
    | (Ok vs, w') => (Ok (VTuple vs), w')
    | (Raise err, w') => (Raise err, w')
    end.
Proof.
  cbn [eval_expr]. name_eval_loop rt line l w. reflexivity.
Qed.

Lemma eval_set (rt : runtime) (line : string) (l : list expr) (w : world) :
  eval_expr rt line (ESet l) w
  = match eval_all rt line l w with
    | (Ok vs, w') => (build_set rt vs, w')
    | (Raise err, w') => (Raise err, w')
    end.
Proof.
  cbn [eval_expr]. name_eval_loop rt line l w. reflexivity.
Qed.

Lemma eval_dict (rt : runtime) (line : string) (kvs : list (expr * expr)) (w : world) :
  eval_expr rt line (EDict kvs) w
  = match eval_pairs rt line kvs w with
    | (Ok vs, w') => (build_dict rt vs, w')
    | (Raise err, w') => (Raise err, w')
    end.
Proof.
  cbn [eval_expr].
  match goal with
  | |- match ?F kvs w with _ => _ end = _ =>
      assert (H : forall l' w', F l' w' = eval_pairs rt line l' w')
        by (induction l' as [|[k x] r IH]; intros w'; cbn [eval_pairs]; [reflexivity|];
            destruct (eval_expr rt line k w') as [[vk|err] w1]; [|reflexivity];
            destruct (eval_expr rt line x w1) as [[vx|err] w2]; [rewrite IH|]; reflexivity)
  end.
  rewrite H. reflexivity.
Qed.

(** A hashable value of the domain evaluates to itself. *)
Lemma eval_hashable (rt : runtime) (line : string) (v : value) :
  in_domain v = true -> hashable v = true ->
  forall w, eval_expr rt line (expr_of v) w = (Ok v, w).
Proof.
  induction v as [| b | z | s | l Hl | l Hl | l Hl | kvs Hkvs | n r] using value_nested_ind;
    intros Hdom Hhash w; try reflexivity; try discriminate.
  cbn [expr_of]. rewrite eval_tuple. cbn [in_domain hashable] in Hdom, Hhash.
  assert (Hall : eval_all rt line (map expr_of l) w = (Ok l, w)).
  { revert w. induction Hl as [|x l' Hx _ IH]; intros w; [reflexivity|].
    cbn [forallb] in Hdom, Hhash.
    apply andb_true_iff in Hdom. destruct Hdom as [Hdx Hdl].
    apply andb_true_iff in Hhash. destruct Hhash as [Hhx Hhl].
    cbn [map eval_all]. rewrite (Hx Hdx Hhx w), (IH Hdl Hhl w). reflexivity. }
  rewrite Hall. reflexivity.
Qed.

Lemma eval_all_hashable (rt : runtime) (line : string) (l : list value) (w : world) :
  forallb in_domain l = true -> forallb hashable l = true ->
  eval_all rt line (map expr_of l) w = (Ok l, w).
Proof.
  induction l as [|x l IH]; intros Hdom Hhash; [reflexivity|].
  cbn [forallb] in Hdom, Hhash.
  apply andb_true_iff in Hdom. destruct Hdom as [Hdx Hdl].
  apply andb_true_iff in Hhash. destruct Hhash as [Hhx Hhl].
  cbn [map eval_all]. rewrite (eval_hashable rt line x Hdx Hhx w), (IH Hdl Hhl). reflexivity.
Qed.

Lemma value_equiv_refl (v : value) : in_domain v = true -> value_equiv v v.
Proof.
  induction v as [| b | z | s | l Hl | l Hl | l Hl | kvs Hkvs | n r] using value_nested_ind;
    intros Hdom; try constructor; try discriminate.
  - cbn [in_domain] in Hdom. induction Hl as [|x l' Hx _ IH]; [constructor|].
    cbn [forallb] in Hdom. apply andb_true_iff in Hdom. destruct Hdom as [Hdx Hdl].
    constructor; auto.
  - cbn [in_domain] in Hdom. induction Hl as [|x l' Hx _ IH]; [constructor|].
    cbn [forallb] in Hdom. apply andb_true_iff in Hdom. destruct Hdom as [Hdx Hdl].
    constructor; auto.
  - apply (ve_set l l l); [reflexivity|].
    cbn [in_domain] in Hdom.
    apply andb_true_iff in Hdom. destruct Hdom as [Hdom _].
    apply andb_true_iff in Hdom. destruct Hdom as [Hdom _].
    induction Hl as [|x l' Hx _ IH]; [constructor|].
    cbn [forallb] in Hdom. apply andb_true_iff in Hdom. destruct Hdom as [Hdx Hdl].
    constructor; auto.
  - rewrite in_domain_dict in Hdom.
    apply andb_true_iff in Hdom. destruct Hdom as [Hdom _].
    apply andb_true_iff in Hdom. destruct Hdom as [Hdom _].
    induction Hkvs as [|[k x] l' [Hk Hx] _ IH]; [constructor|].
    cbn [forallb fst snd] in Hdom. apply andb_true_iff in Hdom. destruct Hdom as [Hd Hdl].
    apply andb_true_iff in Hd. destruct Hd as [Hdk Hdx].
    constructor; auto.
Qed.

Lemma first_unhashable_none (l : list value) :
  forallb hashable l = true -> first_unhashable l = None.
Proof.
  unfold first_unhashable. induction l as [|x l IH]; [reflexivity|].
  cbn [forallb List.find]. intros H. apply andb_true_iff in H. destruct H as [Hx Hl].
  rewrite Hx. cbn [negb]. apply IH, Hl.
Qed.

(** A set display over pairwise different hashable items holds them. *)
Lemma build_set_distinct (rt : runtime) (l : list value) :
  forallb hashable l = true -> distinct_keys l = true ->
  build_set rt l = Ok (VSet (rt_set_order rt l)).
Proof.
  intros Hh Hd. unfold build_set. rewrite (first_unhashable_none l Hh).
  rewrite fold_set_add_distinct; [reflexivity| |exact Hd].
  apply Forall_forall. reflexivity.
Qed.

Lemma dict_set_fresh (acc : list (value * value)) (k x : value) :
  forallb (fun kv => negb (key_eq k (fst kv))) acc = true ->
  dict_set acc k x = (acc ++ [(k, x)])%list.
Proof.
  induction acc as [|[k' x'] acc IH]; [reflexivity|].
  cbn [forallb fst dict_set]. intros H. apply andb_true_iff in H. destruct H as [Hk Hacc].
  destruct (key_eq k k'); [discriminate|]. rewrite (IH Hacc). reflexivity.
Qed.

Lemma fold_dict_set_distinct (kvs acc : list (value * value)) :
  Forall (fun kv => forallb (fun a => negb (key_eq (fst kv) (fst a))) acc = true) kvs ->
  distinct_keys (map fst kvs) = true ->
  fold_left (fun acc kv => dict_set acc (fst kv) (snd kv)) kvs acc = (acc ++ kvs)%list.
Proof.
  revert acc. induction kvs as [|[k x] r IH]; intros acc Hacc Hd.
  - symmetry. apply app_nil_r.
  - inversion Hacc as [|? ? Hk Hr]; subst. cbn [fst] in Hk.
    cbn [map fst distinct_keys] in Hd. apply andb_true_iff in Hd. destruct Hd as [Hkr Hd].
    cbn [fold_left fst snd]. rewrite (dict_set_fresh acc k x Hk).
    rewrite IH; [rewrite <- app_assoc; reflexivity| |exact Hd].
    rewrite forallb_forall in Hkr.
    rewrite Forall_forall in Hr |- *. intros kv Hkv.
    rewrite forallb_app, (Hr kv Hkv). cbn [forallb fst andb].
    rewrite (Hkr (fst kv)); [reflexivity|].
    apply in_map, list_elem_of_In, Hkv.
Qed.

Lemma build_dict_distinct (rt : runtime) (kvs : list (value * value)) :
  forallb hashable (map fst kvs) = true -> distinct_keys (map fst kvs) = true ->
  build_dict rt kvs = Ok (VDict kvs).
Proof.
  intros Hh Hd. unfold build_dict. rewrite (first_unhashable_none _ Hh).
  rewrite fold_dict_set_distinct; [reflexivity| |exact Hd].
  apply Forall_forall. reflexivity.
Qed.

(** Evaluating the expression a value of the domain reads as gives the
    value back, up to the order in which its sets iterate, and leaves the
    world as it was. *)
Lemma eval_in_domain (rt : runtime) (line : string) (v : value) :
  in_domain v = true ->
  forall w, exists v', eval_expr rt line (expr_of v) w = (Ok v', w) /\ value_equiv v v'.
Proof.
  induction v as [| b | z | s | l Hl | l Hl | l Hl | kvs Hkvs | n r] using value_nested_ind;
    intros Hdom w; try (eexists; split; [reflexivity|constructor]); try discriminate.
  - (* lists *)
    cbn [expr_of]. rewrite eval_list. cbn [in_domain] in Hdom.
    assert (Hall : exists l', eval_all rt line (map expr_of l) w = (Ok l', w)
                              /\ Forall2 value_equiv l l').
    { revert w. induction Hl as [|x r Hx _ IH]; intros w.
      - exists []. split; [reflexivity|constructor].
      - cbn [forallb] in Hdom. apply andb_true_iff in Hdom. destruct Hdom as [Hdx Hdr].
        destruct (Hx Hdx w) as [x' [Hex Hvx]]. destruct (IH Hdr w) as [r' [Her Hvr]].
        exists (x' :: r'). cbn [map eval_all]. rewrite Hex, Her.
        split; [reflexivity|constructor; assumption]. }
    destruct Hall as [l' [Hev Hequiv]]. rewrite Hev.
    eexists. split; [reflexivity|constructor; exact Hequiv].
  - (* tuples *)
    cbn [expr_of]. rewrite eval_tuple. cbn [in_domain] in Hdom.
    assert (Hall : exists l', eval_all rt line (map expr_of l) w = (Ok l', w)
                              /\ Forall2 value_equiv l l').
    { revert w. induction Hl as [|x r Hx _ IH]; intros w.
      - exists []. split; [reflexivity|constructor].
      - cbn [forallb] in Hdom. apply andb_true_iff in Hdom. destruct Hdom as [Hdx Hdr].
        destruct (Hx Hdx w) as [x' [Hex Hvx]]. destruct (IH Hdr w) as [r' [Her Hvr]].
        exists (x' :: r'). cbn [map eval_all]. rewrite Hex, Her.
        split; [reflexivity|constructor; assumption]. }
    destruct Hall as [l' [Hev Hequiv]]. rewrite Hev.
    eexists. split; [reflexivity|constructor; exact Hequiv].
  - (* sets *)
    cbn [expr_of]. rewrite eval_set. pose proof Hdom as Hdom'. cbn [in_domain] in Hdom.
    apply andb_true_iff in Hdom. destruct Hdom as [Hdom Hdist].
    apply andb_true_iff in Hdom. destruct Hdom as [Hdom Hhash].
    rewrite (eval_all_hashable rt line l w Hdom Hhash).
    rewrite (build_set_distinct rt l Hhash Hdist).
    eexists. split; [reflexivity|].
    apply (ve_set l (rt_set_order rt l) (rt_set_order rt l)).
    + symmetry. apply rt_set_order_perm.
    + assert (Hall : Forall (fun x => in_domain x = true) (rt_set_order rt l)).
      { rewrite rt_set_order_perm. apply Forall_forall. intros x Hx.
        rewrite forallb_forall in Hdom. apply Hdom, list_elem_of_In, Hx. }
      induction Hall as [|x m Hx _ IH]; constructor; auto using value_equiv_refl.
  - (* dicts *)
    rewrite expr_of_dict, eval_dict. rewrite in_domain_dict in Hdom.
    apply andb_true_iff in Hdom. destruct Hdom as [Hdom Hdist].
    apply andb_true_iff in Hdom. destruct Hdom as [Hdom Hhash].
    assert (Hall : exists kvs',
               eval_pairs rt line
                 (map (fun kv => (expr_of (fst kv), expr_of (snd kv))) kvs) w = (Ok kvs', w)
               /\ map fst kvs' = map fst kvs
               /\ Forall2 (fun a b => value_equiv (fst a) (fst b)
                                      /\ value_equiv (snd a) (snd b)) kvs kvs').
    { clear Hdist. revert w. induction Hkvs as [|[k x] r [Hk Hx] _ IH]; intros w.
      - exists []. split; [reflexivity|]. split; [reflexivity|constructor].
      - cbn [forallb fst snd] in Hdom. apply andb_true_iff in Hdom.
        destruct Hdom as [Hd Hdr]. apply andb_true_iff in Hd. destruct Hd as [Hdk Hdx].
        cbn [map fst forallb] in Hhash. apply andb_true_iff in Hhash.
        destruct Hhash as [Hhk Hhr].
        cbn [fst snd] in Hk, Hx.
        destruct (Hx Hdx w) as [x' [Hex Hvx]].
        destruct (IH Hdr Hhr w) as [r' [Her [Hkeys Hvr]]].
        exists ((k, x') :: r'). cbn [map eval_pairs fst snd].
        rewrite (eval_hashable rt line k Hdk Hhk w), Hex, Her.
        split; [reflexivity|]. split; [cbn [map fst]; rewrite Hkeys; reflexivity|].
        constructor; [|exact Hvr]. split; [apply value_equiv_refl, Hdk|exact Hvx]. }
    destruct Hall as [kvs' [Hev [Hkeys Hequiv]]]. rewrite Hev.
    rewrite build_dict_distinct by (rewrite Hkeys; assumption).
    eexists. split; [reflexivity|constructor; exact Hequiv].
Qed.
(* ------------------------------------------------------------------ *)
(** ** The codec on the literal domain *)

(** Every value of the domain has an encoding. *)
Lemma repr_total (v : value) : in_domain v = true -> exists t, repr v = Ok t.
Proof.
  induction v as [| b | z | s | l Hl | l Hl | l Hl | kvs Hkvs | n r] using value_nested_ind;
    intros Hdom; try (eexists; reflexivity); try discriminate.
  - destruct b; eexists; reflexivity.
  - cbn [in_domain] in Hdom. rewrite repr_list.
    assert (Hall : exists ss, repr_all l = Ok ss).
    { induction Hl as [|x r Hx _ IH]; [eexists; reflexivity|].
      cbn [forallb] in Hdom. apply andb_true_iff in Hdom. destruct Hdom as [Hdx Hdr].
      destruct (Hx Hdx) as [sx Hsx]. destruct (IH Hdr) as [ss Hss].
      cbn [repr_all]. rewrite Hsx, Hss. eauto. }
    destruct Hall as [ss ->]. eauto.
  - cbn [in_domain] in Hdom. rewrite repr_tuple.
    assert (Hall : exists ss, repr_all l = Ok ss).
    { induction Hl as [|x r Hx _ IH]; [eexists; reflexivity|].
      cbn [forallb] in Hdom. apply andb_true_iff in Hdom. destruct Hdom as [Hdx Hdr].
      destruct (Hx Hdx) as [sx Hsx]. destruct (IH Hdr) as [ss Hss].
      cbn [repr_all]. rewrite Hsx, Hss. eauto. }
    destruct Hall as [[|s [|s' ss]] ->]; eauto.
  - cbn [in_domain] in Hdom.
    apply andb_true_iff in Hdom. destruct Hdom as [Hdom _].
    apply andb_true_iff in Hdom. destruct Hdom as [Hdom _].
    rewrite repr_set.
    assert (Hall : exists ss, repr_all l = Ok ss).
    { induction Hl as [|x r Hx _ IH]; [eexists; reflexivity|].
      cbn [forallb] in Hdom. apply andb_true_iff in Hdom. destruct Hdom as [Hdx Hdr].
      destruct (Hx Hdx) as [sx Hsx]. destruct (IH Hdr) as [ss Hss].
      cbn [repr_all]. rewrite Hsx, Hss. eauto. }
    destruct Hall as [[|s ss] ->]; eauto.
  - rewrite in_domain_dict in Hdom.
    apply andb_true_iff in Hdom. destruct Hdom as [Hdom _].
    apply andb_true_iff in Hdom. destruct Hdom as [Hdom _].
    rewrite repr_dict.
    assert (Hall : exists ss, repr_pairs kvs = Ok ss).
    { induction Hkvs as [|[k x] r [Hk Hx] _ IH]; [eexists; reflexivity|].
      cbn [forallb fst snd] in Hdom. apply andb_true_iff in Hdom.
      destruct Hdom as [Hd Hdr]. apply andb_true_iff in Hd. destruct Hd as [Hdk Hdx].
      cbn [fst snd] in Hk, Hx.
      destruct (Hk Hdk) as [sk Hsk]. destruct (Hx Hdx) as [sx Hsx].
      destruct (IH Hdr) as [ss Hss].
      cbn [repr_pairs]. rewrite Hsk, Hsx, Hss. eauto. }
    destruct Hall as [ss ->]. eauto.
Qed.

(** The encodings that open with a bracket or a brace are those of the
    lists, the dicts and the non-empty sets. *)
Lemma begins_structured_repr (v : value) (t : string) :
  in_domain v = true -> repr v = Ok t -> begins_structured t = bracketed v.
Proof.
  intros Hdom Ht. destruct v as [|[]|z|s|l|l|l|kvs|n r].
  - inversion Ht. reflexivity.
  - inversion Ht. reflexivity.
  - inversion Ht. reflexivity.
  - cbn [repr] in Ht. inversion Ht. unfold repr_Z.
    destruct (repr_N_spec (Z.abs_N z)) as [c [ds [Heq [Hall _]]]]. rewrite Heq.
    destruct (z <? 0)%Z; [reflexivity|].
    simpl in Hall. apply andb_true_iff in Hall. destruct Hall as [Hc _].
    destruct c as [[] [] [] [] [] [] [] []]; try discriminate Hc; reflexivity.
  - cbn [repr] in Ht. inversion Ht. unfold repr_str.
    destruct (repr_quote_cases s) as [-> | ->]; reflexivity.
  - rewrite repr_list in Ht. destruct (repr_all l); [|discriminate].
    inversion Ht. reflexivity.
  - rewrite repr_tuple in Ht.
    destruct (repr_all l) as [[|s [|s' ss]]|]; [| | |discriminate];
      inversion Ht; reflexivity.
  - rewrite repr_set in Ht. destruct l as [|x l'].
    + cbn [repr_all] in Ht. inversion Ht. reflexivity.
    + cbn [repr_all] in Ht. destruct (repr x); [|discriminate].
      destruct (repr_all l'); [|discriminate]. inversion Ht. reflexivity.
  - rewrite repr_dict in Ht. destruct (repr_pairs kvs); [|discriminate].
    inversion Ht. reflexivity.
  - discriminate Hdom.
Qed.

(** The encoding of a value of the domain parses as the expression the
    value reads as. *)
Lemma parse_top_repr (v : value) (t : string) :
  in_domain v = true -> repr v = Ok t -> parse_top t = Some (expr_of v).
Proof.
  intros Hdom Ht. unfold parse_top.
  pose proof (all_read_back v t Hdom Ht (parse_fuel t) EmptyString) as H.
  rewrite sapp_nil_r in H. rewrite H; [reflexivity| |reflexivity].
  unfold parse_fuel. lia.
Qed.

(** [decode] after [encode] on a list, a dict or a non-empty set of the
    domain: the value comes back, and the world is as it was. *)
Lemma decode_encode_structured (rt : runtime) (v : value) (w : world) :
  in_domain v = true -> bracketed v = true ->
  exists t v',
    MyPyon.encode v = Ok t
    /\ MyPyon.decode rt (StrLine t) w = (Ok v', w)
    /\ value_equiv v v'.
Proof.
  intros Hdom Hbr. destruct (repr_total v Hdom) as [t Ht].
  destruct (eval_in_domain rt t v Hdom w) as [v' [Hev Hequiv]].
  exists t, v'. split; [exact Ht|]. split; [|exact Hequiv].
  unfold MyPyon.decode.
  change (startswith "{" t || startswith "[" t) with (begins_structured t).
  rewrite (begins_structured_repr v t Hdom Ht), Hbr.
  unfold py_eval. rewrite (parse_top_repr v t Hdom Ht), Hev. reflexivity.
Qed.

(** [decode] after [encode] on any other value of the domain: the encoding
    itself comes back, as a text. *)
Lemma decode_encode_scalar (rt : runtime) (v : value) (t : string) (w : world) :
  in_domain v = true -> bracketed v = false ->
  MyPyon.encode v = Ok t ->
  MyPyon.decode rt (StrLine t) w = (Ok (VStr t), w).
Proof.
  intros Hdom Hbr Ht. unfold MyPyon.decode.
  change (startswith "{" t || startswith "[" t) with (begins_structured t).
  rewrite (begins_structured_repr v t Hdom Ht), Hbr. reflexivity.
Qed.
(* ------------------------------------------------------------------ *)
(** ** Literals have no effect *)

Lemma is_literal_dict (kvs : list (expr * expr)) :
  is_literal (EDict kvs)
  = forallb (fun kv => is_literal (fst kv) && is_literal (snd kv)) kvs.
Proof.
  cbn [is_literal]. induction kvs as [|[k x] r IH]; [reflexivity|].
  cbn [forallb fst snd]. rewrite <- IH. reflexivity.
Qed.

(** The value of a literal does not depend on the world, and evaluating it
    leaves the world as it was. *)
Lemma eval_literal_pure (rt : runtime) (line : string) (e : expr) :
  is_literal e = true -> exists r, forall w, eval_expr rt line e w = (r, w).
Proof.
  assert (Hitems : forall l, Forall (fun e => is_literal e = true ->
                       exists r, forall w, eval_expr rt line e w = (r, w)) l ->
                     forallb is_literal l = true ->
                     exists r, forall w, eval_all rt line l w = (r, w)).
  { induction 1 as [|x r Hx _ IH]; intros Hlit.
    - eexists. intros w. reflexivity.
    - cbn [forallb] in Hlit. apply andb_true_iff in Hlit. destruct Hlit as [Hlx Hlr].
      destruct (Hx Hlx) as [rx Hrx]. destruct (IH Hlr) as [rr Hrr].
      exists (match rx with
              | Ok v => match rr with Ok vs => Ok (v :: vs) | Raise err => Raise err end
              | Raise err => Raise err
              end).
      intros w. cbn [eval_all]. rewrite Hrx. destruct rx; [rewrite Hrr; destruct rr|];
        reflexivity. }
  induction e as [| b | z | s | | l Hl | l Hl | l Hl | kvs Hkvs | l Hl] using expr_nested_ind;
    intros Hlit; try discriminate; try (eexists; intros w; reflexivity).
  - cbn [is_literal] in Hlit. destruct (Hitems l Hl Hlit) as [r Hr].
    exists (match r with Ok vs => Ok (VList vs) | Raise err => Raise err end).
    intros w. rewrite eval_list, Hr. destruct r; reflexivity.
  - cbn [is_literal] in Hlit. destruct (Hitems l Hl Hlit) as [r Hr].
    exists (match r with Ok vs => Ok (VTuple vs) | Raise err => Raise err end).
    intros w. rewrite eval_tuple, Hr. destruct r; reflexivity.
  - cbn [is_literal] in Hlit. destruct (Hitems l Hl Hlit) as [r Hr].
    exists (match r with Ok vs => build_set rt vs | Raise err => Raise err end).
    intros w. rewrite eval_set, Hr. destruct r; reflexivity.
  - rewrite is_literal_dict in Hlit.
    assert (Hpairs : exists r, forall w, eval_pairs rt line kvs w = (r, w)).
    { induction Hkvs as [|[k x] r [Hk Hx] _ IH].
      - eexists. intros w. reflexivity.
      - cbn [forallb fst snd] in Hlit. apply andb_true_iff in Hlit.
        destruct Hlit as [Hl Hlr]. apply andb_true_iff in Hl. destruct Hl as [Hlk Hlx].
        cbn [fst snd] in Hk, Hx.
        destruct (Hk Hlk) as [rk Hrk]. destruct (Hx Hlx) as [rx Hrx].
        destruct (IH Hlr) as [rr Hrr].
        exists (match rk with
                | Ok vk =>
                    match rx with
                    | Ok vx =>
                        match rr with
                        | Ok vs => Ok ((vk, vx) :: vs)
                        | Raise err => Raise err
                        end
                    | Raise err => Raise err
                    end
                | Raise err => Raise err
                end).
        intros w. cbn [eval_pairs]. rewrite Hrk.
        destruct rk; [rewrite Hrx; destruct rx; [rewrite Hrr; destruct rr|]|];
          reflexivity. }
    destruct Hpairs as [r Hr].
    exists (match r with Ok vs => build_dict rt vs | Raise err => Raise err end).
    intros w. rewrite eval_dict, Hr. destruct r; reflexivity.
Qed.

Lemma expr_of_literal (v : value) : is_literal (expr_of v) = true.
Proof.
  induction v as [| b | z | s | l Hl | l Hl | l Hl | kvs Hkvs | n r] using value_nested_ind;
    try reflexivity.
  - cbn [expr_of is_literal]. induction Hl as [|x r Hx _ IH]; [reflexivity|].
    cbn [map forallb]. rewrite Hx, IH. reflexivity.
  - cbn [expr_of is_literal]. induction Hl as [|x r Hx _ IH]; [reflexivity|].
    cbn [map forallb]. rewrite Hx, IH. reflexivity.
  - cbn [expr_of is_literal]. induction Hl as [|x r Hx _ IH]; [reflexivity|].
    cbn [map forallb]. rewrite Hx, IH. reflexivity.
  - rewrite expr_of_dict, is_literal_dict.
    induction Hkvs as [|[k x] r [Hk Hx] _ IH]; [reflexivity|].
    cbn [map forallb fst snd] in *. rewrite Hk, Hx, IH. reflexivity.
Qed.

(** On an effect-free line [decode] is a function of the line alone and
    leaves the world as it was. *)
Lemma decode_effect_free (rt : runtime) (s : string) :
  effect_free_line s -> exists r, forall w, MyPyon.decode rt (StrLine s) w = (r, w).
Proof.
  intros Hfree. unfold MyPyon.decode.
  change (startswith "{" s || startswith "[" s) with (begins_structured s).
  destruct (begins_structured s) eqn:Hb.
  - destruct Hfree as [Hf | [e [Hp Hlit]]]; [congruence|].
    destruct (eval_literal_pure rt s e Hlit) as [r Hr].
    exists (match r with
            | Ok v => Ok v
            | Raise err => if is_Exception (exn_cls err) then Ok (VStr s) else Raise err
            end).
    intros w. unfold py_eval. rewrite Hp, Hr.
    destruct r as [v|err]; [reflexivity|]. destruct (is_Exception (exn_cls err)); reflexivity.
  - eexists. intros w. reflexivity.
Qed.

Lemma encoding_effect_free (v : value) (t : string) :
  in_domain v = true -> MyPyon.encode v = Ok t -> effect_free_line t.
Proof.
  intros Hdom Ht. right. exists (expr_of v). split.
  - apply parse_top_repr; assumption.
  - apply expr_of_literal.
Qed.

(* ------------------------------------------------------------------ *)
(** ** The codec: round trip, decoding, purity *)










(* ------------------------------------------------------------------ *)
(** ** Worked examples *)

Example repr_sample :
  repr sample_value
  = Ok ("{'a': [-12, None, (True,)], 0: {" ++ quoted "it's" ++ ", '"
        ++ str1 backslash ++ "nx'}}").
Proof. reflexivity. Qed.

Example decode_sample :
  MyPyon.decode plain_runtime
    (StrLine ("{'a': [-12, None, (True,)], 0: {" ++ quoted "it's" ++ ", '"
              ++ str1 backslash ++ "nx'}}")) idle_world
  = (Ok sample_value, idle_world).
Proof. reflexivity. Qed.

(** A tuple does not come back: its encoding opens with a parenthesis. *)
Example decode_tuple_text :
  MyPyon.decode plain_runtime (StrLine "(4, 9)") idle_world = (Ok (VStr "(4, 9)"), idle_world).
Proof. reflexivity. Qed.

(** Handed a [bytes] object, [decode] raises: the prefix test mixes
    [bytes] and [str]. *)
Example decode_bytes_raises :
  MyPyon.decode plain_runtime (BytesLine "[1]") idle_world
  = (Raise (Exn TypeError "interpreter error"), idle_world).
Proof. reflexivity. Qed.

(** Malformed structured input degrades to a text. *)
Example decode_malformed :
  MyPyon.decode plain_runtime (StrLine "{[1]}") idle_world = (Ok (VStr "{[1]}"), idle_world).
Proof. reflexivity. Qed.

(** An error outside [Exception] raised by a method leaves the envelope
    layer. *)
Example base_exception_escapes :
  NanoNDSPHandler._process_and_pyonize plain_runtime
    (PyObject "Device" None
       {[ "stop" := AMethod (PyFunction (plain_spec ["self"]) None
                               (fun _ _ w => (Raise (Exn SystemExit "0"), w))) ]})
    (call_request "stop" []) idle_world
  = (Raise (Exn SystemExit "0"), idle_world).
Proof. vm_compute. reflexivity. Qed.

(** The method list of an [ExampleAdder] has [add] and [print] and no
    [__init__]. *)
Example adder_method_list :
  exists d1 d2,
    NanoNDSPHandler._process_action plain_runtime (ExampleAdder.instance plain_runtime)
      (VDict [(VStr "action", VStr "get_rpc_method_list")]) idle_world
    = (Ok (VDict [(VStr "docstring", VNone);
                  (VStr "methods", VDict [(VStr "add", d1); (VStr "print", d2)])]),
       idle_world).
Proof. eexists. eexists. vm_compute. reflexivity. Qed.

(* ================================================================== *)
(** * Further properties of the handler, the dispatcher and the codec *)

(* ------------------------------------------------------------------ *)
(** ** The catalog *)

(** X1.  The catalog sent after the magic line lists the registry's names
    in ascending order, each once, and lists a name exactly when a lookup
    of that name in the registry succeeds. *)
Theorem catalog_lists_registry (srv : server) :
  exists names,
    NanoNDSPHandler.catalog srv
    = VDict [(VStr "targets", VList (map VStr names));
             (VStr "description", description srv)]
    /\ StronglySorted String.le names
    /\ NoDup names
    /\ forall n, n ∈ names <-> exists e, targets srv !! n = Some e.
Proof.
  exists (merge_sort String.le (map fst (map_to_list (targets srv)))).
  split; [reflexivity|]. split; [apply StronglySorted_merge_sort; apply _|]. split.
  - rewrite merge_sort_Permutation. apply (NoDup_fst_map_to_list (targets srv)).
  - intros n. rewrite merge_sort_Permutation.
    change (map fst (map_to_list (targets srv))) with ((map_to_list (targets srv)).*1).
    rewrite list_elem_of_fmap. split.
    + intros [[n' e] [-> Hin]]. apply elem_of_map_to_list in Hin. eauto.
    + intros [e He]. exists (n, e). split; [reflexivity|].
      apply elem_of_map_to_list, He.
Qed.

(* ------------------------------------------------------------------ *)
(** ** Ends of the connection *)

Lemma magic_matches :
  String.eqb NanoNDSPHandler._init_string NanoNDSPHandler._init_string = true.
Proof. apply String.eqb_refl. Qed.

(** X2.  A client that disconnects right after the catalog, or right
    after the selection of a registered instance, ends the handler without
    an error: the writer holds the catalog (and then the method names) and
    is closed. *)
Theorem disconnect_after_handshake
    (rt : runtime) (srv : server) (target : pyobject) (line text ctext : string)
    (wr : writer) (w : world) :
  MyPyon.encode (NanoNDSPHandler.catalog srv) = Ok ctext ->
  wr_script wr = [] ->
  line <> EmptyString ->
  utf8_decode rt line = Ok text ->
  targets srv !! drop_last text = Some (Instance target) ->
  (exists w',
      NanoNDSPHandler.handle rt srv [RLine NanoNDSPHandler._init_string] wr w
      = (Ok tt,
         Session [] (Writer (wr_sent wr ++ [utf8_encode (ctext ++ str1 newline)]) [] true) w'))
  /\ (exists ntext w',
        NanoNDSPHandler.handle rt srv
          [RLine NanoNDSPHandler._init_string; RLine line] wr w
        = (Ok tt,
           Session []
             (Writer (wr_sent wr ++ [utf8_encode (ctext ++ str1 newline);
                                     utf8_encode (ntext ++ str1 newline)]) [] true) w')).
Proof.
  intros Hcat Hwr Hline Hutf Htarget. split.
  - eexists. unfold NanoNDSPHandler.handle, NanoNDSPHandler.handle_body.
    cbn [readline]. rewrite magic_matches. cbn [negb]. rewrite Hcat.
    unfold write. rewrite Hwr. reflexivity.
  - destruct (handshake_reaches_serving rt srv target line text ctext [] wr w
                Hcat Hwr Hline Hutf Htarget) as [l [ntext [_ [_ Hrun]]]].
    exists ntext. eexists. unfold NanoNDSPHandler.handle. rewrite Hrun. reflexivity.
Qed.

Lemma disconnect_after_handshake_witness :
  exists ntext w',
    NanoNDSPHandler.handle plain_runtime (adder_server plain_runtime)
      [RLine NanoNDSPHandler._init_string; RLine ("adder" ++ str1 newline)]
      fresh_writer idle_world
    = (Ok tt,
       Session []
         (Writer (wr_sent fresh_writer
                  ++ [utf8_encode ("{'targets': ['adder'], 'description': ''}" ++ str1 newline);
                      utf8_encode (ntext ++ str1 newline)]) [] true) w').
Proof.
  apply (disconnect_after_handshake plain_runtime (adder_server plain_runtime)
           (ExampleAdder.instance plain_runtime)
           ("adder" ++ str1 newline) ("adder" ++ str1 newline)
           "{'targets': ['adder'], 'description': ''}" fresh_writer idle_world).
  - vm_compute. reflexivity.
  - reflexivity.
  - vm_compute. discriminate.
  - vm_compute. reflexivity.
  - vm_compute. reflexivity.
Defined.

(** X3.  A callable registry entry is called when it is selected, once,
    on the world as the handshake left it: the object it returns is the
    target served on this connection; if the call raises, nothing is
    written after the catalog and the error leaves the handler (a
    transport error is swallowed). *)
Theorem factory_entry_is_called_on_selection
    (rt : runtime) (srv : server) (make : world -> result pyobject * world)
    (line text ctext : string) (rest : list read_event) (wr : writer) (w : world) :
  MyPyon.encode (NanoNDSPHandler.catalog srv) = Ok ctext ->
  wr_script wr = [] ->
  line <> EmptyString ->
  utf8_decode rt line = Ok text ->
  targets srv !! drop_last text = Some (Factory make) ->
  match make (debug (DebugReceived 2 line)
                (debug (DebugReceived 1 NanoNDSPHandler._init_string) w)) with
  | (Ok target, w2) =>
      exists ntext,
        NanoNDSPHandler.handle_body rt srv
          (RLine NanoNDSPHandler._init_string :: RLine line :: rest) wr w
        = NanoNDSPHandler.serve_loop rt target 2 rest
            (Writer (wr_sent wr ++ [utf8_encode (ctext ++ str1 newline);
                                    utf8_encode (ntext ++ str1 newline)]) [] (wr_closed wr))
            (debug (DebugSendingMsg (utf8_encode (ntext ++ str1 newline))) w2)
  | (Raise err, w2) =>
      NanoNDSPHandler.handle rt srv
        (RLine NanoNDSPHandler._init_string :: RLine line :: rest) wr w
      = (if is_transport_error (exn_cls err) then Ok tt else Raise err,
         Session rest
           (Writer (wr_sent wr ++ [utf8_encode (ctext ++ str1 newline)]) [] true) w2)
  end.
Proof.
  intros Hcat Hwr Hline Hutf Htarget.
  destruct (make _) as [[target|err] w2] eqn:Hmake.
  - destruct (member_names_set rt target) as [l [Hset [Hperm _]]].
    destruct (permutation_of_texts l _ Hperm) as [names' ->].
    assert (Henc : exists ntext, MyPyon.encode (VSet (map VStr names')) = Ok ntext).
    { unfold MyPyon.encode. rewrite repr_set, repr_all_str.
      destruct (map repr_str names'); eauto. }
    destruct Henc as [ntext Henc]. exists ntext.
    unfold NanoNDSPHandler.handle_body. cbn [readline].
    rewrite magic_matches. cbn [negb]. rewrite Hcat.
    unfold write at 1. rewrite Hwr.
    destruct line as [|c line']; [congruence|].
    cbn [readline]. cbv beta iota zeta. rewrite Hutf, Htarget, Hmake, Hset.
    cbn [mbind result_bind rbind]. rewrite Henc.
    unfold write. cbn [wr_script wr_sent wr_closed].
    rewrite <- app_assoc. reflexivity.
  - unfold NanoNDSPHandler.handle, NanoNDSPHandler.handle_body. cbn [readline].
    rewrite magic_matches. cbn [negb]. rewrite Hcat.
    unfold write at 1. rewrite Hwr.
    destruct line as [|c line']; [congruence|].
    cbn [readline]. cbv beta iota zeta. rewrite Hutf, Htarget, Hmake.
    reflexivity.
Qed.

Lemma factory_entry_witness :
  exists ntext,
    NanoNDSPHandler.handle_body plain_runtime (class_server plain_runtime)
      [RLine NanoNDSPHandler._init_string; RLine ("adder" ++ str1 newline);
       RLine add_request] fresh_writer idle_world
    = NanoNDSPHandler.serve_loop plain_runtime (ExampleAdder.instance plain_runtime) 2
        [RLine add_request]
        (Writer (wr_sent fresh_writer
                 ++ [utf8_encode ("{'targets': ['adder'], 'description': ''}" ++ str1 newline);
                     utf8_encode (ntext ++ str1 newline)]) [] (wr_closed fresh_writer))
        (debug (DebugSendingMsg (utf8_encode (ntext ++ str1 newline)))
           (emit (Printed ("ExampleAdder initialized" ++ str1 newline))
              (debug (DebugReceived 2 ("adder" ++ str1 newline))
                 (debug (DebugReceived 1 NanoNDSPHandler._init_string) idle_world)))).
Proof.
  apply (factory_entry_is_called_on_selection plain_runtime (class_server plain_runtime)
           (fun w => (Ok (ExampleAdder.instance plain_runtime),
                      emit (Printed ("ExampleAdder initialized" ++ str1 newline)) w))
           ("adder" ++ str1 newline) ("adder" ++ str1 newline)
           "{'targets': ['adder'], 'description': ''}"
           [RLine add_request] fresh_writer idle_world).
  - vm_compute. reflexivity.
  - reflexivity.
  - vm_compute. discriminate.
  - vm_compute. reflexivity.
  - vm_compute. reflexivity.
Defined.

(** X4.  In the serving state an error raised by the read ends the
    handler with what was written so far: a transport error (connection
    reset, connection aborted, broken pipe) is swallowed, any other error
    leaves the handler; the writer is closed either way and the lines that
    follow are not read. *)
Theorem read_error_ends_serving
    (rt : runtime) (srv : server) (target : pyobject) (line text ctext : string)
    (err : exn) (rest : list read_event) (wr : writer) (w : world) :
  MyPyon.encode (NanoNDSPHandler.catalog srv) = Ok ctext ->
  wr_script wr = [] ->
  line <> EmptyString ->
  utf8_decode rt line = Ok text ->
  targets srv !! drop_last text = Some (Instance target) ->
  exists ntext w',
    NanoNDSPHandler.handle rt srv
      (RLine NanoNDSPHandler._init_string :: RLine line :: RError err :: rest) wr w
    = (if is_transport_error (exn_cls err) then Ok tt else Raise err,
       Session rest
         (Writer (wr_sent wr ++ [utf8_encode (ctext ++ str1 newline);
                                 utf8_encode (ntext ++ str1 newline)]) [] true) w').
Proof.
  intros Hcat Hwr Hline Hutf Htarget.
  destruct (handshake_reaches_serving rt srv target line text ctext (RError err :: rest) wr w
              Hcat Hwr Hline Hutf Htarget) as [l [ntext [_ [_ Hrun]]]].
  exists ntext. eexists. unfold NanoNDSPHandler.handle. rewrite Hrun. reflexivity.
Qed.

Lemma read_error_witness :
  exists ntext w',
    NanoNDSPHandler.handle plain_runtime (adder_server plain_runtime)
      [RLine NanoNDSPHandler._init_string; RLine ("adder" ++ str1 newline);
       RError (Exn ConnectionResetError "reset"); RLine add_request]
      fresh_writer idle_world
    = (if is_transport_error (exn_cls (Exn ConnectionResetError "reset"))
       then Ok tt else Raise (Exn ConnectionResetError "reset"),
       Session [RLine add_request]
         (Writer (wr_sent fresh_writer
                  ++ [utf8_encode ("{'targets': ['adder'], 'description': ''}" ++ str1 newline);
                      utf8_encode (ntext ++ str1 newline)]) [] true) w').
Proof.
  apply (read_error_ends_serving plain_runtime (adder_server plain_runtime)
           (ExampleAdder.instance plain_runtime)
           ("adder" ++ str1 newline) ("adder" ++ str1 newline)
           "{'targets': ['adder'], 'description': ''}").
  - vm_compute. reflexivity.
  - reflexivity.
  - vm_compute. discriminate.
  - vm_compute. reflexivity.
  - vm_compute. reflexivity.
Defined.

(* ------------------------------------------------------------------ *)
(** ** What the handler keeps, whatever the client sends *)

Lemma utf8_encode_app (s t : string) :
  utf8_encode (s ++ t) = utf8_encode s ++ utf8_encode t.
Proof.
  induction s as [|c s IH]; [reflexivity|].
  rewrite sapp_cons. cbn [utf8_encode]. destruct (N_of_ascii c <? 128)%N;
    rewrite IH; reflexivity.
Qed.

Lemma ends_with_newline_app (s : string) : ends_with_newline (s ++ str1 newline) = true.
Proof.
  induction s as [|c s IH]; [reflexivity|].
  rewrite sapp_cons. cbn [ends_with_newline].
  destruct (s ++ str1 newline) eqn:E; [destruct s; discriminate E|exact IH].
Qed.

Lemma chunk_ends_with_newline (t : string) :
  ends_with_newline (utf8_encode (t ++ str1 newline)) = true.
Proof. rewrite utf8_encode_app. apply ends_with_newline_app. Qed.

Lemma write_cases (data : string) (wr wr' : writer) (r : result unit) :
  write data wr = (r, wr') ->
  wr_closed wr' = wr_closed wr
  /\ ((exists err, r = Raise err) /\ wr_sent wr' = wr_sent wr
      \/ r = Ok tt /\ wr_sent wr' = (wr_sent wr ++ [data])%list).
Proof.
  unfold write. destruct (wr_script wr) as [|[err|] script]; intros H;
    inversion H; subst; cbn; eauto.
Qed.

Lemma run_keeps_stop (ev : read_event) (rest : list read_event) (wr : writer) (w : world) :
  run_keeps (ev :: rest) wr (Session rest wr w).
Proof.
  split; [reflexivity|]. exists [ev], []. cbn. rewrite app_nil_r.
  repeat split; [constructor|lia].
Qed.

Lemma run_keeps_step (ev : read_event) (rest : list read_event) (wr wr' : writer)
    (data : string) (s : session) :
  wr_closed wr' = wr_closed wr ->
  wr_sent wr' = (wr_sent wr ++ [data])%list ->
  ends_with_newline data = true ->
  run_keeps rest wr' s ->
  run_keeps (ev :: rest) wr s.
Proof.
  intros Hc Hs Hd [Hclosed [consumed [new [Hin [Hsent [Hall Hlen]]]]]].
  split; [congruence|]. exists (ev :: consumed), (data :: new).
  split; [cbn; rewrite Hin; reflexivity|].
  split; [rewrite Hsent, Hs, <- app_assoc; reflexivity|].
  split; [constructor; assumption|cbn; lia].
Qed.

Lemma serve_loop_keeps (ins : list read_event) :
  forall rt target linecnt wr w r s,
    NanoNDSPHandler.serve_loop rt target linecnt ins wr w = (r, s) ->
    run_keeps ins wr s.
Proof.
  induction ins as [|ev rest IH]; intros rt target linecnt wr w r s Hrun.
  - cbn in Hrun. inversion Hrun; subst. split; [reflexivity|].
    exists [], []. cbn. rewrite app_nil_r. repeat split; [constructor|lia].
  - cbn [NanoNDSPHandler.serve_loop] in Hrun. destruct ev as [line|err].
    + cbv zeta in Hrun. destruct line as [|c line'].
      * inversion Hrun; subst. apply run_keeps_stop.
      * destruct (utf8_decode rt (String c line')) as [text|e];
          [|inversion Hrun; subst; apply run_keeps_stop].
        destruct (MyPyon.decode rt (StrLine text) _) as [[obj|e] w1];
          [|inversion Hrun; subst; apply run_keeps_stop].
        destruct (NanoNDSPHandler._process_and_pyonize rt target obj w1) as [[reply|e] w2];
          [|inversion Hrun; subst; apply run_keeps_stop].
        destruct (write _ wr) as [[[]|e] wr'] eqn:Hw.
        -- destruct (write_cases _ _ _ _ Hw) as [Hc [[[e He] _]|[_ Hs]]]; [discriminate|].
           apply (run_keeps_step _ rest wr wr' _ s Hc Hs (chunk_ends_with_newline reply)).
           apply (IH _ _ _ _ _ _ _ Hrun).
        -- destruct (write_cases _ _ _ _ Hw) as [Hc [[_ Hs]|[He _]]]; [|discriminate].
           inversion Hrun; subst. split; [exact Hc|].
           exists [RLine (String c line')], []. cbn. rewrite app_nil_r.
           repeat split; [assumption|constructor|lia].
    + inversion Hrun; subst. apply run_keeps_stop.
Qed.

Lemma run_keeps_same (ins : list read_event) (wr wr' : writer) (w : world) :
  wr_closed wr' = wr_closed wr -> wr_sent wr' = wr_sent wr ->
  run_keeps ins wr (Session [] wr' w) /\
  forall ev rest, ins = ev :: rest -> run_keeps ins wr (Session rest wr' w).
Proof.
  intros Hc Hs. split.
  - split; [exact Hc|]. exists ins, []. cbn. rewrite !app_nil_r.
    repeat split; [exact Hs|constructor|lia].
  - intros ev rest ->. split; [exact Hc|]. exists [ev], []. cbn. rewrite app_nil_r.
    repeat split; [exact Hs|constructor|lia].
Qed.

Lemma handle_body_keeps (rt : runtime) (srv : server) (ins : list read_event)
    (wr : writer) (w : world) (r : result unit) (s : session) :
  NanoNDSPHandler.handle_body rt srv ins wr w = (r, s) -> run_keeps ins wr s.
Proof.
  unfold NanoNDSPHandler.handle_body. intros Hrun.
  destruct ins as [|[line|err] rest]; cbn [readline] in Hrun.
  - cbn in Hrun. inversion Hrun; subst. apply (run_keeps_same [] wr wr w); reflexivity.
  - destruct (negb (String.eqb line NanoNDSPHandler._init_string));
      [inversion Hrun; subst; apply run_keeps_stop|].
    destruct (MyPyon.encode (NanoNDSPHandler.catalog srv)) as [ctext|e];
      [|inversion Hrun; subst; apply run_keeps_stop].
    destruct (write _ wr) as [[[]|e] wr1] eqn:Hw1.
    2:{ destruct (write_cases _ _ _ _ Hw1) as [Hc [[_ Hs]|[He _]]]; [|discriminate].
        inversion Hrun; subst.
        apply (proj2 (run_keeps_same _ wr wr1 _ Hc Hs) _ _ eq_refl). }
    destruct (write_cases _ _ _ _ Hw1) as [Hc1 [[[e He] _]|[_ Hs1]]]; [discriminate|].
    apply (run_keeps_step _ rest wr wr1 _ s Hc1 Hs1 (chunk_ends_with_newline ctext)).
    destruct rest as [|[line2|err2] rest2]; cbn [readline] in Hrun.
    + inversion Hrun; subst. apply (run_keeps_same [] wr1 wr1 _); reflexivity.
    + destruct line2 as [|c line2'];
        [inversion Hrun; subst; apply run_keeps_stop|].
      cbv zeta in Hrun.
      destruct (utf8_decode rt (String c line2')) as [text|e];
        [|inversion Hrun; subst; apply run_keeps_stop].
      destruct (targets srv !! drop_last text) as [e|];
        [|inversion Hrun; subst; apply run_keeps_stop].
      destruct (match e with Instance o => _ | Factory make => _ end) as [[target|e'] w2];
        [|inversion Hrun; subst; apply run_keeps_stop].
      destruct (mbind _ _) as [ntext|e'];
        [|inversion Hrun; subst; apply run_keeps_stop].
      destruct (write _ wr1) as [[[]|e'] wr2] eqn:Hw2.
      2:{ destruct (write_cases _ _ _ _ Hw2) as [Hc [[_ Hs]|[He _]]]; [|discriminate].
          inversion Hrun; subst.
          apply (proj2 (run_keeps_same _ wr1 wr2 _ Hc Hs) _ _ eq_refl). }
      destruct (write_cases _ _ _ _ Hw2) as [Hc2 [[[e' He] _]|[_ Hs2]]]; [discriminate|].
      apply (run_keeps_step _ rest2 wr1 wr2 _ s Hc2 Hs2 (chunk_ends_with_newline ntext)).
      apply (serve_loop_keeps _ _ _ _ _ _ _ _ Hrun).
    + inversion Hrun; subst. apply run_keeps_stop.
  - inversion Hrun; subst. apply run_keeps_stop.
Qed.

(** X5.  Whatever the registry, the connection and the client's lines:
    [handle] leaves the writer closed; it keeps what the writer held and
    adds only newline-terminated chunks, at most one for each line it
    read; it reads the lines in order and leaves the others unread; and no
    transport error ever leaves it. *)
Theorem handle_keeps_the_connection
    (rt : runtime) (srv : server) (ins : list read_event) (wr : writer) (w : world)
    (r : result unit) (s : session) :
  NanoNDSPHandler.handle rt srv ins wr w = (r, s) ->
  wr_closed (s_out s) = true
  /\ (exists consumed new,
        ins = (consumed ++ s_in s)%list
        /\ wr_sent (s_out s) = (wr_sent wr ++ new)%list
        /\ Forall (fun chunk => ends_with_newline chunk = true) new
        /\ (List.length new <= List.length consumed)%nat)
  /\ (forall err, r = Raise err -> is_transport_error (exn_cls err) = false).
Proof.
  unfold NanoNDSPHandler.handle. intros Hrun.
  destruct (NanoNDSPHandler.handle_body rt srv ins wr w) as [r0 s0] eqn:Hbody.
  inversion Hrun; subst. clear Hrun.
  destruct (handle_body_keeps rt srv ins wr w r0 s0 Hbody) as [_ Hkeep].
  split; [reflexivity|]. split; [exact Hkeep|].
  intros err Herr. destruct r0 as [[]|e]; [discriminate|].
  destruct (is_transport_error (exn_cls e)) eqn:Ht; [discriminate|].
  inversion Herr; subst. exact Ht.
Qed.

Lemma handle_keeps_witness :
  wr_closed (s_out (snd (NanoNDSPHandler.handle plain_runtime (adder_server plain_runtime)
                           [RLine NanoNDSPHandler._init_string;
                            RLine ("adder" ++ str1 newline); RLine bad_utf8_line]
                           fresh_writer idle_world))) = true.
Proof.
  apply (handle_keeps_the_connection plain_runtime (adder_server plain_runtime)
           [RLine NanoNDSPHandler._init_string; RLine ("adder" ++ str1 newline);
            RLine bad_utf8_line] fresh_writer idle_world
           (fst (NanoNDSPHandler.handle plain_runtime (adder_server plain_runtime)
                   [RLine NanoNDSPHandler._init_string;
                    RLine ("adder" ++ str1 newline); RLine bad_utf8_line]
                   fresh_writer idle_world))).
  vm_compute. reflexivity.
Defined.

(* ------------------------------------------------------------------ *)
(** ** Requests the dispatcher refuses *)

Lemma failed_reply (rt : runtime) (target : pyobject) (obj : value) (w w1 : world)
    (err : exn) :
  NanoNDSPHandler._process_action rt target obj w = (Raise err, w1) ->
  is_Exception (exn_cls err) = true ->
  NanoNDSPHandler._process_and_pyonize rt target obj w
  = (Ok ("{'status': 'failed', 'exception': " ++ repr_str (exn_str err) ++ "}"),
     emit (ErrorReport err) w1).
Proof.
  intros Hact Hexc. unfold NanoNDSPHandler._process_and_pyonize, NanoNDSPHandler.on_exception.
  rewrite Hact, Hexc, encode_failed_envelope. reflexivity.
Qed.

(** X6.  A request whose action is neither [get_rpc_method_list] nor
    [call] is answered with the Failed envelope carrying
    [Unknown action: ] followed by the text of the action; no member of
    the target is touched. *)
Theorem unknown_action_is_reported
    (rt : runtime) (target : pyobject) (obj action : value) (text : string) (w : world) :
  subscript rt obj "action" = Ok action ->
  value_is_str action "get_rpc_method_list" = false ->
  value_is_str action "call" = false ->
  py_str action = Ok text ->
  NanoNDSPHandler._process_and_pyonize rt target obj w
  = (Ok ("{'status': 'failed', 'exception': "
         ++ repr_str ("Unknown action: " ++ text) ++ "}"),
     emit (ErrorReport (Exn ValueError ("Unknown action: " ++ text))) w).
Proof.
  intros Hact Hlist Hcall Hstr.
  apply (failed_reply rt target obj w w (Exn ValueError ("Unknown action: " ++ text)));
    [|reflexivity].
  unfold NanoNDSPHandler._process_action. rewrite Hact, Hlist, Hcall, Hstr. reflexivity.
Qed.

Lemma unknown_action_witness :
  NanoNDSPHandler._process_and_pyonize plain_runtime (ExampleAdder.instance plain_runtime)
    (VDict [(VStr "action", VInt 5)]) idle_world
  = (Ok ("{'status': 'failed', 'exception': " ++ repr_str ("Unknown action: " ++ "5") ++ "}"),
     emit (ErrorReport (Exn ValueError ("Unknown action: " ++ "5"))) idle_world).
Proof.
  apply (unknown_action_is_reported plain_runtime (ExampleAdder.instance plain_runtime)
           (VDict [(VStr "action", VInt 5)]) (VInt 5) "5" idle_world); reflexivity.
Defined.

(** X7.  A request mapping without the key [action], and a [call] request
    without the key [name], are answered with the Failed envelope of a
    KeyError, whose text is the missing key in quotes; no member of the
    target is touched. *)
Theorem missing_key_is_reported
    (rt : runtime) (target : pyobject) (kvs : list (value * value)) (w : world) :
  (dict_lookup kvs (VStr "action") = None ->
   NanoNDSPHandler._process_and_pyonize rt target (VDict kvs) w
   = (Ok ("{'status': 'failed', 'exception': " ++ quoted "'action'" ++ "}"),
      emit (ErrorReport (Exn KeyError "'action'")) w))
  /\ (dict_lookup kvs (VStr "action") = Some (VStr "call") ->
      (exists text, py_str (VDict kvs) = Ok text) ->
      dict_lookup kvs (VStr "name") = None ->
      NanoNDSPHandler._process_and_pyonize rt target (VDict kvs) w
      = (Ok ("{'status': 'failed', 'exception': " ++ quoted "'name'" ++ "}"),
         emit (ErrorReport (Exn KeyError "'name'")) w)).
Proof.
  split.
  - intros Hnone.
    apply (failed_reply rt target (VDict kvs) w w (Exn KeyError "'action'")); [|reflexivity].
    unfold NanoNDSPHandler._process_action, subscript. rewrite Hnone. reflexivity.
  - intros Hcall [text Hstr] Hnone.
    apply (failed_reply rt target (VDict kvs) w w (Exn KeyError "'name'")); [|reflexivity].
    unfold NanoNDSPHandler._process_action, subscript. rewrite Hcall.
    cbn [value_is_str].
    replace (String.eqb "call" "get_rpc_method_list") with false by reflexivity.
    rewrite String.eqb_refl, Hstr, Hnone. reflexivity.
Qed.

Lemma missing_key_witness :
  NanoNDSPHandler._process_and_pyonize plain_runtime (ExampleAdder.instance plain_runtime)
    (VDict [(VStr "name", VStr "add")]) idle_world
  = (Ok ("{'status': 'failed', 'exception': " ++ quoted "'action'" ++ "}"),
     emit (ErrorReport (Exn KeyError "'action'")) idle_world).
Proof.
  apply (proj1 (missing_key_is_reported plain_runtime (ExampleAdder.instance plain_runtime)
                  [(VStr "name", VStr "add")] idle_world)).
  reflexivity.
Defined.

(** X8.  A [call] request naming something the target does not have is
    answered with the Failed envelope of an AttributeError; one naming a
    member that is not callable, with that of a TypeError.  In both cases
    nothing of the target runs: the world only gains the error report. *)
Theorem uncallable_name_is_reported
    (rt : runtime) (target : pyobject) (obj av kv : value) (name text : string)
    (args : list value) (kwargs : list (string * value)) (w : world) :
  subscript rt obj "action" = Ok (VStr "call") ->
  py_str obj = Ok text ->
  subscript rt obj "name" = Ok (VStr name) ->
  (o_attrs target !! name = None ->
   NanoNDSPHandler._process_and_pyonize rt target obj w
   = (Ok ("{'status': 'failed', 'exception': "
          ++ repr_str (rt_message rt (ErrNoAttribute (o_class target) name)) ++ "}"),
      emit (ErrorReport (Exn AttributeError
                           (rt_message rt (ErrNoAttribute (o_class target) name)))) w))
  /\ (forall v,
        o_attrs target !! name = Some (AData v) ->
        subscript rt obj "args" = Ok av ->
        subscript rt obj "kwargs" = Ok kv ->
        star_args rt av = Ok args ->
        star_star_args rt kv = Ok kwargs ->
        NanoNDSPHandler._process_and_pyonize rt target obj w
        = (Ok ("{'status': 'failed', 'exception': "
               ++ repr_str (rt_message rt (ErrNotCallable (VStr name))) ++ "}"),
           emit (ErrorReport (Exn TypeError (rt_message rt (ErrNotCallable (VStr name))))) w)).
Proof.
  intros Hact Hstr Hname. split.
  - intros Hnone.
    apply (failed_reply rt target obj w w
             (Exn AttributeError (rt_message rt (ErrNoAttribute (o_class target) name))));
      [|reflexivity].
    unfold NanoNDSPHandler._process_action. rewrite Hact. cbn [value_is_str].
    replace (String.eqb "call" "get_rpc_method_list") with false by reflexivity.
    rewrite String.eqb_refl, Hstr, Hname. unfold getattr. rewrite Hnone. reflexivity.
  - intros v Hattr Hav Hkv Hargs Hkwargs.
    apply (failed_reply rt target obj w w
             (Exn TypeError (rt_message rt (ErrNotCallable (VStr name))))); [|reflexivity].
    rewrite (call_dispatch rt target obj av kv name text (AData v) args kwargs w);
      try assumption.
    reflexivity.
Qed.

Lemma uncallable_name_witness :
  NanoNDSPHandler._process_and_pyonize plain_runtime (ExampleAdder.instance plain_runtime)
    (call_request "sub" [VInt 4; VInt 9]) idle_world
  = (Ok ("{'status': 'failed', 'exception': "
         ++ repr_str (rt_message plain_runtime (ErrNoAttribute "ExampleAdder" "sub")) ++ "}"),
     emit (ErrorReport (Exn AttributeError
                          (rt_message plain_runtime (ErrNoAttribute "ExampleAdder" "sub"))))
       idle_world).
Proof.
  apply (proj1 (uncallable_name_is_reported plain_runtime
                  (ExampleAdder.instance plain_runtime)
                  (call_request "sub" [VInt 4; VInt 9]) (VList [VInt 4; VInt 9]) (VDict [])
                  "sub" "{'action': 'call', 'name': 'sub', 'args': [4, 9], 'kwargs': {}}"
                  [VInt 4; VInt 9] [] idle_world eq_refl eq_refl eq_refl)).
  vm_compute. reflexivity.
Defined.

(* ------------------------------------------------------------------ *)
(** ** The order of the method list *)

#[local] Instance by_name_trans : Transitive by_name.
Proof. intros a b c. unfold by_name. apply transitivity. Qed.

#[local] Instance by_name_total : Total by_name.
Proof. intros a b. unfold by_name. apply total. apply _. Qed.

Lemma getmembers_sorted (target : pyobject) :
  StronglySorted String.le (map fst (getmembers_ismethod target)).
Proof.
  unfold getmembers_ismethod.
  assert (H : StronglySorted by_name
                (merge_sort by_name
                   (filter (fun p => is_method (snd p) = true)
                      (map_to_list (o_attrs target)))))
    by (apply StronglySorted_merge_sort; apply _).
  induction H as [|a l Hl IH Hall]; [constructor|].
  cbn [map]. constructor; [exact IH|].
  apply Forall_forall. intros n Hn.
  apply list_elem_of_In, in_map_iff in Hn. destruct Hn as [b [<- Hb]].
  rewrite Forall_forall in Hall. apply Hall, list_elem_of_In, Hb.
Qed.

Lemma StronglySorted_List_filter {A : Type} (R : A -> A -> Prop) (p : A -> bool)
    (l : list A) :
  StronglySorted R l -> StronglySorted R (List.filter p l).
Proof.
  induction 1 as [|a l Hl IH Hall]; [constructor|].
  cbn [List.filter]. destruct (p a); [|exact IH].
  constructor; [exact IH|].
  apply Forall_forall. intros x Hx.
  apply list_elem_of_In, filter_In in Hx. destruct Hx as [Hx _].
  rewrite Forall_forall in Hall. apply Hall, list_elem_of_In, Hx.
Qed.

Lemma fresh_text_key (acc : list (value * value)) (ks : list string) (n : string) :
  map fst acc = map VStr ks -> n ∉ ks ->
  forallb (fun kv => negb (key_eq (VStr n) (fst kv))) acc = true.
Proof.
  revert ks. induction acc as [|[k x] acc IH]; intros ks Hkeys Hn; [reflexivity|].
  destruct ks as [|k0 ks]; [discriminate|]. cbn [map fst] in Hkeys.
  inversion Hkeys as [[Hk Hrest]]. cbn [forallb fst].
  rewrite (IH ks Hrest) by (intros Hin; apply Hn; right; exact Hin).
  rewrite andb_true_r, key_eq_str.
  destruct (String.eqb n k0) eqn:E; [|reflexivity].
  apply String.eqb_eq in E. subst. exfalso. apply Hn. left.
Qed.

(** The keys the loop of [get_rpc_method_list] leaves: those it found,
    then the public names among the members, in the members' order. *)
Lemma document_members_keys (rt : runtime) (target : pyobject)
    (members : list (string * attr)) :
  NoDup (map fst members) ->
  forall acc ks ms,
    map fst acc = map VStr ks ->
    (forall n, n ∈ map fst members -> n ∉ ks) ->
    NanoNDSPHandler.document_members rt target members acc = Ok ms ->
    map fst ms
    = map VStr (ks ++ List.filter (fun n => negb (startswith "_" n)) (map fst members))%list.
Proof.
  induction members as [|[n a] members IH]; intros Hnd acc ks ms Hkeys Hfresh Hdoc.
  - cbn in Hdoc. inversion Hdoc; subst. cbn. rewrite app_nil_r. exact Hkeys.
  - cbn [map fst] in Hnd. apply NoDup_cons in Hnd. destruct Hnd as [Hn Hnd].
    cbn [NanoNDSPHandler.document_members] in Hdoc. cbn [map fst List.filter].
    destruct (startswith "_" n) eqn:Hunder; cbn [negb].
    + apply (IH Hnd acc ks ms Hkeys); [|exact Hdoc].
      intros n0 Hn0. apply Hfresh. cbn [map fst]. right. exact Hn0.
    + destruct (getattr rt target (VStr n)) as [method|]; [|discriminate].
      destruct (NanoNDSPHandler._document_function rt method) as [descr|]; [|discriminate].
      rewrite (dict_set_fresh acc (VStr n) descr) in Hdoc
        by (apply (fresh_text_key acc ks n Hkeys), Hfresh; cbn [map fst]; left).
      rewrite (IH Hnd (acc ++ [(VStr n, descr)])%list (ks ++ [n])%list ms);
        [rewrite <- app_assoc; reflexivity| | |exact Hdoc].
      * rewrite !map_app, Hkeys. reflexivity.
      * intros n0 Hn0 Hin. apply elem_of_app in Hin. destruct Hin as [Hin|Hin].
        -- apply (Hfresh n0); [cbn [map fst]; right; exact Hn0|exact Hin].
        -- apply list_elem_of_singleton in Hin. subst n0. contradiction.
Qed.

(** X9.  The [get_rpc_method_list] action calls no method and changes
    nothing; the [methods] mapping it returns lists its keys in ascending
    order of name, each once, so the encoded reply lists the methods in
    that order. *)
Theorem method_list_is_sorted
    (rt : runtime) (target : pyobject) (obj ret : value) (w w' : world) :
  subscript rt obj "action" = Ok (VStr "get_rpc_method_list") ->
  NanoNDSPHandler._process_action rt target obj w = (Ok ret, w') ->
  w' = w
  /\ exists ms names,
       ret = VDict [(VStr "docstring", opt_str (o_doc target)); (VStr "methods", VDict ms)]
       /\ map fst ms = map VStr names
       /\ StronglySorted String.le names
       /\ NoDup names.
Proof.
  intros Hact Hrun. unfold NanoNDSPHandler._process_action in Hrun.
  rewrite Hact in Hrun. cbn [value_is_str] in Hrun. rewrite String.eqb_refl in Hrun.
  destruct (NanoNDSPHandler.document_members rt target (getmembers_ismethod target) [])
    as [ms|err] eqn:Hdoc; [|discriminate].
  inversion Hrun; subst. split; [reflexivity|].
  exists ms, (List.filter (fun n => negb (startswith "_" n))
                (map fst (getmembers_ismethod target))).
  split; [reflexivity|]. split.
  - apply (document_members_keys rt target (getmembers_ismethod target)
             (getmembers_NoDup target) [] [] ms eq_refl); [|exact Hdoc].
    intros n _ Hin. inversion Hin.
  - split.
    + apply StronglySorted_List_filter, getmembers_sorted.
    + apply NoDup_ListNoDup, List.NoDup_filter, NoDup_ListNoDup, getmembers_NoDup.
Qed.

Lemma method_list_witness :
  idle_world = idle_world
  /\ exists ms names,
       fst (NanoNDSPHandler._process_action plain_runtime
              (ExampleAdder.instance plain_runtime)
              (VDict [(VStr "action", VStr "get_rpc_method_list")]) idle_world)
       = Ok (VDict [(VStr "docstring", opt_str (o_doc (ExampleAdder.instance plain_runtime)));
                    (VStr "methods", VDict ms)])
       /\ map fst ms = map VStr names
       /\ StronglySorted String.le names
       /\ NoDup names.
Proof.
  destruct (method_list_is_sorted plain_runtime (ExampleAdder.instance plain_runtime)
              (VDict [(VStr "action", VStr "get_rpc_method_list")])
              (match fst (NanoNDSPHandler._process_action plain_runtime
                            (ExampleAdder.instance plain_runtime)
                            (VDict [(VStr "action", VStr "get_rpc_method_list")]) idle_world)
               with Ok v => v | Raise _ => VNone end)
              idle_world idle_world) as [Hw [ms [names [Hret H]]]].
  - reflexivity.
  - vm_compute. reflexivity.
  - split; [reflexivity|]. exists ms, names. split; [|exact H].
    rewrite <- Hret. vm_compute. reflexivity.
Defined.

(* ------------------------------------------------------------------ *)
(** ** Text on the wire *)

Lemma utf8_char_roundtrip (c : ascii) (r : string) :
  utf8_decode_chars (utf8_encode (String c r))
  = match utf8_decode_chars (utf8_encode r) with
    | Some t => Some (String c t)
    | None => None
    end.
Proof.
  destruct c as [[] [] [] [] [] [] [] []]; reflexivity.
Qed.

(** Decoding what [str.encode] gives returns the text. *)
Lemma utf8_roundtrip (rt : runtime) (t : string) :
  utf8_decode rt (utf8_encode t) = Ok t.
Proof.
  unfold utf8_decode.
  assert (H : utf8_decode_chars (utf8_encode t) = Some t).
  { induction t as [|c r IH]; [reflexivity|]. rewrite utf8_char_roundtrip, IH. reflexivity. }
  rewrite H. reflexivity.
Qed.

Lemma utf8_encode_cons (c : ascii) (r : string) :
  exists c' r', utf8_encode (String c r) = String c' r'.
Proof.
  cbn [utf8_encode]. cbv zeta. destruct (N_of_ascii c <? 128)%N; eauto.
Qed.

Lemma decode_raw_text (rt : runtime) (t : string) (w : world) :
  begins_structured t = false -> MyPyon.decode rt (StrLine t) w = (Ok (VStr t), w).
Proof.
  intros H. unfold MyPyon.decode.
  change (startswith "{" t || startswith "[" t) with (begins_structured t).
  rewrite H. reflexivity.
Qed.



(** The encoding of a list, of a dict or of a non-empty set ends with its
    closing bracket: the parser reads it back whatever follows. *)
Lemma structured_read_back (v : value) (t : string) :
  in_domain v = true -> bracketed v = true -> repr v = Ok t ->
  forall fuel rest,
    (2 * String.length t <= fuel)%nat ->
    parse_expr fuel (t ++ rest) = Some (expr_of v, rest).
Proof.
  intros Hdom Hbr Ht fuel rest Hfuel.
  destruct v as [| b | z | s | l | l | l | kvs | n r]; try discriminate.
  - (* lists *)
    assert (Hl : Forall reads_back l) by (apply Forall_forall; intros; apply all_read_back).
    rewrite repr_list in Ht. destruct (repr_all l) as [ss|] eqn:Hss; [|discriminate].
    inversion Ht; subst t. clear Ht. cbn [in_domain] in Hdom.
    rewrite !slength_app in Hfuel. cbn [String.length] in Hfuel.
    destruct fuel as [|f]; [lia|].
    rewrite !sapp_assoc, sapp_cons, sapp_nil_l.
    change ("]" ++ rest) with (String "]" rest).
    cbn [parse_expr]. rewrite Ascii.eqb_refl.
    rewrite (join_skip l ss "]" rest Hdom Hss eq_refl).
    rewrite (items_read_back l Hl Hdom ss Hss f "]" rest) by (reflexivity || lia).
    reflexivity.
  - (* sets *)
    assert (Hl : Forall reads_back l) by (apply Forall_forall; intros; apply all_read_back).
    rewrite repr_set in Ht. cbn [in_domain] in Hdom.
    apply andb_true_iff in Hdom. destruct Hdom as [Hdom _].
    apply andb_true_iff in Hdom. destruct Hdom as [Hdom _].
    destruct l as [|x l']; [discriminate|].
    destruct (repr_all (x :: l')) as [ss|] eqn:Hss; [|discriminate].
    assert (Ht' : t = "{" ++ join ", " ss ++ "}").
    { assert (Hshape : exists s1 ss', ss = s1 :: ss').
      { cbn [repr_all] in Hss. destruct (repr x); [|discriminate].
        destruct (repr_all l'); [|discriminate]. inversion Hss. eauto. }
      destruct Hshape as [s1 [ss' Hshape]]. rewrite Hshape in Ht |- *. congruence. }
    subst t. clear Ht.
    rewrite !slength_app in Hfuel. cbn [String.length] in Hfuel.
    destruct fuel as [|f]; [lia|].
    rewrite (sapp_assoc "{"), (sapp_assoc (join ", " ss)), sapp_cons, sapp_nil_l.
    change ("}" ++ rest) with (String "}" rest).
    cbn [parse_expr].
    replace (Ascii.eqb "{" "[") with false by reflexivity.
    replace (Ascii.eqb "{" "(") with false by reflexivity.
    rewrite Ascii.eqb_refl. cbv zeta.
    rewrite (join_skip _ ss "}" rest Hdom Hss eq_refl).
    destruct (join_first x l' ss (String "}" rest) Hdom Hss) as [c [tl [Heq Hopen]]].
    destruct (closer_facts "}" rest eq_refl) as [_ [_ [_ Hne]]].
    rewrite Heq at 1.
    change "}" with (str1 "}") at 1. rewrite (startswith_head "}" c tl (Hne c Hopen)).
    destruct (items_first_parse x l' ss f "}" rest Hl Hdom Hss eq_refl) as [tail [Hp Hc]];
      [lia|].
    rewrite Hp, Hc.
    rewrite (items_read_back _ Hl Hdom _ Hss f "}" rest) by (reflexivity || lia).
    reflexivity.
  - (* dicts *)
    assert (Hkvs : Forall (fun kv => reads_back (fst kv) /\ reads_back (snd kv)) kvs)
      by (apply Forall_forall; intros; split; apply all_read_back).
    rewrite repr_dict in Ht. rewrite in_domain_dict in Hdom.
    apply andb_true_iff in Hdom. destruct Hdom as [Hdom _].
    apply andb_true_iff in Hdom. destruct Hdom as [Hdom _].
    rewrite expr_of_dict.
    destruct (repr_pairs kvs) as [ss|] eqn:Hss; [|discriminate].
    inversion Ht; subst t. clear Ht.
    rewrite !slength_app in Hfuel. cbn [String.length] in Hfuel.
    destruct fuel as [|f]; [lia|].
    rewrite (sapp_assoc "{"), (sapp_assoc (join ", " ss)), sapp_cons, sapp_nil_l.
    change ("}" ++ rest) with (String "}" rest).
    destruct kvs as [|[k x] kvs'].
    + cbn [repr_pairs] in Hss. inversion Hss; subst ss. reflexivity.
    + cbn [parse_expr].
      replace (Ascii.eqb "{" "[") with false by reflexivity.
      replace (Ascii.eqb "{" "(") with false by reflexivity.
      rewrite Ascii.eqb_refl. cbv zeta.
      inversion Hkvs as [|? ? [Hk Hx] _]; subst. cbn [fst snd] in Hk, Hx.
      pose proof Hdom as Hdom'. cbn [forallb fst snd] in Hdom'.
      apply andb_true_iff in Hdom'. destruct Hdom' as [Hd _].
      apply andb_true_iff in Hd. destruct Hd as [Hdk _].
      assert (Hhead : exists c tl, join ", " ss ++ String "}" rest = String c tl
                                   /\ not_opening c = false).
      { cbn [repr_pairs] in Hss.
        destruct (repr k) as [sk|] eqn:Hsk; [|discriminate].
        destruct (repr x) as [sx|]; [|discriminate].
        destruct (repr_pairs kvs') as [ss'|]; [|discriminate]. inversion Hss; subst ss.
        destruct (repr_head k sk Hdk Hsk) as [c [sk' [Heq Hopen]]]. subst sk.
        destruct ss'; cbn [join]; rewrite ?sapp_assoc, sapp_cons; eauto. }
      destruct Hhead as [c [tl [Heq Hopen]]].
      destruct (closer_facts "}" rest eq_refl) as [_ [_ [_ Hne]]].
      assert (Hskip : skip_spaces (join ", " ss ++ String "}" rest)
                      = join ", " ss ++ String "}" rest)
        by (rewrite Heq; apply skip_spaces_head, Hopen).
      rewrite Hskip. rewrite Heq at 1.
      change "}" with (str1 "}") at 1. rewrite (startswith_head "}" c tl (Hne c Hopen)).
      destruct (pairs_first_parse k x kvs' ss f rest Hk Hdk Hss) as [tail [Hp Hc]]; [lia|].
      rewrite Hp, Hc.
      rewrite (pairs_read_back _ Hkvs Hdom _ Hss f rest) by lia.
      reflexivity.
Qed.

Lemma begins_structured_app (t rest : string) :
  begins_structured t = true -> begins_structured (t ++ rest) = true.
Proof.
  destruct t as [|c t']; [discriminate|]. intros H. rewrite sapp_cons. exact H.
Qed.



(* ------------------------------------------------------------------ *)
(** ** Framing: a reply is one line *)

Lemma one_line_cons (c : ascii) (s : string) :
  one_line (String c s) = negb (Ascii.eqb newline c) && one_line s.
Proof.
  unfold one_line. cbn [str_contains]. destruct (Ascii.eqb newline c); reflexivity.
Qed.

Lemma one_line_app (a b : string) : one_line (a ++ b) = one_line a && one_line b.
Proof.
  induction a as [|c a IH]; [reflexivity|].
  rewrite sapp_cons, !one_line_cons, IH, andb_assoc. reflexivity.
Qed.

Lemma one_line_join (ss : list string) :
  Forall (fun s => one_line s = true) ss -> one_line (join ", " ss) = true.
Proof.
  induction 1 as [|s ss Hs Hss IH]; [reflexivity|].
  destruct ss as [|s' ss']; [exact Hs|].
  change (join ", " (s :: s' :: ss')) with (s ++ ", " ++ join ", " (s' :: ss')).
  rewrite !one_line_app, Hs, IH. reflexivity.
Qed.

Lemma one_line_wrapped (a b c : string) :
  one_line a = true -> one_line b = true -> one_line c = true ->
  one_line (a ++ b ++ c) = true.
Proof. intros Ha Hb Hc. rewrite !one_line_app, Ha, Hb, Hc. reflexivity. Qed.

Lemma repr_char_one_line (q c : ascii) :
  q = squote \/ q = dquote -> one_line (repr_char q c) = true.
Proof.
  intros [-> | ->]; destruct c as [[] [] [] [] [] [] [] []]; reflexivity.
Qed.

Lemma repr_str_one_line (s : string) : one_line (repr_str s) = true.
Proof.
  unfold repr_str. cbv zeta.
  pose proof (repr_quote_cases s) as Hq. revert Hq. generalize (repr_quote s) as q.
  intros q Hq. rewrite one_line_cons, one_line_app.
  assert (Hchars : one_line (repr_chars q s) = true).
  { induction s as [|c s IH]; [reflexivity|]. cbn [repr_chars].
    rewrite one_line_app, (repr_char_one_line q c Hq), IH. reflexivity. }
  rewrite Hchars. destruct Hq as [-> | ->]; reflexivity.
Qed.

Lemma digits_one_line (s : string) : all_chars is_digit s = true -> one_line s = true.
Proof.
  induction s as [|c s IH]; [reflexivity|]. cbn [all_chars]. intros H.
  apply andb_true_iff in H. destruct H as [Hc Hs].
  rewrite one_line_cons, (IH Hs), andb_true_r.
  destruct (Ascii.eqb newline c) eqn:E; [|reflexivity].
  apply Ascii.eqb_eq in E. subst c. discriminate Hc.
Qed.

Lemma repr_Z_one_line (z : Z) : one_line (repr_Z z) = true.
Proof.
  unfold repr_Z. destruct (repr_N_spec (Z.abs_N z)) as [c [ds [Heq [Hall _]]]].
  rewrite Heq. destruct (z <? 0)%Z; [rewrite one_line_cons|]; rewrite (digits_one_line _ Hall);
    reflexivity.
Qed.

Lemma repr_all_one_line (l : list value) :
  Forall (fun v => in_domain v = true -> forall t, repr v = Ok t -> one_line t = true) l ->
  forallb in_domain l = true ->
  forall ss, repr_all l = Ok ss -> Forall (fun s => one_line s = true) ss.
Proof.
  induction 1 as [|x r Hx _ IH]; intros Hdom ss Hss.
  - inversion Hss. constructor.
  - cbn [forallb] in Hdom. apply andb_true_iff in Hdom. destruct Hdom as [Hdx Hdr].
    cbn [repr_all] in Hss. destruct (repr x) as [sx|] eqn:Hsx; [|discriminate].
    destruct (repr_all r) as [ss'|]; [|discriminate]. inversion Hss; subst ss.
    constructor; [exact (Hx Hdx sx eq_refl)|exact (IH Hdr ss' eq_refl)].
Qed.

(** The encoding of a value of the domain holds no newline: [repr]
    escapes the newlines of a text, and nothing else could bring one. *)
Lemma repr_one_line (v : value) :
  in_domain v = true -> forall t, repr v = Ok t -> one_line t = true.
Proof.
  induction v as [| b | z | s | l Hl | l Hl | l Hl | kvs Hkvs | n r] using value_nested_ind;
    intros Hdom t Ht.
  - inversion Ht. reflexivity.
  - destruct b; inversion Ht; reflexivity.
  - inversion Ht. apply repr_Z_one_line.
  - inversion Ht. apply repr_str_one_line.
  - rewrite repr_list in Ht. destruct (repr_all l) as [ss|] eqn:Hss; [|discriminate].
    inversion Ht. cbn [in_domain] in Hdom.
    apply one_line_wrapped;
      [reflexivity|apply one_line_join, (repr_all_one_line l Hl Hdom ss Hss)|reflexivity].
  - rewrite repr_tuple in Ht. destruct (repr_all l) as [ss|] eqn:Hss; [|discriminate].
    cbn [in_domain] in Hdom.
    pose proof (repr_all_one_line l Hl Hdom ss Hss) as Hall.
    destruct ss as [|s1 [|s2 ss']]; injection Ht as <-.
    + reflexivity.
    + apply Forall_inv in Hall. apply one_line_wrapped; [reflexivity|exact Hall|reflexivity].
    + apply one_line_wrapped;
        [reflexivity|exact (one_line_join (s1 :: s2 :: ss') Hall)|reflexivity].
  - rewrite repr_set in Ht. destruct (repr_all l) as [ss|] eqn:Hss; [|discriminate].
    cbn [in_domain] in Hdom.
    apply andb_true_iff in Hdom. destruct Hdom as [Hdom _].
    apply andb_true_iff in Hdom. destruct Hdom as [Hdom _].
    pose proof (repr_all_one_line l Hl Hdom ss Hss) as Hall.
    destruct ss as [|s1 ss']; injection Ht as <-.
    + reflexivity.
    + apply one_line_wrapped; [reflexivity|exact (one_line_join (s1 :: ss') Hall)|reflexivity].
  - rewrite repr_dict in Ht. destruct (repr_pairs kvs) as [ss|] eqn:Hss; [|discriminate].
    inversion Ht. rewrite in_domain_dict in Hdom.
    apply andb_true_iff in Hdom. destruct Hdom as [Hdom _].
    apply andb_true_iff in Hdom. destruct Hdom as [Hdom _].
    assert (Hall : Forall (fun s => one_line s = true) ss).
    { clear Ht H0. revert ss Hss. induction Hkvs as [|[k x] r [Hk Hx] _ IH]; intros ss Hss.
      - inversion Hss. constructor.
      - cbn [forallb fst snd] in Hdom. apply andb_true_iff in Hdom.
        destruct Hdom as [Hd Hdr]. apply andb_true_iff in Hd. destruct Hd as [Hdk Hdx].
        cbn [fst snd] in Hk, Hx. cbn [repr_pairs] in Hss.
        destruct (repr k) as [sk|] eqn:Hsk; [|discriminate].
        destruct (repr x) as [sx|] eqn:Hsx; [|discriminate].
        destruct (repr_pairs r) as [ss'|]; [|discriminate]. inversion Hss; subst ss.
        constructor; [|exact (IH Hdr ss' eq_refl)].
        apply one_line_wrapped; [exact (Hk Hdk sk eq_refl)|reflexivity|exact (Hx Hdx sx eq_refl)]. }
    apply one_line_wrapped; [reflexivity|apply one_line_join, Hall|reflexivity].
  - discriminate Hdom.
Qed.

(** X12.  Whatever the request, when the action can only return values of
    the domain the reply the envelope layer produces, Ok or Failed, holds
    no newline: with the one the handler appends, each reply is one line
    on the wire, whatever texts the result or the error message carry. *)
Theorem reply_is_one_line
    (rt : runtime) (target : pyobject) (obj : value) (w w' : world) (reply : string) :
  (forall ret w1,
     NanoNDSPHandler._process_action rt target obj w = (Ok ret, w1) -> in_domain ret = true) ->
  NanoNDSPHandler._process_and_pyonize rt target obj w = (Ok reply, w') ->
  one_line reply = true.
Proof.
  intros Hdom. unfold NanoNDSPHandler._process_and_pyonize.
  assert (Hfail : forall err w1,
            NanoNDSPHandler.on_exception err w1 = (Ok reply, w') -> one_line reply = true).
  { intros err w1. unfold NanoNDSPHandler.on_exception.
    destruct (is_Exception (exn_cls err)); [|discriminate].
    rewrite encode_failed_envelope. intros H. inversion H.
    apply one_line_wrapped; [reflexivity|apply repr_str_one_line|reflexivity]. }
  destruct (NanoNDSPHandler._process_action rt target obj w) as [[ret|err] w1] eqn:Hact.
  - rewrite encode_ok_envelope. unfold MyPyon.encode.
    destruct (repr ret) as [text|err] eqn:Hret; [|apply Hfail].
    intros H. inversion H.
    apply one_line_wrapped;
      [reflexivity|exact (repr_one_line ret (Hdom ret w1 eq_refl) text Hret)|reflexivity].
  - apply Hfail.
Qed.

Lemma reply_is_one_line_witness :
  one_line "{'status': 'ok', 'ret': 'a\nb'}" = true.
Proof.
  apply (reply_is_one_line plain_runtime (ExampleAdder.instance plain_runtime)
           (call_request "add" [VStr (String "a" (str1 newline)); VStr "b"])
           idle_world idle_world).
  - intros ret w1 H. vm_compute in H. inversion H. reflexivity.
  - vm_compute. reflexivity.
Defined.

(* ------------------------------------------------------------------ *)
(** ** The example target on the wire *)

Lemma repr_add_request (a b : Z) :
  repr (call_request "add" [VInt a; VInt b])
  = Ok (add_call_text a b).
Proof.
  unfold call_request, add_call_text. rewrite repr_dict. cbn [repr_pairs].
  rewrite repr_list, repr_dict. cbn [repr_all repr_pairs repr join].
  rewrite !sapp_assoc. reflexivity.
Qed.

Lemma adder_call_add (rt : runtime) (a b : Z) (w : world) :
  NanoNDSPHandler._process_and_pyonize rt (ExampleAdder.instance rt)
    (call_request "add" [VInt a; VInt b]) w
  = (Ok (ok_reply (repr_Z (a + b))), w).
Proof.
  unfold NanoNDSPHandler._process_and_pyonize.
  rewrite (call_dispatch rt (ExampleAdder.instance rt) (call_request "add" [VInt a; VInt b])
             (VList [VInt a; VInt b]) (VDict []) "add"
             (add_call_text a b)
             (AMethod (ExampleAdder.add rt)) [VInt a; VInt b] [] w);
    [reflexivity|reflexivity|apply repr_add_request|reflexivity..].
Qed.



Lemma call_request_in_domain (name : string) (args : list value) :
  forallb in_domain args = true -> in_domain (call_request name args) = true.
Proof.
  intros H. unfold call_request. rewrite in_domain_dict.
  cbn [forallb fst snd in_domain map]. rewrite H. reflexivity.
Qed.

(** X14.  Calling [print] of an [ExampleAdder] with one argument of the
    domain: the process prints the argument's [str] and a newline, the
    method returns nothing, and the reply is the Ok envelope around
    [None]. *)
Theorem print_call_prints (rt : runtime) (msg : value) (w : world) :
  in_domain msg = true ->
  exists text,
    py_str msg = Ok text
    /\ NanoNDSPHandler._process_and_pyonize rt (ExampleAdder.instance rt)
         (call_request "print" [msg]) w
       = (Ok (ok_reply "None"), emit (Printed (text ++ str1 newline)) w).
Proof.
  intros Hdom.
  assert (Hstr : exists text, py_str msg = Ok text).
  { destruct msg; try (apply (repr_total _ Hdom)). eexists. reflexivity. }
  destruct Hstr as [text Hstr]. exists text. split; [exact Hstr|].
  destruct (repr_total (call_request "print" [msg])) as [t Ht].
  { apply call_request_in_domain. cbn [forallb]. rewrite Hdom. reflexivity. }
  unfold NanoNDSPHandler._process_and_pyonize.
  rewrite (call_dispatch rt (ExampleAdder.instance rt) (call_request "print" [msg])
             (VList [msg]) (VDict []) "print" t
             (AMethod (ExampleAdder.print rt)) [msg] [] w);
    [|reflexivity|exact Ht|reflexivity..].
  cbn [call_attr ExampleAdder.print fn_call].
  replace (bind_params ["msg"] [msg] []) with (Some [msg]) by reflexivity.
  rewrite Hstr. reflexivity.
Qed.

Lemma print_call_witness :
  exists text,
    py_str (VInt 7) = Ok text
    /\ NanoNDSPHandler._process_and_pyonize plain_runtime (ExampleAdder.instance plain_runtime)
         (call_request "print" [VInt 7]) idle_world
       = (Ok (ok_reply "None"), emit (Printed (text ++ str1 newline)) idle_world).
Proof.
  apply (print_call_prints plain_runtime (VInt 7) idle_world). reflexivity.
Defined.

(** X15.  Calling [add] of an [ExampleAdder] with positional arguments
    that are not two in number, and no keyword: the binding fails before
    the body runs, and the reply is the Failed envelope of the TypeError. *)
Theorem add_wrong_arity_is_reported (rt : runtime) (args : list value) (w : world) :
  forallb in_domain args = true ->
  length args <> 2%nat ->
  NanoNDSPHandler._process_and_pyonize rt (ExampleAdder.instance rt)
    (call_request "add" args) w
  = (Ok ("{'status': 'failed', 'exception': "
         ++ repr_str (rt_message rt (ErrBinding "add")) ++ "}"),
     emit (ErrorReport (Exn TypeError (rt_message rt (ErrBinding "add")))) w).
Proof.
  intros Hdom Hlen.
  destruct (repr_total (call_request "add" args) (call_request_in_domain "add" args Hdom))
    as [t Ht].
  apply (failed_reply rt _ _ w w (Exn TypeError (rt_message rt (ErrBinding "add"))));
    [|reflexivity].
  rewrite (call_dispatch rt (ExampleAdder.instance rt) (call_request "add" args)
             (VList args) (VDict []) "add" t
             (AMethod (ExampleAdder.add rt)) args [] w);
    [|reflexivity|exact Ht|reflexivity..].
  cbn [call_attr ExampleAdder.add fn_call].
  destruct args as [|x [|y [|z r]]]; try reflexivity.
  contradiction Hlen. reflexivity.
Qed.

Lemma add_wrong_arity_witness :
  NanoNDSPHandler._process_and_pyonize plain_runtime (ExampleAdder.instance plain_runtime)
    (call_request "add" [VInt 4]) idle_world
  = (Ok ("{'status': 'failed', 'exception': "
         ++ repr_str (rt_message plain_runtime (ErrBinding "add")) ++ "}"),
     emit (ErrorReport (Exn TypeError (rt_message plain_runtime (ErrBinding "add"))))
       idle_world).
Proof.
  apply (add_wrong_arity_is_reported plain_runtime [VInt 4] idle_world);
    [reflexivity|simpl; lia].
Defined.

(* ------------------------------------------------------------------ *)
(** ** The descriptor of a function *)

(** X16.  [_document_function] leaves the argument specification of a
    function without annotations as [getfullargspec] gives it.  When some
    parameter (of non-empty name) is annotated, the [annotations] field,
    and that field only, is replaced by the [str] of the annotations
    mapping, in its place at the end; if that conversion raises, so does
    [_document_function]. *)
Theorem annotations_become_text (rt : runtime) (f : pyfunction) :
  (fa_annotations (fn_spec f) = [] ->
   NanoNDSPHandler._document_function rt (AMethod f)
   = Ok (VTuple [VDict (NanoNDSPHandler.argspec_dict (fn_spec f)); opt_str (fn_doc f)]))
  /\ ((exists n v, In (n, v) (fa_annotations (fn_spec f)) /\ n <> EmptyString) ->
      NanoNDSPHandler._document_function rt (AMethod f)
      = match repr (VDict (map (fun p => (VStr (fst p), snd p))
                             (fa_annotations (fn_spec f)))) with
        | Ok text =>
            Ok (VTuple
                  [VDict (removelast (NanoNDSPHandler.argspec_dict (fn_spec f))
                          ++ [(VStr "annotations", VStr text)]);
                   opt_str (fn_doc f)])
        | Raise err => Raise err
        end).
Proof.
  split.
  - intros Hnone. unfold NanoNDSPHandler._document_function, NanoNDSPHandler.argspec_dict.
    rewrite Hnone. reflexivity.
  - intros [n [v [Hin Hn]]].
    unfold NanoNDSPHandler._document_function.
    replace (from_option id (VDict [])
               (dict_lookup (NanoNDSPHandler.argspec_dict (fn_spec f)) (VStr "annotations")))
      with (VDict (map (fun p => (VStr (fst p), snd p)) (fa_annotations (fn_spec f))))
      by reflexivity.
    assert (Hany : NanoNDSPHandler.any_key
                     (map (fun p => (VStr (fst p), snd p)) (fa_annotations (fn_spec f)))
                   = true).
    { unfold NanoNDSPHandler.any_key. apply existsb_exists.
      exists (VStr n, v). split.
      - apply in_map_iff. exists (n, v). split; [reflexivity|exact Hin].
      - cbn [fst]. destruct n; [congruence|reflexivity]. }
    rewrite Hany. unfold py_str.
    destruct (repr _) as [text|err]; reflexivity.
Qed.

Lemma annotations_become_text_witness :
  NanoNDSPHandler._document_function plain_runtime
    (AMethod (PyFunction
                (FullArgSpec ["self"; "a"] None None None [] None
                   [("a", VObj "int" (Ok "<class 'int'>"))])
                None (fun _ _ w => (Ok VNone, w))))
  = Ok (VTuple
          [VDict [(VStr "args", VList [VStr "self"; VStr "a"]);
                  (VStr "varargs", VNone);
                  (VStr "varkw", VNone);
                  (VStr "defaults", VNone);
                  (VStr "kwonlyargs", VList []);
                  (VStr "kwonlydefaults", VNone);
                  (VStr "annotations", VStr "{'a': <class 'int'>}")];
           VNone]).
Proof.
  apply (proj2 (annotations_become_text plain_runtime
                  (PyFunction
                     (FullArgSpec ["self"; "a"] None None None [] None
                        [("a", VObj "int" (Ok "<class 'int'>"))])
                     None (fun _ _ w => (Ok VNone, w))))).
  exists "a", (VObj "int" (Ok "<class 'int'>")). split; [simpl; auto|discriminate].
Defined.
